(** * Real-time order updates: the change-notification fan-out core

    A shallow embedding of [backend/websocket_manager.py],
    [backend/database.py], [backend/models.py] and [backend/main.py], and the
    properties of the connection registry, the broadcaster, the notification
    listener and the start-up path that the specification states.

    Python objects that the code shares (the module-level [manager], the
    [db] global of [main.py]) live in one [World] record that every coroutine
    threads along; exceptions are values of a result type; calls into
    libraries (Starlette sockets, asyncpg, json, pydantic) are fields of a
    [Platform] and every theorem holds for all of them. *)

From Stdlib Require Import List String Ascii ZArith Lia Bool Arith PeanoNat.
From Stdlib Require Import Decimal DecimalString.
Import ListNotations.
Local Open Scope string_scope.
Set Warnings "-register-all".

(* ===================================================================== *)
(** ** Python values, exceptions and results *)
(* ===================================================================== *)

Module Py.

(** The classes of exception the code tells apart.  Every value of [Exn]
    is an instance of [Exception]: it is what [except Exception] catches.
    Signals outside that class (task cancellation, interpreter exit) are
    outside the model. *)
Inductive ExnKind : Type :=
| KHTTPException (status_code : Z) (detail : string)
| KWebSocketDisconnect
| KOther (cls : string).

(** [text] is what [str(e)] gives, as the f-strings of the code print it. *)
Record Exn : Type := mkExn { kind : ExnKind; text : string }.

Inductive Result (A : Type) : Type :=
| Ok (a : A)
| Raise (e : Exn).
Arguments Ok {A} a.
Arguments Raise {A} e.

Definition is_ok {A : Type} (r : Result A) : bool :=
  match r with Ok _ => true | Raise _ => false end.

(** The values that travel through the code: what [json.loads] builds,
    plus the timestamps that asyncpg rows carry. A [dict] keeps its
    insertion order; lookup takes the first binding of a key. *)
Inductive PyVal : Type :=
| PNone
| PBool (b : bool)
| PInt (z : Z)
| PFloat (repr : string)
| PStr (s : string)
| PDatetime (iso : string)
| PList (items : list PyVal)
| PDict (kvs : list (string * PyVal)).

Fixpoint dict_get (kvs : list (string * PyVal)) (k : string) : option PyVal :=
  match kvs with
  | [] => None
  | (k', v) :: rest => if String.eqb k k' then Some v else dict_get rest k
  end.

(** [str(n)] for an [int]. *)
Definition str_of_Z (z : Z) : string := NilZero.string_of_int (Z.to_int z).

(** Truthiness of [x] in [if not x] where [x] is [None] or a [dict]. *)
Definition truthy (o : option PyVal) : bool :=
  match o with
  | None => false
  | Some (PDict []) => false
  | Some _ => true
  end.

End Py.
Import Py.

(* ===================================================================== *)
(** ** models.py *)
(* ===================================================================== *)

Module Models.

Inductive OrderStatus : Type := PENDING | SHIPPED | DELIVERED.

Definition OrderStatus_value (s : OrderStatus) : string :=
  match s with
  | PENDING => "pending"
  | SHIPPED => "shipped"
  | DELIVERED => "delivered"
  end.

Record OrderCreate : Type := mkOrderCreate {
  oc_customer_name : string;
  oc_product_name : string;
  oc_status : OrderStatus
}.

Record OrderUpdate : Type := mkOrderUpdate {
  customer_name : option string;
  product_name : option string;
  status : option OrderStatus
}.

End Models.
Import Models.

(* ===================================================================== *)
(** ** The platform: everything the code calls but does not define *)
(* ===================================================================== *)

(** A [WebSocket] is an opaque handle; [in] and [list.remove] compare handles
    by identity, which is equality of the handle's number here. *)
Definition WebSocket : Type := nat.
Definition Pool : Type := nat.
Definition Connection : Type := nat.

(** A query parameter handed to asyncpg. *)
Inductive SqlValue : Type :=
| SqlStr (s : string)
| SqlStatus (s : OrderStatus)
| SqlPy (v : PyVal).

(** [Net] is the state of the outside world: the peers behind the sockets,
    the store with its table and its notification channel, the process
    environment.  Each call may change it and may raise. *)
Record Platform : Type := mkPlatform {
  Net : Type;
  ws_accept : WebSocket -> Net -> Result unit * Net;
  ws_send_text : WebSocket -> string -> Net -> Result unit * Net;
  ws_send_json : WebSocket -> PyVal -> Net -> Result unit * Net;
  ws_receive_json : WebSocket -> Net -> Result PyVal * Net;
  json_loads : string -> Result PyVal;
  json_dumps : PyVal -> Result string;
  py_str : PyVal -> string;
  getitem_error : PyVal -> string -> Exn;
  getattr_error : PyVal -> string -> Exn;
  os_getenv : string -> Net -> option string;
  asyncpg_create_pool : string -> Z -> Z -> Z -> Net -> Result Pool * Net;
  asyncpg_connect : string -> Net -> Result Connection * Net;
  add_listener : Connection -> string -> Net -> Result unit * Net;
  pool_fetch : Pool -> string -> list SqlValue -> Net -> Result (list PyVal) * Net;
  pool_fetchrow : Pool -> string -> list SqlValue -> Net -> Result (option PyVal) * Net;
  OrderCreate_init : PyVal -> Result OrderCreate;
  OrderUpdate_init : PyVal -> Result OrderUpdate
}.

(* ===================================================================== *)
(** ** The shared state and the monad of coroutines *)
(* ===================================================================== *)

(** [ConnectionManager.__init__]. *)
Record ConnectionManager : Type := mkManager {
  active_connections : list WebSocket;
  connection_count : Z
}.

Definition ConnectionManager_init : ConnectionManager :=
  {| active_connections := []; connection_count := 0 |}.

(** [Database.__init__]; [listening_task] is never assigned by the code. *)
Record Database : Type := mkDatabase {
  database_url : string;
  pool : option Pool;
  listener_connection : option Connection
}.

Definition Database_init (url : string) : Database :=
  {| database_url := url; pool := None; listener_connection := None |}.

Inductive Level : Type := INFO | ERROR.

(** One attempted send on a socket, with whether it returned ([true]) or
    raised ([false]). *)
Inductive Wire : Type :=
| WText (ws : WebSocket) (message : string) (delivered : bool)
| WJson (ws : WebSocket) (data : PyVal) (delivered : bool).

Definition wire_ws (x : Wire) : WebSocket :=
  match x with WText ws _ _ => ws | WJson ws _ _ => ws end.

Section World.

Variable P : Platform.

(** [manager] is [websocket_manager.manager]; [main_db] is the global [db]
    of [main.py].  [wire], [logs] and [queries] record, oldest first, the
    sends attempted on sockets, the log records and the statements handed
    to the store: they are observations, the code never reads them. *)
Record World : Type := mkWorld {
  net : Net P;
  manager : ConnectionManager;
  main_db : option Database;
  wire : list Wire;
  logs : list (Level * string);
  queries : list (string * list SqlValue)
}.

Definition set_net (n : Net P) (w : World) : World :=
  {| net := n; manager := manager w; main_db := main_db w;
     wire := wire w; logs := logs w; queries := queries w |}.

Definition set_manager (m : ConnectionManager) (w : World) : World :=
  {| net := net w; manager := m; main_db := main_db w;
     wire := wire w; logs := logs w; queries := queries w |}.

Definition set_main_db (d : option Database) (w : World) : World :=
  {| net := net w; manager := manager w; main_db := d;
     wire := wire w; logs := logs w; queries := queries w |}.

Definition push_wire (x : Wire) (w : World) : World :=
  {| net := net w; manager := manager w; main_db := main_db w;
     wire := wire w ++ [x]; logs := logs w; queries := queries w |}.

Definition push_log (l : Level * string) (w : World) : World :=
  {| net := net w; manager := manager w; main_db := main_db w;
     wire := wire w; logs := logs w ++ [l]; queries := queries w |}.

Definition push_query (q : string * list SqlValue) (w : World) : World :=
  {| net := net w; manager := manager w; main_db := main_db w;
     wire := wire w; logs := logs w; queries := queries w ++ [q] |}.

(** A coroutine: runs on a world, returns or raises, leaves a world.  What
    it did before raising stays done. *)
Definition M (A : Type) : Type := World -> Result A * World.

Definition ret {A : Type} (a : A) : M A := fun w => (Ok a, w).

Definition bind {A B : Type} (m : M A) (k : A -> M B) : M B :=
  fun w => match m w with
           | (Ok a, w') => k a w'
           | (Raise e, w') => (Raise e, w')
           end.

Definition raise {A : Type} (e : Exn) : M A := fun w => (Raise e, w).

(** [try: body  except Exception as e: handler e]. *)
Definition try_except {A : Type} (body : M A) (handler : Exn -> M A) : M A :=
  fun w => match body w with
           | (Ok a, w') => (Ok a, w')
           | (Raise e, w') => handler e w'
           end.

Definition lift_result {A : Type} (r : Result A) : M A := fun w => (r, w).

Definition logger_info (s : string) : M unit :=
  fun w => (Ok tt, push_log (INFO, s) w).

Definition logger_error (s : string) : M unit :=
  fun w => (Ok tt, push_log (ERROR, s) w).

(** A call into the outside world. *)
Definition extern {A : Type} (f : Net P -> Result A * Net P) : M A :=
  fun w => let (r, n) := f (net w) in (r, set_net n w).

(** [await websocket.send_text(message)], observed on the wire. *)
Definition send_text (ws : WebSocket) (message : string) : M unit :=
  fun w => let (r, n) := ws_send_text P ws message (net w) in
           (r, push_wire (WText ws message (is_ok r)) (set_net n w)).

(** [await websocket.send_json(data)], observed on the wire. *)
Definition send_json (ws : WebSocket) (data : PyVal) : M unit :=
  fun w => let (r, n) := ws_send_json P ws data (net w) in
           (r, push_wire (WJson ws data (is_ok r)) (set_net n w)).

End World.

Arguments ret {P A} a _.
Arguments bind {P A B} m k _.
Arguments raise {P A} e _.
Arguments try_except {P A} body handler _.
Arguments lift_result {P A} r _.
Arguments logger_info {P} s _.
Arguments logger_error {P} s _.
Arguments extern {P A} f _.
Arguments send_text {P} ws message _.
Arguments send_json {P} ws data _.
Arguments net {P} _.
Arguments manager {P} _.
Arguments main_db {P} _.
Arguments wire {P} _.
Arguments logs {P} _.
Arguments queries {P} _.
Arguments set_net {P} n w.
Arguments set_manager {P} m w.
Arguments set_main_db {P} d w.
Arguments push_wire {P} x w.
Arguments push_log {P} l w.
Arguments push_query {P} q w.
Arguments mkWorld {P}.

Declare Scope py_scope.
Delimit Scope py_scope with py.
Notation "x <- c1 ;; c2" := (bind c1 (fun x => c2))
  (at level 61, c1 at next level, right associativity) : py_scope.
Notation "c1 ;; c2" := (bind c1 (fun _ => c2))
  (at level 61, right associativity) : py_scope.
Local Open Scope py_scope.

(* ===================================================================== *)
(** ** websocket_manager.py *)
(* ===================================================================== *)

Module WebsocketManager.

(** [x in l]. *)
Definition contains (x : WebSocket) (l : list WebSocket) : bool :=
  existsb (Nat.eqb x) l.

(** [l.remove(x)]: drops the first entry equal to [x]; [None] stands for
    the [ValueError] that Python raises when there is none. *)
Fixpoint list_remove (x : WebSocket) (l : list WebSocket) : option (list WebSocket) :=
  match l with
  | [] => None
  | y :: rest =>
      if Nat.eqb x y then Some rest
      else match list_remove x rest with
           | Some rest' => Some (y :: rest')
           | None => None
           end
  end.

Definition ValueError_remove : Exn :=
  mkExn (KOther "ValueError") "list.remove(x): x not in list".

Section Manager.

Variable P : Platform.

(** [ConnectionManager.connect]. *)
Definition connect (websocket : WebSocket) : M P unit :=
  extern (ws_accept P websocket) ;;
  (fun w =>
     let m := manager w in
     (Ok tt, set_manager {| active_connections := active_connections m ++ [websocket];
                            connection_count := connection_count m + 1 |} w)) ;;
  (fun w =>
     logger_info ("Client connected. Total connections: "
                  ++ str_of_Z (connection_count (manager w))) w).

(** [ConnectionManager.disconnect]. *)
Definition disconnect (websocket : WebSocket) : M P unit :=
  fun w =>
    let m := manager w in
    if contains websocket (active_connections m) then
      match list_remove websocket (active_connections m) with
      | None => (Raise ValueError_remove, w)
      | Some l =>
          let m' := {| active_connections := l;
                       connection_count := connection_count m - 1 |} in
          logger_info ("Client disconnected. Total connections: "
                       ++ str_of_Z (connection_count m'))
                      (set_manager m' w)
      end
    else (Ok tt, w).

(** [ConnectionManager.send_personal_message]. *)
Definition send_personal_message (message : string) (websocket : WebSocket) : M P unit :=
  try_except
    (send_text websocket message)
    (fun e =>
       logger_error ("Error sending personal message: " ++ text e) ;;
       disconnect websocket).

(** [ConnectionManager.send_json_personal]. *)
Definition send_json_personal (data : PyVal) (websocket : WebSocket) : M P unit :=
  try_except
    (send_json websocket data)
    (fun e =>
       logger_error ("Error sending JSON message: " ++ text e) ;;
       disconnect websocket).

(** The second loop of the broadcasts:
    [for connection in disconnected: self.disconnect(connection)]. *)
Fixpoint disconnect_all (disconnected : list WebSocket) : M P unit :=
  match disconnected with
  | [] => ret tt
  | connection :: rest => disconnect connection ;; disconnect_all rest
  end.

(** The state of [for connection in self.active_connections] between two
    trips: the iterator is an index into the list object itself, which
    [connect] and [disconnect] change in place. *)
Record Frame : Type := mkFrame {
  fr_message : string;
  fr_error_prefix : string;
  fr_index : nat;
  fr_disconnected : list WebSocket
}.

(** One trip of the loop, from fetching the next item to the end of its
    [try] statement; when the iterator is exhausted, the removal loop,
    which has no [await] in it.  [None] means the coroutine returned. *)
Definition broadcast_step (f : Frame) : M P (option Frame) :=
  fun w =>
    match nth_error (active_connections (manager w)) (fr_index f) with
    | Some connection =>
        try_except
          (send_text connection (fr_message f) ;;
           ret (Some {| fr_message := fr_message f;
                        fr_error_prefix := fr_error_prefix f;
                        fr_index := S (fr_index f);
                        fr_disconnected := fr_disconnected f |}))
          (fun e =>
             logger_error (fr_error_prefix f ++ text e) ;;
             ret (Some {| fr_message := fr_message f;
                          fr_error_prefix := fr_error_prefix f;
                          fr_index := S (fr_index f);
                          fr_disconnected := fr_disconnected f ++ [connection] |}))
          w
    | None =>
        (disconnect_all (fr_disconnected f) ;; ret None) w
    end.

Definition out_of_fuel : Exn := mkExn (KOther "OutOfFuel") "".

(** The loop run to its end with no other coroutine scheduled at its
    [await]s. *)
Fixpoint broadcast_run (fuel : nat) (f : Frame) : M P unit :=
  match fuel with
  | O => raise out_of_fuel
  | S fuel' =>
      r <- broadcast_step f ;;
      match r with
      | None => ret tt
      | Some f' => broadcast_run fuel' f'
      end
  end.

(** [broadcast_json] up to the start of its loop: [None] is the early
    [return] on an empty list. *)
Definition broadcast_json_begin (data : PyVal) : M P (option Frame) :=
  fun w =>
    match active_connections (manager w) with
    | [] => (Ok None, w)
    | _ :: _ =>
        (message <- lift_result (json_dumps P data) ;;
         ret (Some {| fr_message := message;
                      fr_error_prefix := "Error broadcasting to connection: ";
                      fr_index := 0;
                      fr_disconnected := [] |})) w
    end.

(** [broadcast_message] up to the start of its loop. *)
Definition broadcast_message_begin (message : string) : M P (option Frame) :=
  fun w =>
    match active_connections (manager w) with
    | [] => (Ok None, w)
    | _ :: _ =>
        (Ok (Some {| fr_message := message;
                     fr_error_prefix := "Error broadcasting message: ";
                     fr_index := 0;
                     fr_disconnected := [] |}), w)
    end.

(** The loop makes one trip per entry and one more, which finds the
    iterator exhausted. *)
Definition run_frame (o : option Frame) : M P unit :=
  fun w =>
    match o with
    | None => (Ok tt, w)
    | Some f => broadcast_run (S (List.length (active_connections (manager w)))) f w
    end.

(** [ConnectionManager.broadcast_json], run without interruption. *)
Definition broadcast_json (data : PyVal) : M P unit :=
  o <- broadcast_json_begin data ;; run_frame o.

(** [ConnectionManager.broadcast_message], run without interruption. *)
Definition broadcast_message (message : string) : M P unit :=
  o <- broadcast_message_begin message ;; run_frame o.

End Manager.

End WebsocketManager.
Import WebsocketManager.

(* ===================================================================== *)
(** ** Coroutines interleaved with a broadcast in flight *)
(* ===================================================================== *)

(** The event loop runs one coroutine at a time and switches only at an
    [await]. A broadcast awaits once per trip of its loop, in the send;
    whatever other coroutines do to the manager meanwhile is what the loop
    finds when it fetches its next item. [Resume] is one trip of the loop,
    [Register] a call of [connect] and [Unregister] a call of [disconnect]
    by another coroutine, such as the [websocket_endpoint] of a client that
    attaches or goes away. *)
Module Loop.

Inductive Action : Type :=
| Resume
| Register (websocket : WebSocket)
| Unregister (websocket : WebSocket).

Section Loop.

Variable P : Platform.

(** The world and the broadcast that is suspended in it, if any. *)
Record Sched : Type := mkSched {
  sc_world : World P;
  sc_task : option Frame
}.

Definition sched_step (a : Action) (s : Sched) : Sched :=
  match a with
  | Resume =>
      match sc_task s with
      | None => s
      | Some f =>
          match broadcast_step P f (sc_world s) with
          | (Ok o, w') => {| sc_world := w'; sc_task := o |}
          | (Raise _, w') => {| sc_world := w'; sc_task := None |}
          end
      end
  | Register websocket =>
      {| sc_world := snd (connect P websocket (sc_world s)); sc_task := sc_task s |}
  | Unregister websocket =>
      {| sc_world := snd (disconnect P websocket (sc_world s)); sc_task := sc_task s |}
  end.

Fixpoint sched_run (acts : list Action) (s : Sched) : Sched :=
  match acts with
  | [] => s
  | a :: rest => sched_run rest (sched_step a s)
  end.

(** A call of [broadcast_json] up to its first [await]. *)
Definition sched_begin (data : PyVal) (w : World P) : Sched :=
  match broadcast_json_begin P data w with
  | (Ok o, w') => {| sc_world := w'; sc_task := o |}
  | (Raise _, w') => {| sc_world := w'; sc_task := None |}
  end.

End Loop.

Arguments mkSched {P} _ _.
Arguments sc_world {P} _.
Arguments sc_task {P} _.

End Loop.

(* ===================================================================== *)
(** ** database.py *)
(* ===================================================================== *)

Module Db.

Definition AttributeError_None (attr : string) : Exn :=
  mkExn (KOther "AttributeError")
        ("'NoneType' object has no attribute '" ++ attr ++ "'").

Definition KeyError (k : string) : Exn :=
  mkExn (KOther "KeyError") ("'" ++ k ++ "'").

(** What [dict(row)] raises when [row] is [None]. *)
Definition TypeError_dict_None : Exn :=
  mkExn (KOther "TypeError") "'NoneType' object is not iterable".

Definition query_get_all_orders : string := "
            SELECT id, customer_name, product_name, status, updated_at 
            FROM orders 
            ORDER BY updated_at DESC
        ".

Definition query_create_order : string := "
            INSERT INTO orders (customer_name, product_name, status) 
            VALUES ($1, $2, $3) 
            RETURNING id, customer_name, product_name, status, updated_at
        ".

Definition query_update_order_head : string := "
            UPDATE orders 
            SET ".
Definition query_update_order_where : string := "
            WHERE id = $".
Definition query_update_order_tail : string := "
            RETURNING id, customer_name, product_name, status, updated_at
        ".

Definition query_delete_order : string := "
            DELETE FROM orders 
            WHERE id = $1 
            RETURNING id, customer_name, product_name, status, updated_at
        ".

Definition query_get_order_by_id : string := "
            SELECT id, customer_name, product_name, status, updated_at 
            FROM orders 
            WHERE id = $1
        ".

Section Db.

Variable P : Platform.

(** [v[k]] for a string key: a [dict] answers or raises [KeyError]; anything
    else raises the interpreter's [TypeError]. *)
Definition getitem (v : PyVal) (k : string) : Result PyVal :=
  match v with
  | PDict kvs =>
      match dict_get kvs k with
      | Some x => Ok x
      | None => Raise (KeyError k)
      end
  | _ => Raise (getitem_error P v k)
  end.

(** [self], for the methods that assign its attributes: the object that the
    global [db] of [main.py] names. *)
Definition self_db : M P Database :=
  fun w => match main_db w with
           | Some d => (Ok d, w)
           | None => (Raise (AttributeError_None "database_url"), w)
           end.

Definition set_pool (p : Pool) : M P unit :=
  d <- self_db ;;
  (fun w => (Ok tt, set_main_db (Some {| database_url := database_url d;
                                        pool := Some p;
                                        listener_connection := listener_connection d |}) w)).

Definition set_listener_connection (c : Connection) : M P unit :=
  d <- self_db ;;
  (fun w => (Ok tt, set_main_db (Some {| database_url := database_url d;
                                        pool := pool d;
                                        listener_connection := Some c |}) w)).

(** [Database.setup_notification_listener]. *)
Definition setup_notification_listener : M P unit :=
  try_except
    (self <- self_db ;;
     c <- extern (asyncpg_connect P (database_url self)) ;;
     set_listener_connection c ;;
     extern (add_listener P c "order_changes") ;;
     logger_info "Listening for order changes...")
    (fun e =>
       logger_error ("Error setting up notification listener: " ++ text e) ;;
       raise e).

(** [Database.initialize]. *)
Definition initialize : M P unit :=
  try_except
    (self <- self_db ;;
     p <- extern (asyncpg_create_pool P (database_url self) 2 10 60) ;;
     set_pool p ;;
     logger_info "Database connection pool created" ;;
     setup_notification_listener ;;
     logger_info "Database initialized successfully")
    (fun e =>
       logger_error ("Database initialization error: " ++ text e) ;;
       raise e).

(** [Database.handle_notification]; the arguments [connection], [pid] and
    [channel] are not used by the body. *)
Definition handle_notification (payload : string) : M P unit :=
  try_except
    (change_data <- lift_result (json_loads P payload) ;;
     operation <- lift_result (getitem change_data "operation") ;;
     logger_info ("Database change detected: " ++ py_str P operation) ;;
     broadcast_json P (PDict [("type", PStr "database_change");
                              ("data", change_data)]))
    (fun e => logger_error ("Error processing notification: " ++ text e)).

(** [async with self.pool.acquire() as connection]. *)
Definition acquire (self : Database) : M P Pool :=
  match pool self with
  | Some p => ret p
  | None => raise (AttributeError_None "acquire")
  end.

Definition fetch (p : Pool) (query : string) (values : list SqlValue) : M P (list PyVal) :=
  (fun w => (Ok tt, push_query (query, values) w)) ;;
  extern (pool_fetch P p query values).

Definition fetchrow (p : Pool) (query : string) (values : list SqlValue) : M P (option PyVal) :=
  (fun w => (Ok tt, push_query (query, values) w)) ;;
  extern (pool_fetchrow P p query values).

(** [Database.get_all_orders]. *)
Definition get_all_orders (self : Database) : M P (list PyVal) :=
  connection <- acquire self ;;
  fetch connection query_get_all_orders [].

(** [Database.create_order]. It ends in [return dict(row)], with no test of
    [row]: when the store hands back no row, [dict(None)] raises. *)
Definition create_order (self : Database) (order : OrderCreate) : M P PyVal :=
  connection <- acquire self ;;
  row <- fetchrow connection query_create_order
           [SqlStr (oc_customer_name order); SqlStr (oc_product_name order);
            SqlStatus (oc_status order)] ;;
  match row with
  | Some r => ret r
  | None => raise TypeError_dict_None
  end.

(** The three [if ... is not None] blocks of [update_order]: the state is
    [(update_fields, values, param_count)]. *)
Definition add_field {A : Type} (column : string) (inj : A -> SqlValue) (field : option A)
    (st : list string * list SqlValue * Z) : list string * list SqlValue * Z :=
  match field, st with
  | Some x, (update_fields, values, param_count) =>
      ((update_fields ++ [(column ++ " = $" ++ str_of_Z param_count)%string])%list,
       (values ++ [inj x])%list,
       (param_count + 1)%Z)
  | None, _ => st
  end.

(** [Database.update_order]. *)
Definition update_order (self : Database) (order_id : PyVal) (order_update : OrderUpdate)
    : M P (option PyVal) :=
  let st0 : list string * list SqlValue * Z := ([], [], 1%Z) in
  let st1 := add_field "customer_name" SqlStr (customer_name order_update) st0 in
  let st2 := add_field "product_name" SqlStr (product_name order_update) st1 in
  let st3 := add_field "status" SqlStatus (status order_update) st2 in
  match st3 with
  | ([], _, _) => ret None
  | (update_fields, values, param_count) =>
      let query := query_update_order_head ++ String.concat ", " update_fields
                   ++ query_update_order_where ++ str_of_Z param_count
                   ++ query_update_order_tail in
      let values := (values ++ [SqlPy order_id])%list in
      connection <- acquire self ;;
      fetchrow connection query values
  end.

(** [Database.delete_order]. *)
Definition delete_order (self : Database) (order_id : PyVal) : M P (option PyVal) :=
  connection <- acquire self ;;
  fetchrow connection query_delete_order [SqlPy order_id].

(** [Database.get_order_by_id]. *)
Definition get_order_by_id (self : Database) (order_id : PyVal) : M P (option PyVal) :=
  connection <- acquire self ;;
  fetchrow connection query_get_order_by_id [SqlPy order_id].

(** The store's channel handing payloads to the callback one after the
    other; a callback that raised would end the delivery. *)
Fixpoint deliver (payloads : list string) : M P unit :=
  match payloads with
  | [] => ret tt
  | payload :: rest => handle_notification payload ;; deliver rest
  end.

End Db.

End Db.

(* ===================================================================== *)
(** ** main.py *)
(* ===================================================================== *)

Module Main.

Definition HTTPException (status_code : Z) (detail : string) : Exn :=
  mkExn (KHTTPException status_code detail) (str_of_Z status_code ++ ": " ++ detail).

Definition ValueError (msg : string) : Exn := mkExn (KOther "ValueError") msg.

(** What becomes of the application once the start-up half of [lifespan]
    has run: it serves traffic only if that half reached its [yield]. *)
Inductive Phase : Type :=
| Serving
| StartupFailed (e : Exn).

(** Where a coroutine that is followed for a bounded number of steps has
    got to: still waiting at an [await], or returned to its caller. *)
Inductive Progress : Type :=
| Suspended
| Returned.

Section Main.

Variable P : Platform.

(** [db.method(...)] on the global [db], which is [None] until [lifespan]
    assigns it. *)
Definition with_db {A : Type} (method : string) (k : Database -> M P A) : M P A :=
  fun w => match main_db w with
           | Some d => k d w
           | None => (Raise (Db.AttributeError_None method), w)
           end.

(** [lifespan], up to its [yield]. *)
Definition lifespan_startup : M P unit :=
  database_url <- (fun w => (Ok (os_getenv P "DATABASE_URL" (net w)), w)) ;;
  match database_url with
  | None | Some EmptyString =>
      raise (ValueError "DATABASE_URL environment variable is required")
  | Some url =>
      (fun w => (Ok tt, set_main_db (Some (Database_init url)) w)) ;;
      Db.initialize P ;;
      logger_info "Application started"
  end.

Definition start (w : World P) : Phase * World P :=
  match lifespan_startup w with
  | (Ok _, w') => (Serving, w')
  | (Raise e, w') => (StartupFailed e, w')
  end.

(** [data.get(k, default)]. *)
Definition dict_get_or (data : PyVal) (k : string) (default : PyVal) : Result PyVal :=
  match data with
  | PDict kvs =>
      Ok (match dict_get kvs k with Some v => v | None => default end)
  | _ => Raise (getattr_error P data "get")
  end.

(** [v == s] for a string literal [s]. *)
Definition is_str (v : PyVal) (s : string) : bool :=
  match v with
  | PStr t => String.eqb t s
  | _ => false
  end.

Definition error_message (prefix : string) (e : Exn) : PyVal :=
  PDict [("type", PStr "error"); ("message", PStr (prefix ++ text e))].

Definition initial_data (orders : list PyVal) : PyVal :=
  PDict [("type", PStr "initial_data"); ("data", PList orders)].

(** The bodies of the three [try] statements of the receive loop. *)
Definition create_order_request (data : PyVal) : M P unit :=
  order_data <- lift_result (dict_get_or data "data" (PDict [])) ;;
  order <- lift_result (OrderCreate_init P order_data) ;;
  _ <- with_db "create_order" (fun d => Db.create_order P d order) ;;
  ret tt.

Definition update_order_request (data : PyVal) : M P unit :=
  order_id <- lift_result (dict_get_or data "id" PNone) ;;
  updates <- lift_result (dict_get_or data "updates" (PDict [])) ;;
  order_update <- lift_result (OrderUpdate_init P updates) ;;
  _ <- with_db "update_order" (fun d => Db.update_order P d order_id order_update) ;;
  ret tt.

Definition delete_order_request (data : PyVal) : M P unit :=
  order_id <- lift_result (dict_get_or data "id" PNone) ;;
  _ <- with_db "delete_order" (fun d => Db.delete_order P d order_id) ;;
  ret tt.

(** One trip of [while True] in [websocket_endpoint], after the receive. *)
Definition on_message (websocket : WebSocket) (data : PyVal) : M P unit :=
  message_type <- lift_result (dict_get_or data "type" PNone) ;;
  if is_str message_type "create_order" then
    try_except
      (create_order_request data)
      (fun e => send_json_personal P (error_message "Failed to create order: " e) websocket)
  else if is_str message_type "update_order" then
    try_except
      (update_order_request data)
      (fun e => send_json_personal P (error_message "Failed to update order: " e) websocket)
  else if is_str message_type "delete_order" then
    try_except
      (delete_order_request data)
      (fun e => send_json_personal P (error_message "Failed to delete order: " e) websocket)
  else ret tt.

(** [while True] has no [break] and no [return] in it: the loop is left
    only by an exception.  Followed for [n] messages, it has either raised
    or is [Suspended] in its next [receive_json]; it never answers
    [Returned]. *)
Fixpoint receive_loop (n : nat) (websocket : WebSocket) : M P Progress :=
  match n with
  | O => ret Suspended
  | S n' =>
      data <- extern (ws_receive_json P websocket) ;;
      on_message websocket data ;;
      receive_loop n' websocket
  end.

(** [websocket_endpoint], followed for [n] client messages: the coroutine
    has [Returned] once one of its [except] clauses has run. *)
Definition websocket_endpoint (n : nat) (websocket : WebSocket) : M P Progress :=
  connect P websocket ;;
  try_except
    (orders <- with_db "get_all_orders" (Db.get_all_orders P) ;;
     send_json_personal P (initial_data orders) websocket ;;
     receive_loop n websocket)
    (fun e =>
       match kind e with
       | KWebSocketDisconnect => disconnect P websocket ;; ret Returned
       | _ => logger_error ("WebSocket error: " ++ text e) ;;
              disconnect P websocket ;; ret Returned
       end).

(** [PUT /api/orders/{order_id}]: a raised [HTTPException] is the response
    with that status and detail. *)
Definition update_order (order_id : Z) (order_update : OrderUpdate) : M P PyVal :=
  try_except
    (updated_order <- with_db "update_order"
                        (fun database => Db.update_order P database (PInt order_id) order_update) ;;
     match updated_order with
     | Some row =>
         if truthy updated_order then ret row
         else raise (HTTPException 404 "Order not found")
     | None => raise (HTTPException 404 "Order not found")
     end)
    (fun e =>
       match kind e with
       | KHTTPException _ _ => raise e
       | _ => logger_error ("Error updating order: " ++ text e) ;;
              raise (HTTPException 500 "Failed to update order")
       end).

(** [GET /api/health]. *)
Definition health_check (w : World P) : PyVal :=
  PDict [("status", PStr "healthy");
         ("connected_clients", PInt (connection_count (manager w)));
         ("database", PStr (match main_db w with
                            | Some _ => "connected"
                            | None => "disconnected"
                            end))].

End Main.

End Main.

(* ===================================================================== *)
(** ** The import graph of the four modules *)
(* ===================================================================== *)

Module Imports.

(** The statements at the top level of a module that bind or look up a
    name: [import m], [from m import a, b], and a [class], [def] or
    assignment, which binds its name. *)
Inductive Stmt : Type :=
| SImport (module : string)
| SFromImport (module : string) (names : list string)
| SBind (name : string).

Definition models_py : list Stmt :=
  [ SFromImport "pydantic" ["BaseModel"];
    SFromImport "typing" ["Optional"];
    SFromImport "datetime" ["datetime"];
    SFromImport "enum" ["Enum"];
    SBind "OrderStatus";
    SBind "OrderBase";
    SBind "OrderCreate";
    SBind "OrderUpdate";
    SBind "Order";
    SBind "DatabaseChangE" ].

Definition websocket_manager_py : list Stmt :=
  [ SImport "json";
    SImport "asyncio";
    SFromImport "typing" ["List"; "Dict"; "Any"];
    SFromImport "fastapi" ["WebSocket"; "WebSocketDisconnect"];
    SImport "logging";
    SBind "logger";
    SBind "ConnectionManager";
    SBind "manager" ].

Definition database_py : list Stmt :=
  [ SImport "asyncio";
    SImport "asyncpg";
    SImport "json";
    SImport "logging";
    SFromImport "typing" ["List"; "Optional"; "Dict"; "Any"];
    SFromImport "datetime" ["datetime"];
    SFromImport "models" ["Order"; "OrderCreate"; "OrderUpdate"; "DatabaseChange"];
    SFromImport "websocket_manager" ["manager"];
    SBind "logger";
    SBind "Database";
    SBind "db";
    SBind "get_database" ].

Definition main_py : list Stmt :=
  [ SImport "os";
    SImport "json";
    SImport "asyncio";
    SImport "logging";
    SFromImport "contextlib" ["asynccontextmanager"];
    SFromImport "fastapi" ["FastAPI"; "HTTPException"; "WebSocket";
                           "WebSocketDisconnect"; "Depends"];
    SFromImport "fastapi.staticfiles" ["StaticFiles"];
    SFromImport "fastapi.responses" ["HTMLResponse"];
    SFromImport "typing" ["List"];
    SFromImport "dotenv" ["load_dotenv"];
    SFromImport "models" ["Order"; "OrderCreate"; "OrderUpdate"];
    SFromImport "database" ["Database"; "get_database"];
    SFromImport "websocket_manager" ["manager"];
    SBind "logger";
    SBind "db";
    SBind "lifespan";
    SBind "app";
    SBind "get_db";
    SBind "websocket_endpoint";
    SBind "get_client";
    SBind "get_orders";
    SBind "create_order";
    SBind "get_order";
    SBind "update_order";
    SBind "delete_order";
    SBind "health_check" ].

(** The modules of the repository; any other module is installed software
    that exports what is asked of it. *)
Definition source (module : string) : option (list Stmt) :=
  if String.eqb module "models" then Some models_py
  else if String.eqb module "websocket_manager" then Some websocket_manager_py
  else if String.eqb module "database" then Some database_py
  else if String.eqb module "main" then Some main_py
  else None.

Definition Namespace : Type := list string.
Definition SysModules : Type := list (string * Namespace).

Fixpoint find_module (module : string) (sm : SysModules) : option Namespace :=
  match sm with
  | [] => None
  | (m, ns) :: rest => if String.eqb module m then Some ns else find_module module rest
  end.

Definition bound (name : string) (ns : Namespace) : bool :=
  existsb (String.eqb name) ns.

(** The first of [names] that [ns] does not bind. *)
Fixpoint first_missing (names : list string) (ns : Namespace) : option string :=
  match names with
  | [] => None
  | n :: rest => if bound n ns then first_missing rest ns else Some n
  end.

(** The interpreter's message goes on with the path of the module's file. *)
Definition ImportError (name module : string) : Exn :=
  mkExn (KOther "ImportError")
        ("cannot import name '" ++ name ++ "' from '" ++ module ++ "'").

Definition RecursionError : Exn := mkExn (KOther "RecursionError") "".

(** Importing a module runs its statements in order, importing in turn what
    they name unless [sys.modules] has it; the module enters [sys.modules]
    when its body has run to the end. [depth] bounds the nesting. *)
Fixpoint import_module (depth : nat) (module : string) (sm : SysModules)
    : Result Namespace * SysModules :=
  match depth with
  | O => (Raise RecursionError, sm)
  | S depth' =>
      match find_module module sm with
      | Some ns => (Ok ns, sm)
      | None =>
          match source module with
          | None => (Ok [], sm)
          | Some body =>
              (fix exec (body : list Stmt) (ns : Namespace) (sm : SysModules)
                 : Result Namespace * SysModules :=
                 match body with
                 | [] => (Ok ns, (module, ns) :: sm)
                 | SBind name :: rest => exec rest (ns ++ [name])%list sm
                 | SImport m :: rest =>
                     match source m with
                     | None => exec rest (ns ++ [m])%list sm
                     | Some _ =>
                         match import_module depth' m sm with
                         | (Ok _, sm') => exec rest (ns ++ [m])%list sm'
                         | (Raise e, sm') => (Raise e, sm')
                         end
                     end
                 | SFromImport m names :: rest =>
                     match source m with
                     | None => exec rest (ns ++ names)%list sm
                     | Some _ =>
                         match import_module depth' m sm with
                         | (Ok exported, sm') =>
                             match first_missing names exported with
                             | Some name => (Raise (ImportError name m), sm')
                             | None => exec rest (ns ++ names)%list sm'
                             end
                         | (Raise e, sm') => (Raise e, sm')
                         end
                     end
                 end) body [] sm
          end
      end
  end.

End Imports.

(* ===================================================================== *)
(** ** The process, and what happens to it *)
(* ===================================================================== *)

Module App.

(** The calls on the manager. *)
Inductive Op : Type :=
| OpConnect (websocket : WebSocket)
| OpDisconnect (websocket : WebSocket)
| OpSendJsonPersonal (data : PyVal) (websocket : WebSocket)
| OpBroadcastJson (data : PyVal).


(** How the server process ends up: [main] failed to import, or its
    lifespan ran. *)
Inductive Boot : Type :=
| ImportFailed (e : Exn)
| Imported (phase : Main.Phase).

Section App.

Variable P : Platform.

Definition run_op (op : Op) : M P unit :=
  match op with
  | OpConnect websocket => connect P websocket
  | OpDisconnect websocket => disconnect P websocket
  | OpSendJsonPersonal data websocket => send_json_personal P data websocket
  | OpBroadcastJson data => broadcast_json P data
  end.

(** A caller that goes on after a call that raised. *)
Fixpoint run_ops (ops : list Op) (w : World P) : World P :=
  match ops with
  | [] => w
  | op :: rest => run_ops rest (snd (run_op op w))
  end.



(** [uvicorn.run("main:app", ...)]: import [main], then run the lifespan. *)
Definition boot (w : World P) : Boot * World P :=
  match Imports.import_module 8 "main" [] with
  | (Raise e, _) => (ImportFailed e, w)
  | (Ok _, _) => let (phase, w') := Main.start P w in (Imported phase, w')
  end.

End App.

End App.

(* ===================================================================== *)
(** ** main.py: the other REST endpoints *)
(* ===================================================================== *)

Module Rest.

(** A request on the REST surface, with its path and body parsed. *)
Inductive Request : Type :=
| GetOrders
| PostOrder (order : OrderCreate)
| GetOrder (order_id : Z)
| PutOrder (order_id : Z) (order_update : OrderUpdate)
| DeleteOrder (order_id : Z).

Section Rest.

Variable P : Platform.

(** [GET /api/orders]. *)
Definition get_orders : M P PyVal :=
  try_except
    (orders <- Main.with_db P "get_all_orders" (Db.get_all_orders P) ;;
     ret (PList orders))
    (fun e =>
       logger_error ("Error fetching orders: " ++ text e) ;;
       raise (Main.HTTPException 500 "Failed to fetch orders")).

(** [POST /api/orders]. *)
Definition create_order (order : OrderCreate) : M P PyVal :=
  try_except
    (Main.with_db P "create_order" (fun database => Db.create_order P database order))
    (fun e =>
       logger_error ("Error creating order: " ++ text e) ;;
       raise (Main.HTTPException 500 "Failed to create order")).

(** [GET /api/orders/{order_id}]. *)
Definition get_order (order_id : Z) : M P PyVal :=
  try_except
    (order <- Main.with_db P "get_order_by_id"
                (fun database => Db.get_order_by_id P database (PInt order_id)) ;;
     match order with
     | Some row =>
         if truthy order then ret row
         else raise (Main.HTTPException 404 "Order not found")
     | None => raise (Main.HTTPException 404 "Order not found")
     end)
    (fun e =>
       match kind e with
       | KHTTPException _ _ => raise e
       | _ => logger_error ("Error fetching order: " ++ text e) ;;
              raise (Main.HTTPException 500 "Failed to fetch order")
       end).

(** [DELETE /api/orders/{order_id}]. *)
Definition delete_order (order_id : Z) : M P PyVal :=
  try_except
    (deleted_order <- Main.with_db P "delete_order"
                        (fun database => Db.delete_order P database (PInt order_id)) ;;
     match deleted_order with
     | Some row =>
         if truthy deleted_order
         then ret (PDict [("message", PStr "Order deleted successfully");
                          ("order", row)])
         else raise (Main.HTTPException 404 "Order not found")
     | None => raise (Main.HTTPException 404 "Order not found")
     end)
    (fun e =>
       match kind e with
       | KHTTPException _ _ => raise e
       | _ => logger_error ("Error deleting order: " ++ text e) ;;
              raise (Main.HTTPException 500 "Failed to delete order")
       end).

(** The router: each request to its endpoint. *)
Definition serve (req : Request) : M P PyVal :=
  match req with
  | GetOrders => get_orders
  | PostOrder order => create_order order
  | GetOrder order_id => get_order order_id
  | PutOrder order_id order_update => Main.update_order P order_id order_update
  | DeleteOrder order_id => delete_order order_id
  end.

End Rest.

End Rest.

(* ===================================================================== *)
(** ** Shutdown: [Database.close] and the second half of [lifespan] *)
(* ===================================================================== *)

Module Shutdown.

Section Shutdown.

Variable P : Platform.

(** [await connection.close()] and [await pool.close()] of asyncpg. *)
Variable connection_close : Connection -> Net P -> Result unit * Net P.
Variable pool_close : Pool -> Net P -> Result unit * Net P.

(** [Database.close]. [listening_task] is [None] from [__init__] on, so its
    [if] never runs. *)
Definition close (self : Database) : M P unit :=
  match listener_connection self with
  | Some c => extern (connection_close c)
  | None => ret tt
  end ;;
  match pool self with
  | Some p => extern (pool_close p)
  | None => ret tt
  end ;;
  logger_info "Database connections closed".

(** [lifespan], after its [yield]. *)
Definition lifespan_shutdown : M P unit :=
  Main.with_db P "close" close ;;
  logger_info "Application shutdown".

End Shutdown.

End Shutdown.

(* ===================================================================== *)
(** ** A small platform to run the code on *)
(* ===================================================================== *)

(** Sockets that are open or closed, a store that is up or down and answers
    every row query with its first row, clients whose messages wait in an
    inbox. The theorems below hold on every platform; this one runs them. *)
Module Sim.

Record SimNet : Type := mkSimNet {
  closed : list WebSocket;
  refuse_accept : list WebSocket;
  store_up : bool;
  channel_up : bool;
  rows : list PyVal;
  inbox : list PyVal;
  env_url : option string
}.

Definition dq : string := String (ascii_of_nat 34) EmptyString.

Fixpoint json_able (v : PyVal) : bool :=
  match v with
  | PDatetime _ => false
  | PList items =>
      (fix all (l : list PyVal) : bool :=
         match l with
         | [] => true
         | x :: r => json_able x && all r
         end) items
  | PDict kvs =>
      (fix all (l : list (string * PyVal)) : bool :=
         match l with
         | [] => true
         | (_, x) :: r => json_able x && all r
         end) kvs
  | _ => true
  end.

Fixpoint render (v : PyVal) : string :=
  match v with
  | PNone => "null"
  | PBool true => "true"
  | PBool false => "false"
  | PInt z => str_of_Z z
  | PFloat r => r
  | PStr s => dq ++ s ++ dq
  | PDatetime iso => iso
  | PList items =>
      "[" ++ (fix go (l : list PyVal) : string :=
                match l with
                | [] => ""
                | [x] => render x
                | x :: r => render x ++ ", " ++ go r
                end) items ++ "]"
  | PDict kvs =>
      "{" ++ (fix go (l : list (string * PyVal)) : string :=
                match l with
                | [] => ""
                | [(k, x)] => dq ++ k ++ dq ++ ": " ++ render x
                | (k, x) :: r => dq ++ k ++ dq ++ ": " ++ render x ++ ", " ++ go r
                end) kvs ++ "}"
  end.

Definition error (cls msg : string) : Exn := mkExn (KOther cls) msg.

Definition socket_closed : Exn := mkExn KWebSocketDisconnect "".

Definition sim_send (ws : WebSocket) (n : SimNet) : Result unit * SimNet :=
  if contains ws (closed n) then (Raise socket_closed, n) else (Ok tt, n).

Definition sim_accept (ws : WebSocket) (n : SimNet) : Result unit * SimNet :=
  if contains ws (refuse_accept n)
  then (Raise (error "RuntimeError" "cannot accept"), n)
  else (Ok tt, n).

Definition sim_receive (ws : WebSocket) (n : SimNet) : Result PyVal * SimNet :=
  match inbox n with
  | [] => (Raise socket_closed, n)
  | m :: rest =>
      (Ok m, {| closed := closed n; refuse_accept := refuse_accept n;
                store_up := store_up n; channel_up := channel_up n;
                rows := rows n; inbox := rest; env_url := env_url n |})
  end.

(** A change event as the store's trigger publishes it. *)
Definition change_update : PyVal :=
  PDict [("operation", PStr "UPDATE");
         ("data", PDict [("id", PInt 1); ("status", PStr "shipped")])].

(** A decoder that knows one well-formed payload and one JSON text that is
    no object; every other text is not JSON to it. *)
Definition sim_loads (s : string) : Result PyVal :=
  if String.eqb s (render change_update) then Ok change_update
  else if String.eqb s "[]" then Ok (PList [])
  else if String.eqb s "{}" then Ok (PDict [])
  else Raise (error "JSONDecodeError" "Expecting value: line 1 column 1 (char 0)").

Definition sim_dumps (v : PyVal) : Result string :=
  if json_able v then Ok (render v)
  else Raise (error "TypeError" "Object of type datetime is not JSON serializable").

(** Starlette's [send_json] is [json.dumps] and then a send of the text:
    data that does not serialise raises before anything reaches the
    socket. *)
Definition sim_send_json (ws : WebSocket) (data : PyVal) (n : SimNet)
    : Result unit * SimNet :=
  match sim_dumps data with
  | Ok _ => sim_send ws n
  | Raise e => (Raise e, n)
  end.

Definition sim_connect {A : Type} (handle : A) (n : SimNet) : Result A * SimNet :=
  if store_up n then (Ok handle, n)
  else (Raise (error "OSError" "connection refused"), n).

Definition sim_add_listener (c : Connection) (channel : string) (n : SimNet)
    : Result unit * SimNet :=
  if channel_up n then (Ok tt, n)
  else (Raise (error "InterfaceError" "cannot add listener"), n).

Definition field_str (kvs : list (string * PyVal)) (k : string) : Result (option string) :=
  match dict_get kvs k with
  | None => Ok None
  | Some (PStr s) => Ok (Some s)
  | Some _ => Raise (error "ValidationError" k)
  end.

Definition sim_OrderCreate (v : PyVal) : Result OrderCreate :=
  match v with
  | PDict kvs =>
      match field_str kvs "customer_name", field_str kvs "product_name" with
      | Ok (Some c), Ok (Some p) =>
          Ok {| oc_customer_name := c; oc_product_name := p; oc_status := PENDING |}
      | _, _ => Raise (error "ValidationError" "field required")
      end
  | _ => Raise (error "TypeError" "argument after ** must be a mapping")
  end.

Definition sim_OrderUpdate (v : PyVal) : Result OrderUpdate :=
  match v with
  | PDict kvs =>
      match field_str kvs "customer_name", field_str kvs "product_name" with
      | Ok c, Ok p => Ok {| customer_name := c; product_name := p; status := None |}
      | _, _ => Raise (error "ValidationError" "str type expected")
      end
  | _ => Raise (error "TypeError" "argument after ** must be a mapping")
  end.

Definition platform : Platform :=
  {| Net := SimNet;
     ws_accept := sim_accept;
     ws_send_text := fun ws _ => sim_send ws;
     ws_send_json := sim_send_json;
     ws_receive_json := sim_receive;
     json_loads := sim_loads;
     json_dumps := sim_dumps;
     py_str := fun v => match v with PStr s => s | _ => render v end;
     getitem_error := fun _ _ => error "TypeError" "object is not subscriptable";
     getattr_error := fun _ attr => error "AttributeError" attr;
     os_getenv := fun k n => if String.eqb k "DATABASE_URL" then env_url n else None;
     asyncpg_create_pool := fun _ _ _ _ => sim_connect 1;
     asyncpg_connect := fun _ => sim_connect 2;
     add_listener := sim_add_listener;
     pool_fetch := fun _ _ _ n => (Ok (rows n), n);
     pool_fetchrow := fun _ _ _ n => (Ok (hd_error (rows n)), n);
     OrderCreate_init := sim_OrderCreate;
     OrderUpdate_init := sim_OrderUpdate |}.

Definition quiet : SimNet :=
  {| closed := []; refuse_accept := []; store_up := true; channel_up := true;
     rows := []; inbox := []; env_url := Some "postgresql://localhost/orders" |}.

(** The quiet world, but for sockets that have been closed. *)
Definition with_closed (l : list WebSocket) : SimNet :=
  {| closed := l; refuse_accept := []; store_up := true; channel_up := true;
     rows := []; inbox := []; env_url := Some "postgresql://localhost/orders" |}.

(** The world of a process that has just imported its modules. *)
Definition fresh (n : SimNet) : World platform :=
  @mkWorld platform n ConnectionManager_init None [] [] [].

(** The same, with the given connections registered. *)
Definition with_connections (l : list WebSocket) (n : SimNet) : World platform :=
  @mkWorld platform n
    {| active_connections := l; connection_count := Z.of_nat (List.length l) |}
    None [] [] [].

End Sim.

(** Closing on the small platform: a handle that was not opened cannot be
    closed; closing takes the store down. *)
Module SimShutdown.

Definition sim_connection_close (c : Connection) (n : Sim.SimNet)
    : Result unit * Sim.SimNet :=
  if Nat.eqb c 2 then (Ok tt, n)
  else (Raise (Sim.error "InterfaceError" "connection is closed"), n).

Definition sim_pool_close (p : Pool) (n : Sim.SimNet) : Result unit * Sim.SimNet :=
  if Nat.eqb p 1
  then (Ok tt, {| Sim.closed := Sim.closed n; Sim.refuse_accept := Sim.refuse_accept n;
                  Sim.store_up := false; Sim.channel_up := Sim.channel_up n;
                  Sim.rows := Sim.rows n; Sim.inbox := Sim.inbox n;
                  Sim.env_url := Sim.env_url n |})
  else (Raise (Sim.error "InterfaceError" "pool is closed"), n).

(** A store that holds the given rows, and clients that will send the
    given messages. *)
Definition with_rows (rs inbox : list PyVal) : Sim.SimNet :=
  {| Sim.closed := []; Sim.refuse_accept := []; Sim.store_up := true;
     Sim.channel_up := true; Sim.rows := rs; Sim.inbox := inbox;
     Sim.env_url := Some "postgresql://localhost/orders" |}.

(** A world whose sockets refuse the handshake of the given handles. *)
Definition refusing (l : list WebSocket) : Sim.SimNet :=
  {| Sim.closed := []; Sim.refuse_accept := l; Sim.store_up := true;
     Sim.channel_up := true; Sim.rows := []; Sim.inbox := [];
     Sim.env_url := Some "postgresql://localhost/orders" |}.

(** A process environment without [DATABASE_URL]. *)
Definition no_url : Sim.SimNet :=
  {| Sim.closed := []; Sim.refuse_accept := []; Sim.store_up := true;
     Sim.channel_up := true; Sim.rows := []; Sim.inbox := []; Sim.env_url := None |}.

(** The world once [lifespan] has reached its [yield] on the given net. *)
Definition serving (n : Sim.SimNet) : World Sim.platform :=
  snd (Main.start Sim.platform (Sim.fresh n)).

End SimShutdown.

(* ===================================================================== *)
(** ** Vocabulary of the statements *)
(* ===================================================================== *)

(** What a coroutine put on the wire when run on [w]. *)
Definition sent_by {P : Platform} {A : Type} (m : M P A) (w : World P) : list Wire :=
  skipn (List.length (wire w)) (wire (snd (m w))).

Definition wire_delivered (x : Wire) : bool :=
  match x with WText _ _ b => b | WJson _ _ b => b end.

(** The connections whose send raised, in the order of the sends. *)
Definition failed_of (sends : list Wire) : list WebSocket :=
  map wire_ws (filter (fun x => negb (wire_delivered x)) sends).

(** [l] after [l.remove(x)] guarded by [x in l]. *)
Definition remove_first (x : WebSocket) (l : list WebSocket) : list WebSocket :=
  match list_remove x l with
  | Some l' => l'
  | None => l
  end.

(** [l] after the guarded removal of each of [d] in turn. *)
Definition drop_all (d l : list WebSocket) : list WebSocket :=
  fold_left (fun acc x => remove_first x acc) d l.

Definition registry {P : Platform} (w : World P) : list WebSocket :=
  active_connections (manager w).

(** By how much the counter is ahead of the list. *)
Definition balance {P : Platform} (w : World P) : Z :=
  connection_count (manager w) - Z.of_nat (List.length (registry w)).

(** The loop of a broadcast over a list that nothing changes while it runs:
    the accumulator is [disconnected]. *)
Fixpoint broadcast_over (P : Platform) (message prefix : string)
    (conns disconnected : list WebSocket) : M P (list WebSocket) :=
  match conns with
  | [] => ret disconnected
  | connection :: rest =>
      d <- try_except
             (send_text connection message ;; ret disconnected)
             (fun e => logger_error (prefix ++ text e) ;;
                       ret (disconnected ++ [connection])%list) ;;
      broadcast_over P message prefix rest d
  end.

(** No [connect] of [c] among the calls. *)
Fixpoint never_connects (c : WebSocket) (ops : list App.Op) : bool :=
  match ops with
  | [] => true
  | App.OpConnect c' :: rest => negb (Nat.eqb c c') && never_connects c rest
  | _ :: rest => never_connects c rest
  end.

(** [c] is out of the registry and out of the recipients of every later
    uninterrupted broadcast, whatever is called in between, short of a new
    [connect] of [c]. *)
Definition gone_until_reconnect {P : Platform} (c : WebSocket) (w : World P) : Prop :=
  forall (ops : list App.Op) (data : PyVal),
    never_connects c ops = true ->
    let w2 := App.run_ops P ops w in
    ~ In c (registry w2)
    /\ ~ In c (map wire_ws (sent_by (broadcast_json P data) w2)).

(** No [disconnect] by another coroutine among the actions. *)
Fixpoint no_unregister (acts : list Loop.Action) : bool :=
  match acts with
  | [] => true
  | Loop.Unregister _ :: _ => false
  | _ :: rest => no_unregister rest
  end.

(** How often the actions resume the broadcast. *)
Fixpoint resumes (acts : list Loop.Action) : nat :=
  match acts with
  | [] => 0
  | Loop.Resume :: rest => S (resumes rest)
  | _ :: rest => resumes rest
  end.

(** How many calls of [connect] are among the actions. *)
Fixpoint registers (acts : list Loop.Action) : nat :=
  match acts with
  | [] => 0
  | Loop.Register _ :: rest => S (registers rest)
  | _ :: rest => registers rest
  end.

(** Every [connect] among the calls is of a handle that the registry does
    not hold at that moment. *)
Fixpoint connects_fresh {P : Platform} (ops : list App.Op) (w : World P) : Prop :=
  match ops with
  | [] => True
  | op :: rest =>
      match op with
      | App.OpConnect c => ~ In c (registry w)
      | _ => True
      end /\ connects_fresh rest (snd (App.run_op P op w))
  end.


(** All that [m] puts on the wire, on any world, satisfies [Q]. *)
Definition emits {P : Platform} {A : Type} (Q : Wire -> Prop) (m : M P A) : Prop :=
  forall w : World P,
    exists sends, wire (snd (m w)) = (wire w ++ sends)%list /\ Forall Q sends.

(** [m] puts nothing on the wire. *)
Definition silent {P : Platform} {A : Type} (m : M P A) : Prop :=
  forall w : World P, wire (snd (m w)) = wire w.

(** What a session on [ws] may send: the initial state or an error, as
    JSON, to [ws] itself. *)
Definition session_shape (ws : WebSocket) (x : Wire) : Prop :=
  exists b,
    (exists orders, x = WJson ws (PDict [("type", PStr "initial_data");
                                         ("data", PList orders)]) b)
    \/ (exists s, x = WJson ws (PDict [("type", PStr "error"); ("message", PStr s)]) b).


(** A client request that the endpoint rejects: a message of one of the
    three known types whose handling raises [e]; [prefix] is the text the
    endpoint puts before [str(e)]. *)
Definition rejected (P : Platform) (data : PyVal) (w : World P)
    (prefix : string) (e : Exn) : Prop :=
  exists message_type,
    Main.dict_get_or P data "type" PNone = Ok message_type
    /\ ((Main.is_str message_type "create_order" = true
         /\ prefix = "Failed to create order: "
         /\ fst (Main.create_order_request P data w) = Raise e)
        \/ (Main.is_str message_type "update_order" = true
            /\ prefix = "Failed to update order: "
            /\ fst (Main.update_order_request P data w) = Raise e)
        \/ (Main.is_str message_type "delete_order" = true
            /\ prefix = "Failed to delete order: "
            /\ fst (Main.delete_order_request P data w) = Raise e)).

(** A payload that the listener cannot decode: [json.loads] raises on it, or
    the value it gives has no ['operation'] to subscript. *)
Definition malformed (P : Platform) (payload : string) : Prop :=
  (exists e, json_loads P payload = Raise e)
  \/ (exists v e, json_loads P payload = Ok v /\ Db.getitem P v "operation" = Raise e).

(** A payload that decodes to [change_data] and whose message is
    [message]. *)
Definition well_formed (P : Platform) (payload : string) (change_data : PyVal)
    (message : string) : Prop :=
  json_loads P payload = Ok change_data
  /\ (exists operation, Db.getitem P change_data "operation" = Ok operation)
  /\ json_dumps P (PDict [("type", PStr "database_change"); ("data", change_data)])
     = Ok message.

(** The store cannot be reached or the channel cannot be registered: the
    pool, the listener's own connection or [add_listener] raises [e]. *)
Definition startup_blocked (P : Platform) (url : string) (n : Net P) (e : Exn) : Prop :=
  fst (asyncpg_create_pool P url 2 10 60 n) = Raise e
  \/ (exists p, fst (asyncpg_create_pool P url 2 10 60 n) = Ok p
        /\ let n1 := snd (asyncpg_create_pool P url 2 10 60 n) in
           fst (asyncpg_connect P url n1) = Raise e
           \/ (exists c, fst (asyncpg_connect P url n1) = Ok c
                 /\ fst (add_listener P c "order_changes" (snd (asyncpg_connect P url n1)))
                    = Raise e)).

Definition empty_update : OrderUpdate :=
  {| customer_name := None; product_name := None; status := None |}.

(** [m] takes every world to one related to it by [R]. *)
Definition steps {P : Platform} {A : Type} (R : World P -> World P -> Prop)
    (m : M P A) : Prop :=
  forall w : World P, R w (snd (m w)).

(** The registry without the entries of [ws]. *)
Definition others (ws : WebSocket) (l : list WebSocket) : list WebSocket :=
  filter (fun c => negb (Nat.eqb c ws)) l.

(** What a session of [ws] may do to the manager: leave the entries of the
    other connections as they are, add no entry of [ws], keep the counter in
    step with the list. *)
Definition session_step {P : Platform} (ws : WebSocket) (w w' : World P) : Prop :=
  others ws (registry w') = others ws (registry w)
  /\ count_occ Nat.eq_dec (registry w') ws <= count_occ Nat.eq_dec (registry w) ws
  /\ balance w' = balance w.

(** The [try] block of [websocket_endpoint]. *)
Definition session_body (P : Platform) (n : nat) (ws : WebSocket) : M P Main.Progress :=
  orders <- Main.with_db P "get_all_orders" (Db.get_all_orders P) ;;
  send_json_personal P (Main.initial_data orders) ws ;;
  Main.receive_loop P n ws.

(** The two [except] clauses of [websocket_endpoint]: both unregister the
    connection, and the coroutine returns. *)
Definition session_except (P : Platform) (ws : WebSocket) (e : Exn)
    : M P Main.Progress :=
  match kind e with
  | KWebSocketDisconnect => disconnect P ws ;; ret Main.Returned
  | _ => logger_error ("WebSocket error: " ++ text e) ;;
         disconnect P ws ;; ret Main.Returned
  end.

(** The whole [try] statement of [websocket_endpoint]. *)
Definition session_guard (P : Platform) (n : nat) (ws : WebSocket)
    : M P Main.Progress :=
  try_except (session_body P n ws) (session_except P ws).

(** The push side of the world, manager and wire, and the [db] global are
    in [w'] as in [w]. *)
Definition untouched {P : Platform} (w w' : World P) : Prop :=
  manager w' = manager w /\ wire w' = wire w /\ main_db w' = main_db w.

(** [e] is an [HTTPException]: the framework turns it into a response. *)
Definition is_http (e : Exn) : Prop :=
  match kind e with
  | KHTTPException _ _ => True
  | _ => False
  end.

(** The fields of an update that are set, as column and value, in the order
    in which [update_order] looks at them. *)
Definition set_fields (u : OrderUpdate) : list (string * SqlValue) :=
  (match customer_name u with Some v => [("customer_name", SqlStr v)] | None => [] end
   ++ match product_name u with Some v => [("product_name", SqlStr v)] | None => [] end
   ++ match status u with Some v => [("status", SqlStatus v)] | None => [] end)%list.

(** [column = $i] for each column, numbered from [i] on. *)
Fixpoint assignments (i : Z) (columns : list string) : list string :=
  match columns with
  | [] => []
  | column :: rest => (column ++ " = $" ++ str_of_Z i) :: assignments (i + 1) rest
  end.

(** The statement that [update_order] builds for the given set fields. *)
Definition update_statement (fields : list (string * SqlValue)) : string :=
  Db.query_update_order_head
  ++ String.concat ", " (assignments 1 (map fst fields))
  ++ Db.query_update_order_where
  ++ str_of_Z (Z.of_nat (List.length fields) + 1)
  ++ Db.query_update_order_tail.

(** [data.get(k, default)] on a [dict]. *)
Definition field (data : PyVal) (k : string) (default : PyVal) : PyVal :=
  match data with
  | PDict kvs => match dict_get kvs k with Some v => v | None => default end
  | _ => default
  end.

(** What becomes of a statement that a request hands to the store through
    the global [db] in world [w]: there is no database object yet, or it
    has no pool, or asyncpg answers with a row, with no row or by
    raising. *)
Definition store_answer (P : Platform) (w : World P) (method query : string)
    (values : list SqlValue) : Result (option PyVal) :=
  match main_db w with
  | None => Raise (Db.AttributeError_None method)
  | Some self =>
      match pool self with
      | None => Raise (Db.AttributeError_None "acquire")
      | Some p => fst (pool_fetchrow P p query values (net w))
      end
  end.

Definition refused_by (prefix : string) (answer : Result (option PyVal))
    : option (string * Exn) :=
  match answer with
  | Raise e => Some (prefix, e)
  | Ok _ => None
  end.

(** The requests that the endpoint refuses, read off what the client sent
    and what pydantic and the store make of it, with the prefix of the
    answer and the exception behind it: pydantic refuses the fields of a
    [create_order] or an [update_order]; the store raises on the statement
    of a [create_order], [update_order] or [delete_order], or is not
    there; the [INSERT] of a [create_order] hands back no row. Every other
    message is not refused: an update that sets no field, an update or a
    delete that finds no order, a message of another type or of none. *)
Definition refusal (P : Platform) (w : World P) (data : PyVal)
    : option (string * Exn) :=
  let message_type := field data "type" PNone in
  if Main.is_str message_type "create_order" then
    match OrderCreate_init P (field data "data" (PDict [])) with
    | Raise e => Some ("Failed to create order: ", e)
    | Ok order =>
        match store_answer P w "create_order" Db.query_create_order
                [SqlStr (oc_customer_name order); SqlStr (oc_product_name order);
                 SqlStatus (oc_status order)] with
        | Raise e => Some ("Failed to create order: ", e)
        | Ok None => Some ("Failed to create order: ", Db.TypeError_dict_None)
        | Ok (Some _) => None
        end
    end
  else if Main.is_str message_type "update_order" then
    match OrderUpdate_init P (field data "updates" (PDict [])) with
    | Raise e => Some ("Failed to update order: ", e)
    | Ok order_update =>
        match main_db w, set_fields order_update with
        | None, _ =>
            Some ("Failed to update order: ", Db.AttributeError_None "update_order")
        | Some _, [] => None
        | Some _, fields =>
            refused_by "Failed to update order: "
              (store_answer P w "update_order" (update_statement fields)
                 (map snd fields ++ [SqlPy (field data "id" PNone)])%list)
        end
    end
  else if Main.is_str message_type "delete_order" then
    refused_by "Failed to delete order: "
      (store_answer P w "delete_order" Db.query_delete_order
         [SqlPy (field data "id" PNone)])
  else None.

(** The detail of the 500 answer of each endpoint. *)
Definition failure_detail (req : Rest.Request) : string :=
  match req with
  | Rest.GetOrders => "Failed to fetch orders"
  | Rest.PostOrder _ => "Failed to create order"
  | Rest.GetOrder _ => "Failed to fetch order"
  | Rest.PutOrder _ _ => "Failed to update order"
  | Rest.DeleteOrder _ => "Failed to delete order"
  end.

(* ===================================================================== *)
(** ** Lists: membership and removal *)
(* ===================================================================== *)

Lemma contains_In (x : WebSocket) (l : list WebSocket) :
  contains x l = true <-> In x l.
Proof.
  unfold contains. rewrite existsb_exists. split.
  - intros (y & Hy & E). apply Nat.eqb_eq in E. now subst.
  - intros H. exists x. split; [assumption | apply Nat.eqb_refl].
Qed.

Lemma contains_false (x : WebSocket) (l : list WebSocket) :
  contains x l = false <-> ~ In x l.
Proof.
  rewrite <- contains_In. destruct (contains x l); split; congruence.
Qed.

Lemma list_remove_None (x : WebSocket) (l : list WebSocket) :
  ~ In x l -> list_remove x l = None.
Proof.
  induction l as [|y l IH]; simpl; intros H; [reflexivity|].
  destruct (Nat.eqb_spec x y) as [->|N].
  - exfalso. apply H. now left.
  - rewrite IH; [reflexivity|]. intros I. apply H. now right.
Qed.

Lemma list_remove_Some (x : WebSocket) (l : list WebSocket) :
  In x l ->
  exists l1 l2, l = (l1 ++ x :: l2)%list /\ ~ In x l1
                /\ list_remove x l = Some (l1 ++ l2)%list.
Proof.
  induction l as [|y l IH]; simpl; intros H; [contradiction|].
  destruct (Nat.eqb_spec x y) as [->|N].
  - exists [], l. repeat split; auto.
  - destruct H as [E|H]; [congruence|].
    destruct (IH H) as (l1 & l2 & -> & N1 & ->).
    exists (y :: l1), l2. repeat split; auto.
    intros [E|I]; [congruence | contradiction].
Qed.

Lemma remove_first_absent (x : WebSocket) (l : list WebSocket) :
  ~ In x l -> remove_first x l = l.
Proof. intros H. unfold remove_first. now rewrite list_remove_None. Qed.

Lemma remove_first_count (x y : WebSocket) (l : list WebSocket) :
  count_occ Nat.eq_dec (remove_first x l) y
  = count_occ Nat.eq_dec l y - (if Nat.eqb x y then 1 else 0).
Proof.
  destruct (in_dec Nat.eq_dec x l) as [I|N].
  - destruct (list_remove_Some x l I) as (l1 & l2 & -> & _ & E).
    unfold remove_first. rewrite E.
    rewrite !count_occ_app. simpl.
    destruct (Nat.eq_dec x y) as [->|D].
    + rewrite Nat.eqb_refl. lia.
    + apply Nat.eqb_neq in D. rewrite D. lia.
  - rewrite remove_first_absent by assumption.
    destruct (Nat.eqb_spec x y) as [->|D]; [|lia].
    apply (count_occ_not_In Nat.eq_dec) in N. lia.
Qed.

Lemma remove_first_length (x : WebSocket) (l : list WebSocket) :
  In x l -> S (List.length (remove_first x l)) = List.length l.
Proof.
  intros I. destruct (list_remove_Some x l I) as (l1 & l2 & -> & _ & E).
  unfold remove_first. rewrite E, !length_app. simpl. lia.
Qed.

Lemma remove_first_incl (x y : WebSocket) (l : list WebSocket) :
  In y (remove_first x l) -> In y l.
Proof.
  intros H. apply (count_occ_In Nat.eq_dec) in H.
  apply (count_occ_In Nat.eq_dec). rewrite remove_first_count in H. lia.
Qed.

Lemma remove_first_NoDup (x : WebSocket) (l : list WebSocket) :
  NoDup l -> NoDup (remove_first x l).
Proof.
  intros H. apply (NoDup_count_occ Nat.eq_dec). intros y.
  rewrite remove_first_count.
  pose proof (proj1 (NoDup_count_occ Nat.eq_dec l) H y). lia.
Qed.

Lemma drop_all_count (d l : list WebSocket) (y : WebSocket) :
  count_occ Nat.eq_dec (drop_all d l) y
  = count_occ Nat.eq_dec l y - count_occ Nat.eq_dec d y.
Proof.
  unfold drop_all. revert l.
  induction d as [|x d IH]; intros l; simpl; [lia|].
  rewrite IH, remove_first_count.
  destruct (Nat.eq_dec x y) as [->|D].
  - rewrite Nat.eqb_refl. lia.
  - apply Nat.eqb_neq in D. rewrite D. lia.
Qed.

Lemma drop_all_incl (d l : list WebSocket) (y : WebSocket) :
  In y (drop_all d l) -> In y l.
Proof.
  intros H. apply (count_occ_In Nat.eq_dec) in H.
  apply (count_occ_In Nat.eq_dec). rewrite drop_all_count in H. lia.
Qed.

Lemma drop_all_NoDup (d l : list WebSocket) :
  NoDup l -> NoDup (drop_all d l).
Proof.
  intros H. apply (NoDup_count_occ Nat.eq_dec). intros y.
  rewrite drop_all_count.
  pose proof (proj1 (NoDup_count_occ Nat.eq_dec l) H y). lia.
Qed.

Lemma drop_all_length (d l : list WebSocket) :
  List.length (drop_all d l) <= List.length l.
Proof.
  unfold drop_all. revert l.
  induction d as [|x d IH]; intros l; simpl; [lia|].
  etransitivity; [apply IH|].
  destruct (in_dec Nat.eq_dec x l) as [I|N].
  - pose proof (remove_first_length x l I). lia.
  - rewrite remove_first_absent by assumption. lia.
Qed.

(* ===================================================================== *)
(** ** The manager, call by call *)
(* ===================================================================== *)

Section ManagerFacts.

Variable P : Platform.

Lemma disconnect_eq (c : WebSocket) (w : World P) :
  disconnect P c w =
  if contains c (registry w) then
    (Ok tt,
     push_log (INFO, "Client disconnected. Total connections: "
                     ++ str_of_Z (connection_count (manager w) - 1))
              (set_manager {| active_connections := remove_first c (registry w);
                              connection_count := connection_count (manager w) - 1 |} w))
  else (Ok tt, w).
Proof.
  unfold disconnect, registry, remove_first.
  destruct (contains c (active_connections (manager w))) eqn:E; [|reflexivity].
  apply contains_In in E.
  destruct (list_remove_Some _ _ E) as (l1 & l2 & _ & _ & ->).
  reflexivity.
Qed.

Lemma disconnect_ok (c : WebSocket) (w : World P) :
  fst (disconnect P c w) = Ok tt.
Proof. rewrite disconnect_eq. now destruct (contains c (registry w)). Qed.

Lemma disconnect_registry (c : WebSocket) (w : World P) :
  registry (snd (disconnect P c w)) = remove_first c (registry w).
Proof.
  rewrite disconnect_eq. destruct (contains c (registry w)) eqn:E; [reflexivity|].
  apply contains_false in E. simpl. now rewrite remove_first_absent.
Qed.

Lemma disconnect_balance (c : WebSocket) (w : World P) :
  balance (snd (disconnect P c w)) = balance w.
Proof.
  rewrite disconnect_eq. destruct (contains c (registry w)) eqn:E; [|reflexivity].
  apply contains_In in E. unfold balance, registry in *. simpl.
  pose proof (remove_first_length c _ E). fold (registry w) in *. lia.
Qed.

Lemma disconnect_frame (c : WebSocket) (w : World P) :
  let w' := snd (disconnect P c w) in
  net w' = net w /\ wire w' = wire w /\ main_db w' = main_db w /\ queries w' = queries w.
Proof.
  rewrite disconnect_eq. destruct (contains c (registry w)); simpl; auto.
Qed.

Lemma disconnect_all_spec (d : list WebSocket) : forall w : World P,
  exists w',
    disconnect_all P d w = (Ok tt, w')
    /\ registry w' = drop_all d (registry w)
    /\ balance w' = balance w
    /\ net w' = net w /\ wire w' = wire w
    /\ main_db w' = main_db w /\ queries w' = queries w.
Proof.
  induction d as [|c d IH]; intros w; simpl.
  - exists w. unfold ret. repeat split; reflexivity.
  - unfold bind.
    pose proof (disconnect_ok c w) as Hok.
    pose proof (disconnect_registry c w) as Hreg.
    pose proof (disconnect_balance c w) as Hbal.
    pose proof (disconnect_frame c w) as (Hn & Hw & Hd & Hq).
    destruct (disconnect P c w) as [r w1]. simpl in *. subst r.
    destruct (IH w1) as (w' & E & R & B & N & W & D & Q).
    exists w'. rewrite E. repeat split; congruence.
Qed.

Lemma connect_eq (c : WebSocket) (w : World P) :
  connect P c w =
  match ws_accept P c (net w) with
  | (Ok _, n) =>
      (Ok tt,
       push_log (INFO, "Client connected. Total connections: "
                       ++ str_of_Z (connection_count (manager w) + 1))
                (set_manager {| active_connections := (registry w ++ [c])%list;
                                connection_count := connection_count (manager w) + 1 |}
                             (set_net n w)))
  | (Raise e, n) => (Raise e, set_net n w)
  end.
Proof.
  unfold connect, bind, extern.
  destruct (ws_accept P c (net w)) as [[[]|e] n]; reflexivity.
Qed.

Lemma connect_registry (c : WebSocket) (w : World P) :
  registry (snd (connect P c w))
  = if is_ok (fst (connect P c w)) then (registry w ++ [c])%list else registry w.
Proof.
  rewrite connect_eq. destruct (ws_accept P c (net w)) as [[[]|e] n]; reflexivity.
Qed.

Lemma connect_balance (c : WebSocket) (w : World P) :
  balance (snd (connect P c w)) = balance w.
Proof.
  rewrite connect_eq. destruct (ws_accept P c (net w)) as [[[]|e] n];
    unfold balance, registry; simpl; [|reflexivity].
  rewrite length_app. simpl. lia.
Qed.

Lemma connect_wire (c : WebSocket) (w : World P) :
  wire (snd (connect P c w)) = wire w.
Proof.
  rewrite connect_eq. destruct (ws_accept P c (net w)) as [[[]|e] n]; reflexivity.
Qed.

(** The loop over an unchanging list: it attempts every connection, never
    raises, and collects those whose send raised. *)
Lemma broadcast_over_spec (message prefix : string) (conns : list WebSocket) :
  forall (d : list WebSocket) (w : World P),
  exists sends w',
    broadcast_over P message prefix conns d w = (Ok (d ++ failed_of sends)%list, w')
    /\ wire w' = (wire w ++ sends)%list
    /\ map wire_ws sends = conns
    /\ Forall (fun x => exists b, x = WText (wire_ws x) message b) sends
    /\ manager w' = manager w /\ main_db w' = main_db w /\ queries w' = queries w.
Proof.
  induction conns as [|c conns IH]; intros d w; simpl.
  - exists [], w. unfold ret, failed_of. simpl. rewrite !app_nil_r.
    repeat split; auto.
  - unfold bind at 1. unfold try_except, bind, send_text.
    destruct (ws_send_text P c message (net w)) as [[[]|e] n]; simpl.
    + match goal with |- context [broadcast_over P _ _ conns d ?w1] =>
        destruct (IH d w1) as (sends & w' & E & W & Mp & F & Mg & D & Q) end.
      exists (WText c message true :: sends), w'. rewrite E.
      simpl in *. repeat split; auto.
      * rewrite W, <- app_assoc. reflexivity.
      * now rewrite Mp.
      * constructor; [now exists true | assumption].
    + match goal with |- context [broadcast_over P _ _ conns ?d1 ?w1] =>
        destruct (IH d1 w1) as (sends & w' & E & W & Mp & F & Mg & D & Q) end.
      exists (WText c message false :: sends), w'. rewrite E.
      simpl in *. repeat split; auto.
      * unfold failed_of. simpl. fold (failed_of sends).
        rewrite <- app_assoc. reflexivity.
      * rewrite W, <- app_assoc. reflexivity.
      * now rewrite Mp.
      * constructor; [now exists false | assumption].
Qed.

End ManagerFacts.

(* ===================================================================== *)
(** ** The broadcast loop, uninterrupted *)
(* ===================================================================== *)

Section BroadcastFacts.

Variable P : Platform.

Lemma skipn_exact {A : Type} (l sends : list A) :
  skipn (List.length l) (l ++ sends) = sends.
Proof. induction l; simpl; auto. Qed.

Lemma sent_by_app {A : Type} (m : M P A) (w : World P) (sends : list Wire) :
  wire (snd (m w)) = (wire w ++ sends)%list -> sent_by m w = sends.
Proof. intros H. unfold sent_by. rewrite H. apply skipn_exact. Qed.

Lemma nth_error_middle {A : Type} (done rest : list A) :
  nth_error (done ++ rest) (List.length done) = nth_error rest 0.
Proof. induction done; simpl; auto. Qed.

(** With nothing else scheduled, the iterator over the live list visits
    the entries the list had when the loop began, and [fuel] beyond their
    number is enough for the coroutine to return. *)
Lemma broadcast_run_over (rest : list WebSocket) :
  forall (done : list WebSocket) (f : Frame) (w : World P) (fuel : nat),
    registry w = (done ++ rest)%list ->
    fr_index f = List.length done ->
    List.length rest < fuel ->
    broadcast_run P fuel f w
    = (d <- broadcast_over P (fr_message f) (fr_error_prefix f) rest (fr_disconnected f) ;;
       disconnect_all P d) w.
Proof.
  induction rest as [|c rest IH]; intros done f w fuel R I L.
  - destruct fuel as [|fuel]; [simpl in L; lia|].
    simpl. unfold bind at 1. unfold broadcast_step.
    unfold registry in R. rewrite R, I, nth_error_middle. simpl.
    unfold bind, ret.
    destruct (disconnect_all_spec P (fr_disconnected f) w) as (w' & E & _).
    now rewrite E.
  - destruct fuel as [|fuel]; [simpl in L; lia|].
    simpl in L. simpl broadcast_run. simpl broadcast_over.
    unfold bind at 1. unfold broadcast_step.
    pose proof R as R'. unfold registry in R'. rewrite R', I, nth_error_middle. simpl.
    unfold bind at 2. unfold try_except, bind, send_text, ret.
    destruct (ws_send_text P c (fr_message f) (net w)) as [[[]|e] n]; simpl.
    + rewrite (IH (done ++ [c])%list); simpl; auto.
      * unfold registry. simpl. fold (registry w). rewrite R, <- app_assoc. reflexivity.
      * rewrite length_app. simpl. lia.
      * lia.
    + rewrite (IH (done ++ [c])%list); simpl; auto.
      * unfold registry. simpl. fold (registry w). rewrite R, <- app_assoc. reflexivity.
      * rewrite length_app. simpl. lia.
      * lia.
Qed.

Lemma broadcast_json_eq (data : PyVal) (w : World P) :
  broadcast_json P data w =
  match registry w with
  | [] => (Ok tt, w)
  | _ :: _ =>
      match json_dumps P data with
      | Raise e => (Raise e, w)
      | Ok message =>
          (d <- broadcast_over P message "Error broadcasting to connection: "
                               (registry w) [] ;;
           disconnect_all P d) w
      end
  end.
Proof.
  unfold broadcast_json, bind at 1. unfold broadcast_json_begin, registry.
  destruct (active_connections (manager w)) as [|c l] eqn:E; [reflexivity|].
  unfold bind, lift_result, ret.
  destruct (json_dumps P data) as [message|e]; [|reflexivity].
  unfold run_frame. rewrite E.
  rewrite (broadcast_run_over (c :: l) [] _ w); simpl; auto.
Qed.

(** What one uninterrupted [broadcast_json] does when the event
    serialises. *)
Lemma broadcast_json_spec (data : PyVal) (message : string) (w : World P) :
  json_dumps P data = Ok message ->
  exists sends w',
    broadcast_json P data w = (Ok tt, w')
    /\ wire w' = (wire w ++ sends)%list
    /\ map wire_ws sends = registry w
    /\ Forall (fun x => exists b, x = WText (wire_ws x) message b) sends
    /\ registry w' = drop_all (failed_of sends) (registry w)
    /\ balance w' = balance w
    /\ main_db w' = main_db w /\ queries w' = queries w.
Proof.
  intros J. rewrite broadcast_json_eq, J.
  destruct (registry w) as [|c l] eqn:R.
  - exists [], w. rewrite app_nil_r. simpl. repeat split; auto.
  - rewrite <- R. unfold bind.
    destruct (broadcast_over_spec P message "Error broadcasting to connection: "
                (registry w) [] w) as (sends & w1 & E & W & Mp & F & Mg & D & Q).
    rewrite E. simpl.
    destruct (disconnect_all_spec P (failed_of sends) w1)
      as (w' & E' & R' & B' & N' & W' & D' & Q').
    exists sends, w'. rewrite E'.
    assert (registry w1 = registry w) as R1 by (unfold registry; now rewrite Mg).
    assert (balance w1 = balance w) as B1 by (unfold balance, registry; now rewrite Mg).
    repeat split; try congruence.
Qed.

(** Whatever the event, the call changes the world only by sends to the
    registered connections, removals and log records. *)
Lemma broadcast_json_any (data : PyVal) (w : World P) :
  exists sends,
    wire (snd (broadcast_json P data w)) = (wire w ++ sends)%list
    /\ incl (map wire_ws sends) (registry w)
    /\ (forall x, In x sends ->
          exists message b, json_dumps P data = Ok message /\ x = WText (wire_ws x) message b)
    /\ incl (registry (snd (broadcast_json P data w))) (registry w)
    /\ (NoDup (registry w) -> NoDup (registry (snd (broadcast_json P data w))))
    /\ balance (snd (broadcast_json P data w)) = balance w
    /\ main_db (snd (broadcast_json P data w)) = main_db w
    /\ queries (snd (broadcast_json P data w)) = queries w.
Proof.
  destruct (json_dumps P data) as [message|e] eqn:J.
  - destruct (broadcast_json_spec data message w J)
      as (sends & w' & E & W & Mp & F & R & B & D & Q).
    exists sends. rewrite E. simpl. repeat split; auto.
    + rewrite Mp. apply incl_refl.
    + intros x I. rewrite Forall_forall in F. destruct (F x I) as (b & Hb).
      now exists message, b.
    + rewrite R. intros y. apply drop_all_incl.
    + intros N. rewrite R. now apply drop_all_NoDup.
  - exists []. rewrite broadcast_json_eq, J, app_nil_r.
    assert (forall x : Wire, In x [] ->
              exists (message : string) (b : bool),
                Raise e = Ok message /\ x = WText (wire_ws x) message b)
      by (intros x []).
    destruct (registry w) eqn:R; simpl; rewrite ?R;
      repeat split; auto using incl_refl, incl_nil_l.
Qed.

End BroadcastFacts.

(* ===================================================================== *)
(** ** Sequences of calls on the manager *)
(* ===================================================================== *)

Section CallFacts.

Variable P : Platform.

Lemma send_json_personal_eq (data : PyVal) (c : WebSocket) (w : World P) :
  send_json_personal P data c w =
  match ws_send_json P c data (net w) with
  | (Ok _, n) => (Ok tt, push_wire (WJson c data true) (set_net n w))
  | (Raise e, n) =>
      disconnect P c
        (push_log (ERROR, "Error sending JSON message: " ++ text e)
                  (push_wire (WJson c data false) (set_net n w)))
  end.
Proof.
  unfold send_json_personal, try_except, send_json, bind, logger_error.
  destruct (ws_send_json P c data (net w)) as [[[]|e] n]; reflexivity.
Qed.

Lemma send_json_personal_spec (data : PyVal) (c : WebSocket) (w : World P) :
  let b := is_ok (fst (ws_send_json P c data (net w))) in
  let w' := snd (send_json_personal P data c w) in
  fst (send_json_personal P data c w) = Ok tt
  /\ wire w' = (wire w ++ [WJson c data b])%list
  /\ registry w' = (if b then registry w else remove_first c (registry w))
  /\ balance w' = balance w
  /\ main_db w' = main_db w /\ queries w' = queries w.
Proof.
  rewrite send_json_personal_eq.
  destruct (ws_send_json P c data (net w)) as [[[]|e] n]; simpl.
  - repeat split; reflexivity.
  - match goal with |- context [disconnect P c ?v] =>
      pose proof (disconnect_ok P c v) as Hok;
      pose proof (disconnect_registry P c v) as Hreg;
      pose proof (disconnect_balance P c v) as Hbal;
      pose proof (disconnect_frame P c v) as (Hn & Hw & Hd & Hq)
    end.
    repeat split; assumption.
Qed.

(** No call but [connect] adds an entry, and [connect] adds its own. *)
Lemma run_op_registry_incl (op : App.Op) (w : World P) (c : WebSocket) :
  In c (registry (snd (App.run_op P op w))) ->
  In c (registry w) \/ op = App.OpConnect c.
Proof.
  destruct op as [c'|c'|data c'|data]; simpl.
  - rewrite connect_registry. destruct (is_ok _); auto.
    rewrite in_app_iff. simpl. intros [H|[->|[]]]; auto.
  - rewrite disconnect_registry. intros H. left. eapply remove_first_incl; eauto.
  - destruct (send_json_personal_spec data c' w) as (_ & _ & R & _).
    rewrite R. destruct (is_ok _); auto.
    intros H. left. eapply remove_first_incl; eauto.
  - destruct (broadcast_json_any P data w) as (sends & _ & _ & _ & I & _).
    intros H. left. now apply I.
Qed.

Lemma run_op_balance (op : App.Op) (w : World P) :
  balance (snd (App.run_op P op w)) = balance w.
Proof.
  destruct op as [c'|c'|data c'|data]; simpl.
  - apply connect_balance.
  - apply disconnect_balance.
  - apply send_json_personal_spec.
  - destruct (broadcast_json_any P data w) as (sends & _ & _ & _ & _ & _ & B & _).
    exact B.
Qed.

Lemma run_op_NoDup (op : App.Op) (w : World P) :
  NoDup (registry w) ->
  match op with App.OpConnect c => ~ In c (registry w) | _ => True end ->
  NoDup (registry (snd (App.run_op P op w))).
Proof.
  intros N F. destruct op as [c'|c'|data c'|data]; simpl.
  - rewrite connect_registry. destruct (is_ok _); auto.
    apply NoDup_app; auto.
    + repeat constructor. intros [].
    + intros x Hx [E|[]]. subst. contradiction.
  - rewrite disconnect_registry. now apply remove_first_NoDup.
  - destruct (send_json_personal_spec data c' w) as (_ & _ & R & _).
    rewrite R. destruct (is_ok _); auto. now apply remove_first_NoDup.
  - destruct (broadcast_json_any P data w) as (sends & _ & _ & _ & _ & D & _). auto.
Qed.

Lemma run_ops_balance (ops : list App.Op) : forall w : World P,
  balance (App.run_ops P ops w) = balance w.
Proof.
  induction ops as [|op ops IH]; intros w; simpl; [reflexivity|].
  rewrite IH. apply run_op_balance.
Qed.

Lemma run_ops_NoDup (ops : list App.Op) : forall w : World P,
  NoDup (registry w) -> connects_fresh ops w ->
  NoDup (registry (App.run_ops P ops w)).
Proof.
  induction ops as [|op ops IH]; intros w N F; simpl; [assumption|].
  destruct F as (F1 & F2). apply IH; [|assumption].
  now apply run_op_NoDup.
Qed.

Lemma absent_stays_absent (c : WebSocket) (ops : list App.Op) : forall w : World P,
  ~ In c (registry w) -> never_connects c ops = true ->
  ~ In c (registry (App.run_ops P ops w)).
Proof.
  induction ops as [|op ops IH]; intros w A N; simpl; [assumption|].
  apply IH.
  - intros I. apply run_op_registry_incl in I. destruct I as [I| ->]; [contradiction|].
    simpl in N. rewrite Nat.eqb_refl in N. discriminate.
  - destruct op; simpl in N; try assumption.
    apply andb_true_iff in N. apply N.
Qed.

Lemma absent_gone (c : WebSocket) (w : World P) :
  ~ In c (registry w) -> gone_until_reconnect c w.
Proof.
  intros A ops data N. simpl. split.
  - now apply absent_stays_absent.
  - destruct (broadcast_json_any P data (App.run_ops P ops w))
      as (sends & W & I & _).
    rewrite (sent_by_app P _ _ _ W). intros H. apply I in H.
    revert H. now apply absent_stays_absent.
Qed.

End CallFacts.

(* ===================================================================== *)
(** ** The connection registry *)
(* ===================================================================== *)

Lemma failed_of_In (sends : list Wire) (message : string) (c : WebSocket) :
  Forall (fun x => exists b, x = WText (wire_ws x) message b) sends ->
  (In (WText c message false) sends <-> In c (failed_of sends)).
Proof.
  intros F. unfold failed_of. rewrite in_map_iff. split.
  - intros I. exists (WText c message false). split; [reflexivity|].
    apply filter_In. split; [assumption | reflexivity].
  - intros (x & E & I). apply filter_In in I. destruct I as (I & D).
    rewrite Forall_forall in F. destruct (F x I) as (b & Hx).
    rewrite Hx in D, I. simpl in D. destruct b; [discriminate|].
    now rewrite E in I.
Qed.

Lemma NoDup_count_le (l : list WebSocket) (c : WebSocket) :
  NoDup l -> count_occ Nat.eq_dec l c <= 1.
Proof. intros N. now apply (NoDup_count_occ Nat.eq_dec). Qed.

Lemma NoDup_count_In (l : list WebSocket) (c : WebSocket) :
  NoDup l -> In c l -> count_occ Nat.eq_dec l c = 1.
Proof.
  intros N I. pose proof (NoDup_count_le l c N).
  apply (count_occ_In Nat.eq_dec) in I. lia.
Qed.

(** C5. [disconnect] of a connection that the list does not hold returns
    without raising and leaves the whole world, so the list and the counter,
    as it was. [disconnect] of a connection that the list holds returns
    without raising, takes out one entry, the first one of that connection,
    keeps every other entry in place, and lowers the counter by exactly one;
    when that was the connection's only entry the connection is then absent
    and a second [disconnect] changes nothing. *)
Theorem disconnect_noop_or_remove_one (P : Platform) (c : WebSocket) (w : World P) :
  (~ In c (registry w) -> disconnect P c w = (Ok tt, w))
  /\ (In c (registry w) ->
      exists before behind,
        registry w = (before ++ c :: behind)%list
        /\ ~ In c before
        /\ fst (disconnect P c w) = Ok tt
        /\ registry (snd (disconnect P c w)) = (before ++ behind)%list
        /\ connection_count (manager (snd (disconnect P c w)))
           = (connection_count (manager w) - 1)%Z)
  /\ (count_occ Nat.eq_dec (registry w) c = 1 ->
      let w' := snd (disconnect P c w) in
      ~ In c (registry w') /\ disconnect P c w' = (Ok tt, w')).
Proof.
  split; [|split].
  - intros A. rewrite disconnect_eq.
    apply contains_false in A. now rewrite A.
  - intros I. destruct (list_remove_Some c _ I) as (l1 & l2 & E & N & R).
    exists l1, l2. split; [assumption|]. split; [assumption|].
    split; [apply disconnect_ok|].
    rewrite disconnect_eq. apply contains_In in I. rewrite I. simpl.
    unfold registry at 1. simpl. unfold remove_first. rewrite R. auto.
  - intros C. simpl.
    assert (~ In c (registry (snd (disconnect P c w)))) as A.
    { rewrite disconnect_registry. intros I.
      apply (count_occ_In Nat.eq_dec) in I.
      rewrite remove_first_count, Nat.eqb_refl in I. lia. }
    split; [assumption|].
    rewrite (disconnect_eq P c (snd (disconnect P c w))).
    apply contains_false in A. now rewrite A.
Qed.

Lemma disconnect_noop_or_remove_one_witness :
  let w := Sim.with_connections [1; 2; 3] Sim.quiet in
  (~ In 9 (registry w) /\ disconnect Sim.platform 9 w = (Ok tt, w))
  /\ (count_occ Nat.eq_dec (registry w) 2 = 1
      /\ ~ In 2 (registry (snd (disconnect Sim.platform 2 w)))).
Proof.
  intros w.
  assert (~ In 9 (registry w)) as A by (simpl; intuition discriminate).
  assert (count_occ Nat.eq_dec (registry w) 2 = 1) as C by reflexivity.
  split; split; try assumption.
  - exact (proj1 (disconnect_noop_or_remove_one Sim.platform 9 w) A).
  - exact (proj1 (proj2 (proj2 (disconnect_noop_or_remove_one Sim.platform 2 w)) C)).
Defined.

(** C6. From the manager as [__init__] leaves it, after any sequence of
    [connect], [disconnect], [send_json_personal] and [broadcast_json] calls,
    whatever the sockets do, [connection_count] is the number of entries of
    [active_connections], and [connected_clients] in the answer of the health
    endpoint is that number. *)
Theorem count_is_registry_size (P : Platform) (ops : list App.Op) (w : World P) :
  manager w = ConnectionManager_init ->
  let w' := App.run_ops P ops w in
  connection_count (manager w') = Z.of_nat (List.length (active_connections (manager w')))
  /\ Db.getitem P (Main.health_check P w') "connected_clients"
     = Ok (PInt (Z.of_nat (List.length (active_connections (manager w'))))).
Proof.
  intros I. simpl.
  assert (balance (App.run_ops P ops w) = 0%Z) as B.
  { rewrite run_ops_balance. unfold balance, registry. now rewrite I. }
  unfold balance, registry in B.
  split; [lia|].
  unfold Main.health_check, Db.getitem. simpl. f_equal. f_equal. lia.
Qed.

Lemma count_is_registry_size_witness :
  let w' := App.run_ops Sim.platform
              [App.OpConnect 1; App.OpConnect 2; App.OpBroadcastJson (PStr "ev");
               App.OpDisconnect 1; App.OpDisconnect 1;
               App.OpSendJsonPersonal PNone 2]
              (Sim.fresh Sim.quiet) in
  manager (Sim.fresh Sim.quiet) = ConnectionManager_init
  /\ connection_count (manager w') = Z.of_nat (List.length (active_connections (manager w'))).
Proof.
  intros w'. split; [reflexivity|].
  exact (proj1 (count_is_registry_size Sim.platform _ (Sim.fresh Sim.quiet) eq_refl)).
Defined.

(* ===================================================================== *)
(** ** The broadcaster: failures and copies *)
(* ===================================================================== *)

Lemma all_delivered (sends : list Wire) (message : string) :
  Forall (fun x => exists b, x = WText (wire_ws x) message b) sends ->
  Forall (fun x => wire_delivered x = true) sends ->
  sends = map (fun c => WText c message true) (map wire_ws sends)
  /\ failed_of sends = [].
Proof.
  induction sends as [|x sends IH]; intros F D; [split; reflexivity|].
  inversion F as [|? ? (b & Hx) F']; subst. inversion D as [|? ? Dx D']; subst.
  destruct (IH F' D') as (E1 & E2).
  split.
  - simpl. rewrite <- E1. rewrite Hx in Dx. simpl in Dx. subst b.
    now rewrite Hx at 1.
  - unfold failed_of in *. simpl. rewrite Dx. simpl. exact E2.
Qed.

(** C1, as the code has it. For every event that serialises and every
    registry, an uninterrupted [broadcast_json] returns without raising and
    attempts one send per entry of the registry, in order, whether or not
    earlier sends raised. A connection that the registry holds once and
    whose send raised is unregistered: it is absent from the registry and
    from the recipients of every later broadcast until it is registered
    again. A connection none of whose sends raised stays registered.
    [send_json_personal] whose send raises returns without raising and
    unregisters, in the same way, a connection that the registry holds
    once. *)
Theorem failed_send_unregisters (P : Platform) :
  (forall (data : PyVal) (message : string) (w : World P),
      json_dumps P data = Ok message ->
      let w' := snd (broadcast_json P data w) in
      let sends := sent_by (broadcast_json P data) w in
      fst (broadcast_json P data w) = Ok tt
      /\ map wire_ws sends = registry w
      /\ Forall (fun x => exists b, x = WText (wire_ws x) message b) sends
      /\ (forall c, In (WText c message false) sends ->
            count_occ Nat.eq_dec (registry w) c = 1 ->
            ~ In c (registry w') /\ gone_until_reconnect c w')
      /\ (forall c, In c (registry w) -> ~ In (WText c message false) sends ->
            In c (registry w')))
  /\ (forall (data : PyVal) (c : WebSocket) (w : World P),
        is_ok (fst (ws_send_json P c data (net w))) = false ->
        count_occ Nat.eq_dec (registry w) c = 1 ->
        let w' := snd (send_json_personal P data c w) in
        fst (send_json_personal P data c w) = Ok tt
        /\ sent_by (send_json_personal P data c) w = [WJson c data false]
        /\ ~ In c (registry w') /\ gone_until_reconnect c w').
Proof.
  split.
  - intros data message w J. simpl.
    destruct (broadcast_json_spec P data message w J)
      as (sends & w' & E & W & Mp & F & R & _).
    assert (sent_by (broadcast_json P data) w = sends) as S
        by (apply sent_by_app; now rewrite E).
    rewrite S, E. simpl.
    split; [reflexivity|]. split; [assumption|]. split; [assumption|]. split.
    + intros c I C. apply (failed_of_In sends message c F) in I.
      assert (~ In c (registry w')) as A.
      { rewrite R. intros H. apply (count_occ_In Nat.eq_dec) in H.
        rewrite drop_all_count in H.
        apply (count_occ_In Nat.eq_dec) in I. unfold WebSocket in *. lia. }
      split; [assumption | now apply absent_gone].
    + intros c I NF. rewrite R. apply (count_occ_In Nat.eq_dec).
      rewrite drop_all_count.
      rewrite (failed_of_In sends message c F) in NF.
      apply (count_occ_not_In Nat.eq_dec) in NF.
      apply (count_occ_In Nat.eq_dec) in I. unfold WebSocket in *. lia.
  - intros data c w B C. simpl.
    destruct (send_json_personal_spec P data c w) as (Ok_ & W & R & _).
    rewrite B in W, R.
    assert (~ In c (registry (snd (send_json_personal P data c w)))) as A.
    { rewrite R. intros H. apply (count_occ_In Nat.eq_dec) in H.
      rewrite remove_first_count, Nat.eqb_refl in H. unfold WebSocket in *. lia. }
    split; [assumption|]. split; [now apply sent_by_app|].
    split; [assumption | now apply absent_gone].
Qed.

Lemma failed_send_unregisters_witness :
  let w := Sim.with_connections [1; 2; 3] (Sim.with_closed [2]) in
  let data := Sim.change_update in
  json_dumps Sim.platform data = Ok (Sim.render data)
  /\ count_occ Nat.eq_dec (registry w) 2 = 1
  /\ map wire_ws (sent_by (broadcast_json Sim.platform data) w) = [1; 2; 3]
  /\ ~ In 2 (registry (snd (broadcast_json Sim.platform data w)))
  /\ (is_ok (fst (ws_send_json Sim.platform 2 data (net w))) = false
      /\ ~ In 2 (registry (snd (send_json_personal Sim.platform data 2 w)))).
Proof.
  intros w data.
  assert (json_dumps Sim.platform data = Ok (Sim.render data)) as J by reflexivity.
  assert (count_occ Nat.eq_dec (registry w) 2 = 1) as C by reflexivity.
  assert (is_ok (fst (ws_send_json Sim.platform 2 data (net w))) = false) as B
      by reflexivity.
  destruct (proj1 (failed_send_unregisters Sim.platform) data _ w J)
    as (_ & Mp & _ & Fail & _).
  destruct (proj2 (failed_send_unregisters Sim.platform) data 2 w B C)
    as (_ & _ & A & _).
  split; [exact J|]. split; [exact C|]. split; [exact Mp|]. split.
  - apply (Fail 2); [right; left; reflexivity | exact C].
  - split; [exact B | exact A].
Defined.

(** C1 as stated fails in two ways. With two entries for one connection (the
    state after [connect] was called on it twice), a personal send that
    raises removes one entry only: the connection is still registered and
    the next broadcast sends to it. And when the coroutine that owns the
    failed connection unregisters it while the broadcast is suspended in a
    later send, the iterator over the live list runs past an entry:
    connection 2 is registered throughout, its socket is open, and the
    broadcast returns without attempting it. *)
Lemma failed_send_counterexample :
  (let w := App.run_ops Sim.platform [App.OpConnect 1; App.OpConnect 1]
                        (Sim.fresh (Sim.with_closed [1])) in
   let w' := snd (send_json_personal Sim.platform PNone 1 w) in
   sent_by (send_json_personal Sim.platform PNone 1) w = [WJson 1 PNone false]
   /\ In 1 (registry w')
   /\ In 1 (map wire_ws (sent_by (broadcast_json Sim.platform (PStr "ev")) w')))
  /\ (let s := Loop.sched_run Sim.platform
                 [Loop.Resume; Loop.Unregister 1; Loop.Resume; Loop.Resume]
                 (Loop.sched_begin Sim.platform (PStr "ev")
                    (Sim.with_connections [1; 2; 3] (Sim.with_closed [1]))) in
      Loop.sc_task s = None
      /\ map wire_ws (wire (Loop.sc_world s)) = [1; 3]
      /\ map wire_delivered (wire (Loop.sc_world s)) = [false; true]
      /\ registry (Loop.sc_world s) = [2; 3]).
Proof.
  split.
  - vm_compute. repeat split; auto.
  - vm_compute. repeat split.
Qed.

(** C4, as the code has it. [active_connections] is a list and [connect]
    appends to it without looking: the entries stay distinct through any
    sequence of calls in which every [connect] is of a connection that the
    list does not hold at that moment. An uninterrupted [broadcast_json] of
    an event that serialises attempts as many sends to a connection as the
    list has entries for it: exactly one to each connection of a list of
    distinct entries, and when none of these sends raises, what goes out is
    one delivered copy per registered connection, in the order of the list,
    and the registry is unchanged. *)
Theorem one_copy_per_entry (P : Platform) :
  (forall (ops : list App.Op) (w : World P),
      NoDup (registry w) -> connects_fresh ops w ->
      NoDup (registry (App.run_ops P ops w)))
  /\ (forall (data : PyVal) (message : string) (w : World P),
        json_dumps P data = Ok message ->
        let sends := sent_by (broadcast_json P data) w in
        (forall c, count_occ Nat.eq_dec (map wire_ws sends) c
                   = count_occ Nat.eq_dec (registry w) c)
        /\ (NoDup (registry w) ->
            forall c, In c (registry w) ->
                      count_occ Nat.eq_dec (map wire_ws sends) c = 1)
        /\ (NoDup (registry w) ->
            Forall (fun x => wire_delivered x = true) sends ->
            sends = map (fun c => WText c message true) (registry w)
            /\ registry (snd (broadcast_json P data w)) = registry w)).
Proof.
  split.
  - intros ops w. apply run_ops_NoDup.
  - intros data message w J. simpl.
    destruct (broadcast_json_spec P data message w J)
      as (sends & w' & E & W & Mp & F & R & _).
    assert (sent_by (broadcast_json P data) w = sends) as S
        by (apply sent_by_app; now rewrite E).
    rewrite S, E, Mp. simpl. split; [reflexivity|]. split.
    + intros N c I. now apply NoDup_count_In.
    + intros N D. destruct (all_delivered sends message F D) as (E1 & E2).
      rewrite Mp in E1. rewrite R, E2. split; [assumption | reflexivity].
Qed.

Lemma one_copy_per_entry_witness :
  let ops := [App.OpConnect 1; App.OpConnect 2; App.OpDisconnect 1; App.OpConnect 1] in
  let w := Sim.fresh Sim.quiet in
  NoDup (registry w) /\ connects_fresh ops w
  /\ NoDup (registry (App.run_ops Sim.platform ops w))
  /\ (json_dumps Sim.platform (PStr "ev") = Ok (Sim.render (PStr "ev"))
      /\ forall c, In c [2; 1] ->
           count_occ Nat.eq_dec
             (map wire_ws (sent_by (broadcast_json Sim.platform (PStr "ev"))
                                   (App.run_ops Sim.platform ops w))) c = 1).
Proof.
  intros ops w.
  assert (NoDup (registry w)) as N by constructor.
  assert (connects_fresh ops w) as F.
  { simpl. repeat split; auto; simpl; intuition discriminate. }
  assert (json_dumps Sim.platform (PStr "ev") = Ok (Sim.render (PStr "ev"))) as J
      by reflexivity.
  pose proof (proj1 (one_copy_per_entry Sim.platform) ops w N F) as N'.
  split; [exact N|]. split; [exact F|]. split; [exact N'|]. split; [exact J|].
  exact (proj1 (proj2 (proj2 (one_copy_per_entry Sim.platform) (PStr "ev") _
                        (App.run_ops Sim.platform ops w) J)) N').
Defined.

(** C4 as stated fails. After [connect] twice on one connection the list
    holds it twice, the counter says two, and a broadcast sends it two
    copies of the event. And with three distinct connections registered
    and every socket open, when connection 1 unregisters while the
    broadcast is suspended in its first send, the walk over the live list
    passes over connection 2: it stays registered and receives no copy. *)
Lemma connect_twice_counterexample :
  (let w := App.run_ops Sim.platform [App.OpConnect 1; App.OpConnect 1]
                        (Sim.fresh Sim.quiet) in
   registry w = [1; 1]
   /\ ~ NoDup (active_connections (manager w))
   /\ connection_count (manager w) = 2%Z
   /\ sent_by (broadcast_json Sim.platform (PStr "ev")) w
      = [WText 1 (Sim.render (PStr "ev")) true; WText 1 (Sim.render (PStr "ev")) true])
  /\ (let s := Loop.sched_run Sim.platform
                 [Loop.Resume; Loop.Unregister 1; Loop.Resume; Loop.Resume]
                 (Loop.sched_begin Sim.platform (PStr "ev")
                    (Sim.with_connections [1; 2; 3] Sim.quiet)) in
      Loop.sc_task s = None
      /\ wire (Loop.sc_world s)
         = [WText 1 (Sim.render (PStr "ev")) true; WText 3 (Sim.render (PStr "ev")) true]
      /\ registry (Loop.sc_world s) = [2; 3]).
Proof.
  split.
  - vm_compute. repeat split.
    intros N. inversion N as [|? ? A _]. apply A. now left.
  - vm_compute. repeat split.
Qed.

(* ===================================================================== *)
(** ** A broadcast in flight *)
(* ===================================================================== *)

Section LoopFacts.

Variable P : Platform.

Lemma sched_idle (k : nat) (w : World P) :
  Loop.sched_run P (repeat Loop.Resume k) (Loop.mkSched w None) = Loop.mkSched w None.
Proof. induction k; simpl; auto. Qed.

(** Resuming the suspended loop again and again is running it through. *)
Lemma sched_resume_run (fuel : nat) : forall (f : Frame) (w : World P),
  fst (broadcast_run P fuel f w) = Ok tt ->
  Loop.sched_run P (repeat Loop.Resume fuel) (Loop.mkSched w (Some f))
  = Loop.mkSched (snd (broadcast_run P fuel f w)) None.
Proof.
  induction fuel as [|fuel IH]; intros f w H; [discriminate|].
  simpl in *. unfold bind in *.
  destruct (broadcast_step P f w) as [[[f'|]|e] w1]; simpl in *.
  - now apply IH.
  - apply sched_idle.
  - discriminate.
Qed.

Lemma broadcast_run_spec (rest done : list WebSocket) (f : Frame) (w : World P)
    (fuel : nat) :
  registry w = (done ++ rest)%list ->
  fr_index f = List.length done ->
  List.length rest < fuel ->
  exists sends w',
    broadcast_run P fuel f w = (Ok tt, w')
    /\ wire w' = (wire w ++ sends)%list
    /\ map wire_ws sends = rest
    /\ Forall (fun x => exists b, x = WText (wire_ws x) (fr_message f) b) sends
    /\ registry w' = drop_all (fr_disconnected f ++ failed_of sends) (registry w).
Proof.
  intros R I L. rewrite (broadcast_run_over P rest done f w fuel R I L).
  unfold bind.
  destruct (broadcast_over_spec P (fr_message f) (fr_error_prefix f) rest
              (fr_disconnected f) w) as (sends & w1 & E & W & Mp & F & Mg & _).
  rewrite E.
  destruct (disconnect_all_spec P (fr_disconnected f ++ failed_of sends) w1)
    as (w' & E' & R' & _ & _ & W' & _).
  exists sends, w'. rewrite E'.
  assert (registry w1 = registry w) as R1 by (unfold registry; now rewrite Mg).
  repeat split; try congruence.
Qed.

Lemma sched_uninterrupted (data : PyVal) (w : World P) :
  Loop.sched_run P (repeat Loop.Resume (S (List.length (registry w))))
                 (Loop.sched_begin P data w)
  = Loop.mkSched (snd (broadcast_json P data w)) None.
Proof.
  unfold Loop.sched_begin, broadcast_json, bind.
  destruct (broadcast_json_begin P data w) as [[[f|]|e] w1] eqn:B.
  - assert (w1 = w /\ fr_index f = 0) as (-> & I).
    { unfold broadcast_json_begin in B.
      destruct (active_connections (manager w)); [discriminate|].
      unfold bind, lift_result, ret in B.
      destruct (json_dumps P data); inversion B; subst. auto. }
    unfold run_frame. fold (registry w).
    destruct (broadcast_run_spec (registry w) [] f w (S (List.length (registry w))))
      as (sends & w' & E & _); auto.
    apply sched_resume_run. now rewrite E.
  - apply (sched_idle (S (List.length (registry w)))).
  - apply (sched_idle (S (List.length (registry w)))).
Qed.

(** The counter stays in step with the list at every point where a
    broadcast can be suspended, whatever runs in between. *)
Lemma broadcast_step_balance (f : Frame) (w : World P) :
  balance (snd (broadcast_step P f w)) = balance w.
Proof.
  unfold broadcast_step.
  destruct (nth_error (active_connections (manager w)) (fr_index f)) as [c|].
  - unfold try_except, bind, send_text, ret, logger_error.
    destruct (ws_send_text P c (fr_message f) (net w)) as [[[]|e] n]; reflexivity.
  - unfold bind.
    destruct (disconnect_all_spec P (fr_disconnected f) w) as (w' & E & _ & B & _).
    rewrite E. exact B.
Qed.

Lemma sched_run_balance (acts : list Loop.Action) : forall s : Loop.Sched P,
  balance (Loop.sc_world (Loop.sched_run P acts s)) = balance (Loop.sc_world s).
Proof.
  induction acts as [|a acts IH]; intros s; simpl; [reflexivity|].
  rewrite IH. destruct a as [|c|c]; simpl.
  - destruct (Loop.sc_task s) as [f|]; [|reflexivity].
    pose proof (broadcast_step_balance f (Loop.sc_world s)) as B.
    destruct (broadcast_step P f (Loop.sc_world s)) as [[o|e] w1]; exact B.
  - apply connect_balance.
  - apply disconnect_balance.
Qed.

End LoopFacts.

Section LiveListFacts.

Variable P : Platform.

Lemma failed_of_app (a b : list Wire) :
  failed_of (a ++ b) = (failed_of a ++ failed_of b)%list.
Proof. unfold failed_of. now rewrite filter_app, map_app. Qed.

Lemma skipn_nth_error {A : Type} (l : list A) : forall (i : nat) (x : A),
  nth_error l i = Some x -> skipn i l = x :: skipn (S i) l.
Proof.
  induction l as [|y l IH]; intros [|i] x H; simpl in H; try discriminate.
  - now inversion H.
  - change (skipn (S i) (y :: l)) with (skipn i l). now rewrite (IH i x H).
Qed.

(** One trip of the loop with an entry under the cursor: one send, to the
    entry that the list holds there at that moment. *)
Lemma broadcast_step_trip (f : Frame) (w : World P) (c : WebSocket) :
  nth_error (registry w) (fr_index f) = Some c ->
  exists (b : bool) (f' : Frame) (w' : World P),
    broadcast_step P f w = (Ok (Some f'), w')
    /\ fr_message f' = fr_message f
    /\ fr_index f' = S (fr_index f)
    /\ fr_disconnected f'
       = (fr_disconnected f ++ failed_of [WText c (fr_message f) b])%list
    /\ wire w' = (wire w ++ [WText c (fr_message f) b])%list
    /\ manager w' = manager w.
Proof.
  intros N. unfold broadcast_step. unfold registry in N. rewrite N.
  unfold try_except, bind, send_text, ret, logger_error.
  destruct (ws_send_text P c (fr_message f) (net w)) as [[[]|e] n];
    cbn [fst snd is_ok].
  - exists true. eexists. eexists. split; [reflexivity|].
    cbn. rewrite app_nil_r. repeat split; reflexivity.
  - exists false. eexists. eexists. split; [reflexivity|].
    cbn. repeat split; reflexivity.
Qed.

(** The trip that finds the cursor at or past the end of the list. *)
Lemma broadcast_step_end (f : Frame) (w : World P) :
  nth_error (registry w) (fr_index f) = None ->
  exists w' : World P,
    broadcast_step P f w = (Ok None, w')
    /\ wire w' = wire w
    /\ registry w' = drop_all (fr_disconnected f) (registry w).
Proof.
  intros N. unfold broadcast_step. unfold registry in N. rewrite N.
  unfold bind.
  destruct (disconnect_all_spec P (fr_disconnected f) w)
    as (w' & E & R & _ & _ & W & _).
  rewrite E. exists w'. auto.
Qed.

(** Once the broadcast has returned, resuming does nothing and a [connect]
    only adds to the registry. *)
Lemma sched_done (acts : list Loop.Action) : forall w : World P,
  no_unregister acts = true ->
  let s := Loop.sched_run P acts (Loop.mkSched w None) in
  Loop.sc_task s = None
  /\ wire (Loop.sc_world s) = wire w
  /\ incl (registry w) (registry (Loop.sc_world s)).
Proof.
  induction acts as [|a acts IH]; intros w N.
  - cbn. repeat split. apply incl_refl.
  - destruct a as [|x|x]; cbn in N; [| |discriminate].
    + apply (IH w N).
    + cbn [Loop.sched_run Loop.sched_step Loop.sc_task Loop.sc_world].
      destruct (IH (snd (connect P x w)) N) as (T & W & I).
      split; [exact T|]. split; [now rewrite W, connect_wire|].
      intros c Hc. apply I. rewrite connect_registry.
      destruct (is_ok _); [apply in_or_app; now left | assumption].
Qed.

(** A broadcast in flight while other coroutines attach: every send goes
    on the wire with the message of the broadcast, an entry at or after
    the cursor is sent to unless the broadcast is still in flight with that
    entry ahead of its cursor, and an entry that is not marked as failed
    stays registered. *)
Lemma sched_run_live (acts : list Loop.Action) : forall (f : Frame) (w : World P),
  no_unregister acts = true ->
  fr_index f <= List.length (registry w) ->
  let s := Loop.sched_run P acts (Loop.mkSched w (Some f)) in
  exists sends : list Wire,
    wire (Loop.sc_world s) = (wire w ++ sends)%list
    /\ Forall (fun x => exists b, x = WText (wire_ws x) (fr_message f) b) sends
    /\ (forall c : WebSocket,
          In c (skipn (fr_index f) (registry w)) ->
          In c (map wire_ws sends)
          \/ exists f' : Frame,
               Loop.sc_task s = Some f'
               /\ In c (skipn (fr_index f') (registry (Loop.sc_world s))))
    /\ (forall c : WebSocket,
          In c (registry w) ->
          ~ In c (fr_disconnected f) ->
          ~ In c (failed_of sends) ->
          In c (registry (Loop.sc_world s))).
Proof.
  induction acts as [|a acts IH]; intros f w N I.
  - exists []. cbn [Loop.sched_run Loop.sc_world Loop.sc_task].
    rewrite app_nil_r. split; [reflexivity|]. split; [constructor|].
    split; [|auto]. intros c Hc. right. now exists f.
  - destruct a as [|x|x]; cbn in N; [| |discriminate];
      cbn [Loop.sched_run Loop.sched_step Loop.sc_task Loop.sc_world].
    + destruct (nth_error (registry w) (fr_index f)) as [c0|] eqn:Nth.
      * destruct (broadcast_step_trip f w c0 Nth)
          as (b & f' & w' & E & Mf & If & Df & W & Mg).
        rewrite E.
        assert (registry w' = registry w) as R' by (unfold registry; now rewrite Mg).
        assert (fr_index f' <= List.length (registry w')) as I'.
        { rewrite R', If. apply Nat.le_succ_l. apply nth_error_Some. now rewrite Nth. }
        destruct (IH f' w' N I') as (sends & Ws & Fs & P3 & P4).
        exists (WText c0 (fr_message f) b :: sends).
        split; [rewrite Ws, W, <- app_assoc; reflexivity|].
        split; [constructor; [now exists b | now rewrite <- Mf]|].
        split.
        -- intros c Hc. rewrite (skipn_nth_error _ _ _ Nth) in Hc.
           destruct Hc as [->|Hc]; [left; now left|].
           rewrite <- If, <- R' in Hc.
           destruct (P3 c Hc) as [H|H]; [left; now right | now right].
        -- intros c Hc Nd Nf.
           change (WText c0 (fr_message f) b :: sends)
             with ([WText c0 (fr_message f) b] ++ sends)%list in Nf.
           rewrite failed_of_app in Nf.
           apply P4; [now rewrite R' | | ].
           ++ rewrite Df. intros H. apply in_app_or in H.
              destruct H as [H|H]; [now apply Nd|].
              apply Nf. apply in_or_app. now left.
           ++ intros H. apply Nf. apply in_or_app. now right.
      * destruct (broadcast_step_end f w Nth) as (w' & E & W & R').
        rewrite E.
        destruct (sched_done acts w' N) as (T & Wd & Incl).
        exists []. rewrite app_nil_r.
        split; [now rewrite Wd, W|]. split; [constructor|].
        split.
        -- intros c Hc. apply nth_error_None in Nth.
           rewrite skipn_all2 in Hc by assumption. destruct Hc.
        -- intros c Hc Nd _. apply Incl. rewrite R'.
           apply (count_occ_In Nat.eq_dec). rewrite drop_all_count.
           apply (count_occ_In Nat.eq_dec) in Hc.
           apply (count_occ_not_In Nat.eq_dec) in Nd.
           unfold WebSocket in *. lia.
    + pose proof (connect_registry P x w) as R1.
      pose proof (connect_wire P x w) as W1.
      set (w1 := snd (connect P x w)) in *.
      assert (incl (registry w) (registry w1)) as Incl.
      { rewrite R1. destruct (is_ok _); [|apply incl_refl].
        intros c Hc. apply in_or_app. now left. }
      assert (fr_index f <= List.length (registry w1)) as I1.
      { rewrite R1. destruct (is_ok _); [|assumption]. rewrite length_app. lia. }
      destruct (IH f w1 N I1) as (sends & Ws & Fs & P3 & P4).
      exists sends. split; [now rewrite Ws, W1|]. split; [exact Fs|].
      split.
      * intros c Hc. apply P3. rewrite R1. destruct (is_ok _); [|assumption].
        rewrite skipn_app. apply in_or_app. now left.
      * intros c Hc. apply P4. now apply Incl.
Qed.

(** Resumed more often than there are entries ahead of its cursor and
    connections that attach, the broadcast returns. *)
Lemma sched_run_finishes (acts : list Loop.Action) : forall (f : Frame) (w : World P),
  no_unregister acts = true ->
  fr_index f <= List.length (registry w) ->
  List.length (registry w) - fr_index f + registers acts < resumes acts ->
  Loop.sc_task (Loop.sched_run P acts (Loop.mkSched w (Some f))) = None.
Proof.
  induction acts as [|a acts IH]; intros f w N I L.
  - cbn in L. lia.
  - destruct a as [|x|x]; cbn in N, L; [| |discriminate];
      cbn [Loop.sched_run Loop.sched_step Loop.sc_task Loop.sc_world].
    + destruct (nth_error (registry w) (fr_index f)) as [c0|] eqn:Nth.
      * destruct (broadcast_step_trip f w c0 Nth)
          as (b & f' & w' & E & _ & If & _ & _ & Mg).
        rewrite E.
        assert (registry w' = registry w) as R' by (unfold registry; now rewrite Mg).
        assert (fr_index f < List.length (registry w)) as Lt.
        { apply nth_error_Some. now rewrite Nth. }
        apply IH; [exact N | rewrite R', If; lia | rewrite R', If; lia].
      * destruct (broadcast_step_end f w Nth) as (w' & E & _). rewrite E.
        apply (sched_done acts w' N).
    + pose proof (connect_registry P x w) as R1.
      set (w1 := snd (connect P x w)) in *.
      assert (List.length (registry w) <= List.length (registry w1)
              /\ List.length (registry w1) <= S (List.length (registry w))) as (Lo & Hi).
      { rewrite R1. destruct (is_ok _); [rewrite length_app; simpl|]; lia. }
      apply IH; [exact N | lia | lia].
Qed.

End LiveListFacts.

(** C3, as the code has it. [broadcast_json] iterates over the list
    [active_connections] itself, not over a copy of it. When no other
    coroutine runs while it is suspended, resuming it to the end is the
    uninterrupted call and its recipients are the connections registered
    when it began, in order. A connection registered while the broadcast is
    suspended, its loop not yet past the end of the list, is appended to the
    list that the loop is walking: provided that no connection is
    unregistered during the rest of that broadcast, whatever else attaches
    meanwhile, the broadcast runs to its end and attempts a send of the
    in-flight event to the new connection. The new connection is still
    registered afterwards unless that send raised or it was already marked
    as failed, and every connection in the registry when an uninterrupted
    broadcast begins is among its recipients: it is then sent the next
    event too. *)
Theorem broadcast_walks_the_live_list (P : Platform) :
  (forall (data : PyVal) (message : string) (w : World P),
      json_dumps P data = Ok message ->
      Loop.sched_run P (repeat Loop.Resume (S (List.length (registry w))))
                     (Loop.sched_begin P data w)
      = Loop.mkSched (snd (broadcast_json P data w)) None
      /\ map wire_ws (sent_by (broadcast_json P data) w) = registry w)
  /\ (forall (c : WebSocket) (f : Frame) (w : World P) (acts : list Loop.Action),
        fr_index f <= List.length (registry w) ->
        is_ok (fst (ws_accept P c (net w))) = true ->
        no_unregister acts = true ->
        List.length (registry w) - fr_index f + 1 + registers acts < resumes acts ->
        let s := Loop.sched_run P (Loop.Register c :: acts)
                                (Loop.mkSched w (Some f)) in
        let sends := skipn (List.length (wire w)) (wire (Loop.sc_world s)) in
        Loop.sc_task s = None
        /\ (exists b, In (WText c (fr_message f) b) sends)
        /\ (~ In c (fr_disconnected f) ->
            ~ In (WText c (fr_message f) false) sends ->
            In c (registry (Loop.sc_world s))))
  /\ (forall (c : WebSocket) (data : PyVal) (message : string) (w : World P),
        In c (registry w) ->
        json_dumps P data = Ok message ->
        In c (map wire_ws (sent_by (broadcast_json P data) w))).
Proof.
  assert (forall (data : PyVal) (message : string) (w : World P),
             json_dumps P data = Ok message ->
             map wire_ws (sent_by (broadcast_json P data) w) = registry w) as Rcp.
  { intros data message w J.
    destruct (broadcast_json_spec P data message w J) as (sends & w' & E & W & Mp & _).
    rewrite (sent_by_app P _ w sends); [assumption | now rewrite E]. }
  split; [|split].
  - intros data message w J. split; [apply sched_uninterrupted | eauto].
  - intros c f w acts I A N L.
    cbn [Loop.sched_run Loop.sched_step Loop.sc_task Loop.sc_world].
    pose proof (connect_registry P c w) as R1.
    pose proof (connect_wire P c w) as W1.
    assert (is_ok (fst (connect P c w)) = true) as Ac.
    { rewrite connect_eq. destruct (ws_accept P c (net w)) as [[[]|e] n];
        [reflexivity | discriminate]. }
    rewrite Ac in R1. set (w1 := snd (connect P c w)) in *.
    assert (fr_index f <= List.length (registry w1)) as I1.
    { rewrite R1, length_app. simpl. lia. }
    assert (List.length (registry w1) - fr_index f + registers acts < resumes acts)
      as L1.
    { rewrite R1, length_app. simpl. lia. }
    pose proof (sched_run_finishes P acts f w1 N I1 L1) as T.
    destruct (sched_run_live P acts f w1 N I1) as (sends & W & F & P3 & P4).
    cbv zeta. rewrite W, W1, skipn_exact.
    split; [exact T|].
    assert (In c (map wire_ws sends)) as Ic.
    { destruct (P3 c) as [H|(f' & H & _)]; [|exact H|congruence].
      rewrite R1, skipn_app. apply in_or_app. right.
      replace (fr_index f - List.length (registry w)) with 0 by lia. now left. }
    split.
    + apply in_map_iff in Ic. destruct Ic as (x & Ex & Ix).
      rewrite Forall_forall in F. destruct (F x Ix) as (b & Hx).
      exists b. rewrite <- Ex, <- Hx. assumption.
    + intros ND NF. apply P4; [|exact ND|].
      * rewrite R1. apply in_or_app. right. now left.
      * now rewrite <- (failed_of_In sends (fr_message f) c F).
  - intros c data message w I J. now rewrite (Rcp data message w J).
Qed.

Lemma broadcast_walks_the_live_list_witness :
  let w := Sim.with_connections [1] Sim.quiet in
  let f := {| fr_message := "ev"; fr_error_prefix := "Error broadcasting to connection: ";
              fr_index := 1; fr_disconnected := [] |} in
  let acts := [Loop.Resume; Loop.Register 3; Loop.Resume; Loop.Resume; Loop.Resume] in
  let s := Loop.sched_run Sim.platform (Loop.Register 2 :: acts)
                          (Loop.mkSched w (Some f)) in
  (fr_index f <= List.length (registry w)
   /\ is_ok (fst (ws_accept Sim.platform 2 (net w))) = true
   /\ no_unregister acts = true
   /\ List.length (registry w) - fr_index f + 1 + registers acts < resumes acts)
  /\ Loop.sc_task s = None
  /\ exists b, In (WText 2 "ev" b) (skipn (List.length (wire w)) (wire (Loop.sc_world s))).
Proof.
  intros w f acts s.
  assert (fr_index f <= List.length (registry w)) as I by (simpl; lia).
  assert (is_ok (fst (ws_accept Sim.platform 2 (net w))) = true) as A by reflexivity.
  assert (no_unregister acts = true) as N by reflexivity.
  assert (List.length (registry w) - fr_index f + 1 + registers acts < resumes acts)
    as L by (simpl; lia).
  destruct (proj1 (proj2 (broadcast_walks_the_live_list Sim.platform)) 2 f w acts I A N L)
    as (T & S & _).
  split; [split; [exact I | split; [exact A | split; [exact N | exact L]]]|].
  split; [exact T | exact S].
Defined.

(** C3 as stated fails: with connection 1 registered, a broadcast begins and
    is suspended in its send to 1; connection 2 registers; the broadcast
    resumes, finds 2 in the list it is walking and sends the in-flight
    event to 2. A copy of the registry taken when the broadcast began would
    hold 1 alone. *)
Lemma late_joiner_counterexample :
  let w := Sim.with_connections [1] Sim.quiet in
  let s := Loop.sched_run Sim.platform
             [Loop.Resume; Loop.Register 2; Loop.Resume; Loop.Resume]
             (Loop.sched_begin Sim.platform (PStr "ev") w) in
  registry w = [1]
  /\ Loop.sc_task s = None
  /\ wire (Loop.sc_world s)
     = [WText 1 (Sim.render (PStr "ev")) true; WText 2 (Sim.render (PStr "ev")) true].
Proof. vm_compute. repeat split. Qed.

(** Why the new connection is sent the in-flight event only if nothing is
    unregistered meanwhile: with 1 and 2 registered and the broadcast
    suspended in its send to 2, connection 3 registers and the coroutine of
    1 unregisters it; the list is now [[2; 3]], the cursor stands at its
    end, and the broadcast returns without a send to 3, which stays
    registered. *)
Example late_joiner_behind_the_cursor :
  let w := Sim.with_connections [1; 2] Sim.quiet in
  let s := Loop.sched_run Sim.platform
             [Loop.Resume; Loop.Resume; Loop.Register 3; Loop.Unregister 1;
              Loop.Resume]
             (Loop.sched_begin Sim.platform (PStr "ev") w) in
  Loop.sc_task s = None
  /\ map wire_ws (wire (Loop.sc_world s)) = [1; 2]
  /\ registry (Loop.sc_world s) = [2; 3].
Proof. vm_compute. repeat split. Qed.

(* ===================================================================== *)
(** ** The change-source listener *)
(* ===================================================================== *)

Section ListenerFacts.

Variable P : Platform.

Lemma handle_notification_ok (payload : string) (w : World P) :
  fst (Db.handle_notification P payload w) = Ok tt.
Proof.
  unfold Db.handle_notification, try_except.
  match goal with |- context [match ?b w with _ => _ end] =>
    destruct (b w) as [[[]|e] w1] end; reflexivity.
Qed.

Lemma handle_notification_malformed (payload : string) (w : World P) :
  malformed P payload ->
  exists e, Db.handle_notification P payload w
            = (Ok tt, push_log (ERROR, "Error processing notification: " ++ text e) w).
Proof.
  unfold Db.handle_notification, try_except, bind, lift_result, logger_error.
  intros [(e & L)|(v & e & L & G)]; exists e; rewrite L; [reflexivity|].
  now rewrite G.
Qed.

Lemma handle_notification_well_formed (payload : string) (change_data : PyVal)
    (message : string) (w : World P) :
  well_formed P payload change_data message ->
  exists sends w',
    Db.handle_notification P payload w = (Ok tt, w')
    /\ wire w' = (wire w ++ sends)%list
    /\ map wire_ws sends = registry w
    /\ Forall (fun x => exists b, x = WText (wire_ws x) message b) sends.
Proof.
  intros (L & (operation & G) & J).
  unfold Db.handle_notification, try_except, bind, lift_result, logger_info.
  rewrite L, G.
  match goal with |- context [broadcast_json P ?d ?v] =>
    destruct (broadcast_json_spec P d message v J)
      as (sends & w' & E & W & Mp & F & _); rewrite E end.
  exists sends, w'. repeat split; assumption.
Qed.

Lemma deliver_ok (payloads : list string) : forall w : World P,
  fst (Db.deliver P payloads w) = Ok tt.
Proof.
  induction payloads as [|p ps IH]; intros w; simpl; [reflexivity|].
  unfold bind. pose proof (handle_notification_ok p w) as H.
  destruct (Db.handle_notification P p w) as [r w1]. simpl in H. subst r.
  apply IH.
Qed.

End ListenerFacts.

(** C2. [handle_notification] never raises, whatever the payload. On a
    payload that it cannot decode, because [json.loads] raises on it or
    because the decoded value has no ['operation'] to subscript, it records
    one error in the log and changes nothing else: nothing is sent and the
    registry is as before. A well-formed payload that arrives right after is
    decoded and its event is sent to every registered connection. The
    channel never stops delivering: no sequence of payloads, malformed or
    not, makes the callback raise. *)
Theorem malformed_payload_is_isolated (P : Platform) :
  (forall (payload : string) (w : World P),
      fst (Db.handle_notification P payload w) = Ok tt)
  /\ (forall (payload : string) (w : World P),
        malformed P payload ->
        exists e, Db.handle_notification P payload w
                  = (Ok tt,
                     push_log (ERROR, "Error processing notification: " ++ text e) w))
  /\ (forall (bad good : string) (change_data : PyVal) (message : string) (w : World P),
        malformed P bad ->
        well_formed P good change_data message ->
        let w1 := snd (Db.handle_notification P bad w) in
        let sends := sent_by (Db.handle_notification P good) w1 in
        map wire_ws sends = registry w
        /\ Forall (fun x => exists b, x = WText (wire_ws x) message b) sends)
  /\ (forall (payloads : list string) (w : World P),
        fst (Db.deliver P payloads w) = Ok tt).
Proof.
  split; [apply handle_notification_ok|].
  split; [apply handle_notification_malformed|].
  split; [|apply deliver_ok].
  intros bad good change_data message w B G. cbv zeta.
  destruct (handle_notification_malformed P bad w B) as (e & E). rewrite E. cbn [snd].
  destruct (handle_notification_well_formed P good change_data message
              (push_log (ERROR, "Error processing notification: " ++ text e) w) G)
    as (sends & w' & E' & W & Mp & F).
  rewrite (sent_by_app P _ _ sends) by now rewrite E'.
  split; assumption.
Qed.

Lemma malformed_payload_is_isolated_witness :
  let w := Sim.with_connections [1; 2] Sim.quiet in
  let good := Sim.render Sim.change_update in
  let message :=
    Sim.render (PDict [("type", PStr "database_change"); ("data", Sim.change_update)]) in
  malformed Sim.platform "not json"
  /\ malformed Sim.platform "{}"
  /\ well_formed Sim.platform good Sim.change_update message
  /\ map wire_ws (sent_by (Db.handle_notification Sim.platform good)
                          (snd (Db.handle_notification Sim.platform "{}" w)))
     = [1; 2].
Proof.
  intros w good message.
  assert (malformed Sim.platform "not json") as B1.
  { left. eexists. reflexivity. }
  assert (malformed Sim.platform "{}") as B2.
  { right. eexists. eexists. split; reflexivity. }
  assert (well_formed Sim.platform good Sim.change_update message) as G.
  { split; [reflexivity|]. split; [eexists|]; reflexivity. }
  split; [exact B1|]. split; [exact B2|]. split; [exact G|].
  exact (proj1 (proj1 (proj2 (proj2 (malformed_payload_is_isolated Sim.platform)))
                      "{}" good Sim.change_update message w B2 G)).
Defined.

(* ===================================================================== *)
(** ** Start-up *)
(* ===================================================================== *)

(** C7. With [DATABASE_URL] set, if creating the pool raises, or opening
    the listener's own connection raises, or [add_listener] raises, then
    [Database.initialize] raises that same exception, the start-up half of
    [lifespan] raises it too and never reaches its [yield]: the application
    does not come to serve traffic. *)
Theorem startup_failure_is_fatal (P : Platform) (w : World P) (url : string) (e : Exn) :
  os_getenv P "DATABASE_URL" (net w) = Some url ->
  url <> "" ->
  startup_blocked P url (net w) e ->
  fst (Db.initialize P (set_main_db (Some (Database_init url)) w)) = Raise e
  /\ fst (Main.lifespan_startup P w) = Raise e
  /\ fst (Main.start P w) = Main.StartupFailed e.
Proof.
  intros G N B.
  assert (fst (Db.initialize P (set_main_db (Some (Database_init url)) w)) = Raise e) as I.
  { unfold Db.initialize, Db.setup_notification_listener, Db.self_db, Db.set_pool,
      Db.set_listener_connection, Db.self_db, try_except, bind, extern,
      logger_info, logger_error, raise. simpl.
    destruct B as [B|(p & Bp & B)].
    - destruct (asyncpg_create_pool P url 2 10 60 (net w)) as [r n]. simpl in B.
      subst r. reflexivity.
    - destruct (asyncpg_create_pool P url 2 10 60 (net w)) as [r n]. simpl in *.
      subst r. simpl.
      destruct B as [B|(c & Bc & B)].
      + destruct (asyncpg_connect P url n) as [r n1]. simpl in B. subst r. reflexivity.
      + destruct (asyncpg_connect P url n) as [r n1]. simpl in *. subst r. simpl.
        destruct (add_listener P c "order_changes" n1) as [r n2]. simpl in B.
        subst r. reflexivity. }
  assert (fst (Main.lifespan_startup P w) = Raise e) as L.
  { unfold Main.lifespan_startup. unfold bind at 1. rewrite G.
    destruct url as [|a url]; [congruence|].
    unfold bind at 1. unfold bind at 1.
    destruct (Db.initialize P (set_main_db (Some (Database_init (String a url))) w))
      as [r w1]. simpl in I. subst r. reflexivity. }
  split; [exact I|]. split; [exact L|].
  unfold Main.start. destruct (Main.lifespan_startup P w) as [r w1].
  simpl in L. subst r. reflexivity.
Qed.

Lemma startup_failure_is_fatal_witness :
  let down := {| Sim.closed := []; Sim.refuse_accept := []; Sim.store_up := false;
                 Sim.channel_up := true; Sim.rows := []; Sim.inbox := [];
                 Sim.env_url := Some "postgresql://localhost/orders" |} in
  let e := Sim.error "OSError" "connection refused" in
  (os_getenv Sim.platform "DATABASE_URL" (net (Sim.fresh down))
   = Some "postgresql://localhost/orders"
   /\ "postgresql://localhost/orders" <> ""
   /\ startup_blocked Sim.platform "postgresql://localhost/orders" (net (Sim.fresh down)) e)
  /\ fst (Main.start Sim.platform (Sim.fresh down)) = Main.StartupFailed e.
Proof.
  intros down e.
  assert (os_getenv Sim.platform "DATABASE_URL" (net (Sim.fresh down))
          = Some "postgresql://localhost/orders") as G by reflexivity.
  assert ("postgresql://localhost/orders" <> "") as N by discriminate.
  assert (startup_blocked Sim.platform "postgresql://localhost/orders"
            (net (Sim.fresh down)) e) as B by (left; reflexivity).
  split; [split; [exact G | split; [exact N | exact B]]|].
  exact (proj2 (proj2 (startup_failure_is_fatal Sim.platform (Sim.fresh down) _ e G N B))).
Defined.

(** With the store reachable and the channel registered the same code
    reaches its [yield]. *)
Lemma startup_succeeds :
  fst (Main.start Sim.platform (Sim.fresh Sim.quiet)) = Main.Serving.
Proof. reflexivity. Qed.

(** C9. [database.py] asks [models] for the name [DatabaseChange];
    [models.py] binds [DatabaseChangE] and no [DatabaseChange]. Importing
    [database] therefore raises [ImportError], importing [main], which
    imports [database], raises it too, and the process ends there whatever
    the state of the store and of the rest of the world: the lifespan never
    runs. *)
Theorem import_of_database_fails (P : Platform) (w : World P) (depth : nat) :
  (exists ns, fst (Imports.import_module (2 + depth) "models" []) = Ok ns
                 /\ Imports.bound "DatabaseChangE" ns = true
                 /\ Imports.bound "DatabaseChange" ns = false)
  /\ fst (Imports.import_module (2 + depth) "database" [])
     = Raise (Imports.ImportError "DatabaseChange" "models")
  /\ fst (Imports.import_module (3 + depth) "main" [])
     = Raise (Imports.ImportError "DatabaseChange" "models")
  /\ App.boot P w = (App.ImportFailed (Imports.ImportError "DatabaseChange" "models"), w).
Proof.
  split; [eexists; split; [reflexivity | split; reflexivity]|].
  split; [reflexivity|]. split; reflexivity.
Qed.

(* ===================================================================== *)
(** ** The empty update *)
(* ===================================================================== *)

(** C10. For every order id and every state of the store,
    [Database.update_order] with an update whose three fields are [None]
    returns [None] and leaves the whole world as it was: no statement goes
    to the store, so the store commits nothing and publishes no change, and
    nothing is sent to any client. The [PUT] endpoint, once the application
    has its database object, answers such a request with status 404 and
    detail [Order not found], again leaving the world as it was. *)
Theorem empty_update_is_not_found (P : Platform) (w : World P) (self : Database)
    (order_id : Z) :
  main_db w = Some self ->
  Db.update_order P self (PInt order_id) empty_update w = (Ok None, w)
  /\ Main.update_order P order_id empty_update w
     = (Raise (Main.HTTPException 404 "Order not found"), w)
  /\ queries (snd (Main.update_order P order_id empty_update w)) = queries w
  /\ sent_by (Main.update_order P order_id empty_update) w = [].
Proof.
  intros D.
  assert (Main.update_order P order_id empty_update w
          = (Raise (Main.HTTPException 404 "Order not found"), w)) as E.
  { unfold Main.update_order, try_except, bind, Main.with_db. rewrite D. reflexivity. }
  split; [reflexivity|]. split; [exact E|].
  unfold sent_by. rewrite E. simpl. split; [reflexivity|].
  rewrite <- (app_nil_r (wire w)) at 2. apply skipn_exact.
Qed.

Lemma empty_update_is_not_found_witness :
  let net7 := {| Sim.closed := []; Sim.refuse_accept := []; Sim.store_up := true;
                 Sim.channel_up := true;
                 Sim.rows := [PDict [("id", PInt 7); ("status", PStr "pending")]];
                 Sim.inbox := []; Sim.env_url := Some "postgresql://localhost/orders" |} in
  let w := snd (Main.start Sim.platform (Sim.fresh net7)) in
  let self := {| database_url := "postgresql://localhost/orders";
                 pool := Some 1; listener_connection := Some 2 |} in
  main_db w = Some self
  /\ fst (Db.get_order_by_id Sim.platform self (PInt 7) w)
     = Ok (Some (PDict [("id", PInt 7); ("status", PStr "pending")]))
  /\ Main.update_order Sim.platform 7 empty_update w
     = (Raise (Main.HTTPException 404 "Order not found"), w).
Proof.
  intros net7 w self.
  assert (main_db w = Some self) as D by reflexivity.
  split; [exact D|]. split; [reflexivity|].
  exact (proj1 (proj2 (empty_update_is_not_found Sim.platform w self 7 D))).
Defined.

(* ===================================================================== *)
(** ** What goes out on the push channel *)
(* ===================================================================== *)

Section EmitFacts.

Variable P : Platform.

Lemma silent_emits {A : Type} (Q : Wire -> Prop) (m : M P A) :
  silent m -> emits Q m.
Proof.
  intros S w. exists []. rewrite app_nil_r. split; [apply S | constructor].
Qed.


Lemma emits_bind {A B : Type} (Q : Wire -> Prop) (m : M P A) (k : A -> M P B) :
  emits Q m -> (forall a, emits Q (k a)) -> emits Q (bind m k).
Proof.
  intros Em Ek w. unfold bind.
  destruct (Em w) as (s1 & W1 & F1).
  destruct (m w) as [[a|e] w1]; simpl in *.
  - destruct (Ek a w1) as (s2 & W2 & F2).
    exists (s1 ++ s2)%list. rewrite W2, W1, app_assoc.
    split; [reflexivity | now apply Forall_app].
  - now exists s1.
Qed.

Lemma emits_try_except {A : Type} (Q : Wire -> Prop) (m : M P A) (h : Exn -> M P A) :
  emits Q m -> (forall e, emits Q (h e)) -> emits Q (try_except m h).
Proof.
  intros Em Eh w. unfold try_except.
  destruct (Em w) as (s1 & W1 & F1).
  destruct (m w) as [[a|e] w1]; simpl in *.
  - now exists s1.
  - destruct (Eh e w1) as (s2 & W2 & F2).
    exists (s1 ++ s2)%list. rewrite W2, W1, app_assoc.
    split; [reflexivity | now apply Forall_app].
Qed.

Lemma silent_bind {A B : Type} (m : M P A) (k : A -> M P B) :
  silent m -> (forall a, silent (k a)) -> silent (bind m k).
Proof.
  intros Sm Sk w. unfold bind. pose proof (Sm w) as H.
  destruct (m w) as [[a|e] w1]; simpl in *; [|assumption].
  now rewrite Sk.
Qed.

Lemma silent_lift {A : Type} (r : Result A) : silent (lift_result (P := P) r).
Proof. intros w. reflexivity. Qed.

Lemma silent_ret {A : Type} (a : A) : silent (ret (P := P) a).
Proof. intros w. reflexivity. Qed.

Lemma silent_raise {A : Type} (e : Exn) : silent (raise (P := P) (A := A) e).
Proof. intros w. reflexivity. Qed.

Lemma silent_logger_info (s : string) : silent (logger_info (P := P) s).
Proof. intros w. reflexivity. Qed.

Lemma silent_logger_error (s : string) : silent (logger_error (P := P) s).
Proof. intros w. reflexivity. Qed.

Lemma silent_extern {A : Type} (f : Net P -> Result A * Net P) : silent (extern f).
Proof. intros w. unfold extern. now destruct (f (net w)). Qed.

Lemma silent_disconnect (c : WebSocket) : silent (disconnect P c).
Proof. intros w. apply disconnect_frame. Qed.

Lemma silent_connect (c : WebSocket) : silent (connect P c).
Proof. intros w. apply connect_wire. Qed.

Lemma silent_with_db {A : Type} (method : string) (k : Database -> M P A) :
  (forall d, silent (k d)) -> silent (Main.with_db P method k).
Proof.
  intros S w. unfold Main.with_db. destruct (main_db w); [apply S | reflexivity].
Qed.

Lemma silent_acquire (self : Database) : silent (Db.acquire P self).
Proof. intros w. unfold Db.acquire. now destruct (pool self). Qed.

Lemma silent_fetchrow (p : Pool) (q : string) (vs : list SqlValue) :
  silent (Db.fetchrow P p q vs).
Proof.
  intros w. unfold Db.fetchrow, bind, extern. simpl.
  now destruct (pool_fetchrow P p q vs (net w)).
Qed.

Lemma silent_fetch (p : Pool) (q : string) (vs : list SqlValue) :
  silent (Db.fetch P p q vs).
Proof.
  intros w. unfold Db.fetch, bind, extern. simpl.
  now destruct (pool_fetch P p q vs (net w)).
Qed.

Lemma silent_update_order (self : Database) (order_id : PyVal) (u : OrderUpdate) :
  silent (Db.update_order P self order_id u).
Proof.
  unfold Db.update_order.
  destruct (Db.add_field _ _ _ _) as [[[|f fs] vs] n].
  - apply silent_ret.
  - apply silent_bind; [apply silent_acquire | intros; apply silent_fetchrow].
Qed.

Lemma silent_create_order (self : Database) (o : OrderCreate) :
  silent (Db.create_order P self o).
Proof.
  unfold Db.create_order.
  apply silent_bind; [apply silent_acquire|]. intros p.
  apply silent_bind; [apply silent_fetchrow|].
  intros [r|]; [apply silent_ret | apply silent_raise].
Qed.

Create HintDb quiet.
#[local] Hint Resolve silent_lift silent_ret silent_raise silent_logger_info
  silent_logger_error silent_extern silent_disconnect silent_connect
  silent_acquire silent_fetchrow silent_fetch silent_update_order
  silent_create_order : quiet.

Ltac hush :=
  repeat first
    [ solve [auto with quiet]
    | apply silent_with_db; intros ?
    | apply silent_bind; [|intros ?] ].

Lemma silent_create_order_request (data : PyVal) :
  silent (Main.create_order_request P data).
Proof. unfold Main.create_order_request. hush. Qed.

Lemma silent_update_order_request (data : PyVal) :
  silent (Main.update_order_request P data).
Proof. unfold Main.update_order_request. hush. Qed.

Lemma silent_delete_order_request (data : PyVal) :
  silent (Main.delete_order_request P data).
Proof. unfold Main.delete_order_request, Db.delete_order. hush. Qed.


Lemma emits_send_json_personal (Q : Wire -> Prop) (data : PyVal) (c : WebSocket) :
  (forall b, Q (WJson c data b)) -> emits Q (send_json_personal P data c).
Proof.
  intros H w. destruct (send_json_personal_spec P data c w) as (_ & W & _).
  eexists. split; [exact W|]. repeat constructor. apply H.
Qed.



Lemma emits_on_message (ws : WebSocket) (data : PyVal) :
  emits (session_shape ws) (Main.on_message P ws data).
Proof.
  assert (forall prefix e,
             emits (session_shape ws)
                   (send_json_personal P (Main.error_message prefix e) ws)) as H.
  { intros prefix e. apply emits_send_json_personal. intros b.
    exists b. right. now exists (prefix ++ text e). }
  unfold Main.on_message.
  apply emits_bind; [apply silent_emits; auto with quiet|]. intros mt.
  destruct (Main.is_str mt "create_order").
  { apply emits_try_except; auto.
    apply silent_emits, silent_create_order_request. }
  destruct (Main.is_str mt "update_order").
  { apply emits_try_except; auto.
    apply silent_emits, silent_update_order_request. }
  destruct (Main.is_str mt "delete_order").
  { apply emits_try_except; auto.
    apply silent_emits, silent_delete_order_request. }
  apply silent_emits; auto with quiet.
Qed.

Lemma emits_receive_loop (n : nat) (ws : WebSocket) :
  emits (session_shape ws) (Main.receive_loop P n ws).
Proof.
  induction n as [|n IH]; simpl.
  - apply silent_emits; auto with quiet.
  - apply emits_bind; [apply silent_emits; auto with quiet|]. intros data.
    apply emits_bind; [apply emits_on_message | intros _; exact IH].
Qed.




End EmitFacts.


(* ===================================================================== *)
(** ** More on the manager *)
(* ===================================================================== *)

Lemma remove_first_cons (x y : WebSocket) (l : list WebSocket) :
  remove_first x (y :: l) = if Nat.eqb x y then l else y :: remove_first x l.
Proof.
  unfold remove_first. simpl.
  destruct (Nat.eqb x y); [reflexivity|]. now destruct (list_remove x l).
Qed.

Lemma remove_first_last (c : WebSocket) (l : list WebSocket) :
  ~ In c l -> remove_first c (l ++ [c]) = l.
Proof.
  induction l as [|y l IH]; intros N; simpl.
  - now rewrite remove_first_cons, Nat.eqb_refl.
  - rewrite remove_first_cons.
    destruct (Nat.eqb_spec c y) as [->|D]; [exfalso; apply N; now left|].
    rewrite IH; [reflexivity|]. intros I. apply N. now right.
Qed.

Lemma others_absent (c : WebSocket) (l : list WebSocket) :
  ~ In c l -> others c l = l.
Proof.
  induction l as [|y l IH]; intros N; simpl; [reflexivity|].
  destruct (Nat.eqb_spec y c) as [->|D]; [exfalso; apply N; now left|].
  simpl. rewrite IH; [reflexivity|]. intros I. apply N. now right.
Qed.

Lemma remove_first_others (c : WebSocket) (l : list WebSocket) :
  NoDup l -> remove_first c l = others c l.
Proof.
  induction l as [|y l IH]; intros N; [reflexivity|].
  inversion N as [|? ? Ny Nl]; subst.
  rewrite remove_first_cons. simpl.
  destruct (Nat.eqb_spec c y) as [->|D].
  - rewrite Nat.eqb_refl. simpl. now rewrite others_absent.
  - assert (Nat.eqb y c = false) as E by (apply Nat.eqb_neq; congruence).
    rewrite E. simpl. now rewrite IH.
Qed.

Lemma others_NoDup (c : WebSocket) (l : list WebSocket) :
  NoDup l -> NoDup (others c l).
Proof. apply NoDup_filter. Qed.

Lemma others_remove_first (c : WebSocket) (l : list WebSocket) :
  others c (remove_first c l) = others c l.
Proof.
  induction l as [|y l IH]; [reflexivity|].
  rewrite remove_first_cons. simpl.
  destruct (Nat.eqb_spec c y) as [->|D].
  - now rewrite Nat.eqb_refl.
  - assert (Nat.eqb y c = false) as E by (apply Nat.eqb_neq; congruence).
    simpl. rewrite E. simpl. now rewrite IH.
Qed.

Lemma others_last (c : WebSocket) (l : list WebSocket) :
  others c (l ++ [c]) = others c l.
Proof.
  unfold others. rewrite filter_app. simpl. rewrite Nat.eqb_refl. simpl.
  apply app_nil_r.
Qed.

Lemma remove_first_comm (a b : WebSocket) (l : list WebSocket) :
  remove_first a (remove_first b l) = remove_first b (remove_first a l).
Proof.
  induction l as [|y l IH]; [reflexivity|].
  rewrite (remove_first_cons b y l), (remove_first_cons a y l).
  destruct (Nat.eqb_spec b y) as [->|Db]; destruct (Nat.eqb_spec a y) as [->|Da].
  - reflexivity.
  - rewrite remove_first_cons.
    assert (Nat.eqb y y = true) as E by apply Nat.eqb_refl. now rewrite E.
  - rewrite remove_first_cons.
    assert (Nat.eqb y y = true) as E by apply Nat.eqb_refl. now rewrite E.
  - rewrite !remove_first_cons.
    apply Nat.eqb_neq in Da, Db. rewrite Da, Db. now rewrite IH.
Qed.

Lemma contains_remove_first_other (a b : WebSocket) (l : list WebSocket) :
  a <> b -> contains a (remove_first b l) = contains a l.
Proof.
  intros D.
  assert (In a (remove_first b l) <-> In a l) as H.
  { rewrite !(count_occ_In Nat.eq_dec), remove_first_count.
    assert (Nat.eqb b a = false) as E by (apply Nat.eqb_neq; congruence).
    rewrite E. unfold WebSocket in *. lia. }
  destruct (contains a l) eqn:E.
  - apply contains_In. apply H. now apply contains_In.
  - apply contains_false. rewrite H. now apply contains_false.
Qed.

Lemma failed_of_count_le (sends : list Wire) (c : WebSocket) :
  count_occ Nat.eq_dec (failed_of sends) c <= count_occ Nat.eq_dec (map wire_ws sends) c.
Proof.
  unfold failed_of. induction sends as [|x sends IH]; simpl; [lia|].
  destruct (wire_delivered x); simpl; destruct (Nat.eq_dec (wire_ws x) c); lia.
Qed.

Lemma drop_all_length_exact (d : list WebSocket) : forall l : list WebSocket,
  (forall c, count_occ Nat.eq_dec d c <= count_occ Nat.eq_dec l c) ->
  List.length (drop_all d l) + List.length d = List.length l.
Proof.
  induction d as [|x d IH]; intros l H; simpl; [lia|].
  assert (In x l) as I.
  { apply (count_occ_In Nat.eq_dec). specialize (H x). simpl in H.
    destruct (Nat.eq_dec x x); [lia | congruence]. }
  pose proof (remove_first_length x l I) as L.
  change (fold_left (fun acc y => remove_first y acc) d (remove_first x l))
    with (drop_all d (remove_first x l)).
  rewrite <- L.
  rewrite <- (IH (remove_first x l)); [lia|].
  intros c. rewrite remove_first_count. specialize (H c). simpl in H.
  destruct (Nat.eq_dec x c) as [->|D].
  - rewrite Nat.eqb_refl. lia.
  - apply Nat.eqb_neq in D. rewrite D. lia.
Qed.

Lemma drop_all_others (d : list WebSocket) : forall l : list WebSocket,
  NoDup l ->
  drop_all d l = filter (fun c => negb (contains c d)) l.
Proof.
  induction d as [|x d IH]; intros l N.
  - simpl. induction l as [|y l IHl]; [reflexivity|].
    inversion N; subst. simpl. f_equal. now apply IHl.
  - change (drop_all (x :: d) l) with (drop_all d (remove_first x l)).
    rewrite remove_first_others by assumption.
    rewrite IH by now apply others_NoDup.
    unfold others. clear. induction l as [|y l IHl]; [reflexivity|].
    simpl. rewrite (Nat.eqb_sym y x).
    destruct (Nat.eqb x y); simpl; [assumption|].
    destruct (contains y d); simpl; [assumption | now f_equal].
Qed.

Section MoreManagerFacts.

Variable P : Platform.

Lemma broadcast_message_eq (message : string) (w : World P) :
  broadcast_message P message w =
  match registry w with
  | [] => (Ok tt, w)
  | _ :: _ =>
      (d <- broadcast_over P message "Error broadcasting message: " (registry w) [] ;;
       disconnect_all P d) w
  end.
Proof.
  unfold broadcast_message, bind at 1. unfold broadcast_message_begin, registry.
  destruct (active_connections (manager w)) as [|c l] eqn:E; [reflexivity|].
  unfold run_frame. rewrite E.
  rewrite (broadcast_run_over P (c :: l) [] _ w); simpl; auto.
Qed.

(** The common end of both broadcasts: one entry and one count go for each
    send that raised. *)
Lemma cleanup_accounts (message prefix : string) (w : World P) :
  exists sends w',
    (d <- broadcast_over P message prefix (registry w) [] ;; disconnect_all P d) w
    = (Ok tt, w')
    /\ wire w' = (wire w ++ sends)%list
    /\ map wire_ws sends = registry w
    /\ Forall (fun x => exists b, x = WText (wire_ws x) message b) sends
    /\ registry w' = drop_all (failed_of sends) (registry w)
    /\ List.length (registry w') + List.length (failed_of sends)
       = List.length (registry w)
    /\ connection_count (manager w')
       = (connection_count (manager w) - Z.of_nat (List.length (failed_of sends)))%Z.
Proof.
  unfold bind.
  destruct (broadcast_over_spec P message prefix (registry w) [] w)
    as (sends & w1 & E & W & Mp & F & Mg & _).
  rewrite E. simpl.
  destruct (disconnect_all_spec P (failed_of sends) w1)
    as (w' & E' & R' & B' & _ & W' & _).
  exists sends, w'. rewrite E'.
  assert (registry w1 = registry w) as R1 by (unfold registry; now rewrite Mg).
  assert (balance w1 = balance w) as B1 by (unfold balance, registry; now rewrite Mg).
  assert (List.length (registry w') + List.length (failed_of sends)
          = List.length (registry w)) as L.
  { rewrite R', R1. apply drop_all_length_exact.
    intros c. rewrite <- Mp. apply failed_of_count_le. }
  repeat split; try congruence.
  rewrite B1 in B'. unfold balance in B'. lia.
Qed.

End MoreManagerFacts.

(** X1. An uninterrupted [broadcast_message] never raises. It attempts one
    send of the text, as given, per entry of the registry and in the
    registry's order, and every send that raised costs the registry one
    entry of that connection and the counter one. *)
Theorem broadcast_message_accounts (P : Platform) (message : string) (w : World P) :
  let w' := snd (broadcast_message P message w) in
  let sends := sent_by (broadcast_message P message) w in
  fst (broadcast_message P message w) = Ok tt
  /\ map wire_ws sends = registry w
  /\ Forall (fun x => exists b, x = WText (wire_ws x) message b) sends
  /\ (forall c, count_occ Nat.eq_dec (registry w') c
                = count_occ Nat.eq_dec (registry w) c
                  - count_occ Nat.eq_dec (failed_of sends) c)
  /\ List.length (registry w') + List.length (failed_of sends) = List.length (registry w)
  /\ connection_count (manager w')
     = (connection_count (manager w) - Z.of_nat (List.length (failed_of sends)))%Z.
Proof.
  simpl. rewrite broadcast_message_eq.
  destruct (registry w) as [|c0 l] eqn:R.
  - assert (sent_by (broadcast_message P message) w = []) as S.
    { apply sent_by_app. now rewrite broadcast_message_eq, R, app_nil_r. }
    rewrite S. simpl. rewrite R. repeat split; auto. lia.
  - rewrite <- R.
    destruct (cleanup_accounts P message "Error broadcasting message: " w)
      as (sends & w' & E & W & Mp & F & R' & L & C).
    assert (sent_by (broadcast_message P message) w = sends) as S.
    { apply sent_by_app. rewrite broadcast_message_eq, R, <- R, E. exact W. }
    rewrite S, E. simpl. repeat split; auto.
    intros c. rewrite R'. apply drop_all_count.
Qed.

(** X2. An event that [json.dumps] rejects makes [broadcast_json] raise that
    exception before anything is sent, logged or unregistered, but only when
    somebody is registered: on an empty registry the call returns normally,
    and in both cases the world is left exactly as it was. *)
Theorem unserialisable_event (P : Platform) (data : PyVal) (e : Exn) (w : World P) :
  json_dumps P data = Raise e ->
  broadcast_json P data w
  = (match registry w with [] => Ok tt | _ :: _ => Raise e end, w).
Proof.
  intros J. rewrite broadcast_json_eq, J. now destruct (registry w).
Qed.

Lemma unserialisable_event_witness :
  let data := PDict [("updated_at", PDatetime "2024-01-01T00:00:00")] in
  let e := Sim.error "TypeError" "Object of type datetime is not JSON serializable" in
  json_dumps Sim.platform data = Raise e
  /\ broadcast_json Sim.platform data (Sim.with_connections [1; 2] Sim.quiet)
     = (Raise e, Sim.with_connections [1; 2] Sim.quiet)
  /\ broadcast_json Sim.platform data (Sim.fresh Sim.quiet)
     = (Ok tt, Sim.fresh Sim.quiet).
Proof.
  intros data e.
  assert (json_dumps Sim.platform data = Raise e) as J by reflexivity.
  split; [exact J|]. split.
  - exact (unserialisable_event Sim.platform data e _ J).
  - exact (unserialisable_event Sim.platform data e (Sim.fresh Sim.quiet) J).
Defined.

(** X3. After an uninterrupted [broadcast_json] on a registry without
    duplicates, the registry is the old one without the connections whose
    send raised: the survivors keep their relative order. The counter has
    dropped by the number of sends that raised. *)
Theorem broadcast_survivors_keep_order (P : Platform) (data : PyVal) (message : string)
    (w : World P) :
  json_dumps P data = Ok message ->
  NoDup (registry w) ->
  let w' := snd (broadcast_json P data w) in
  let failed := failed_of (sent_by (broadcast_json P data) w) in
  registry w' = filter (fun c => negb (contains c failed)) (registry w)
  /\ connection_count (manager w')
     = (connection_count (manager w) - Z.of_nat (List.length failed))%Z.
Proof.
  intros J N. simpl.
  assert (registry w = [] \/ registry w <> []) as [R|R]
      by (destruct (registry w); [now left | now right]).
  - assert (sent_by (broadcast_json P data) w = []) as S.
    { apply sent_by_app. now rewrite broadcast_json_eq, R, app_nil_r. }
    rewrite S, broadcast_json_eq, R. simpl. rewrite R. split; [reflexivity | lia].
  - destruct (cleanup_accounts P message "Error broadcasting to connection: " w)
      as (sends & w' & E & W & Mp & F & R' & L & C).
    assert (broadcast_json P data w = (Ok tt, w')) as B.
    { rewrite broadcast_json_eq, J. destruct (registry w); [congruence | exact E]. }
    rewrite (sent_by_app P _ w sends) by now rewrite B.
    rewrite B. simpl. split; [|exact C].
    rewrite R'. now apply drop_all_others.
Qed.

Lemma broadcast_survivors_keep_order_witness :
  let w := Sim.with_connections [4; 1; 3; 2] (Sim.with_closed [1; 2]) in
  json_dumps Sim.platform (PStr "ev") = Ok (Sim.render (PStr "ev"))
  /\ NoDup (registry w)
  /\ registry (snd (broadcast_json Sim.platform (PStr "ev") w))
     = filter (fun c => negb (contains c
                 (failed_of (sent_by (broadcast_json Sim.platform (PStr "ev")) w))))
              (registry w).
Proof.
  intros w.
  assert (json_dumps Sim.platform (PStr "ev") = Ok (Sim.render (PStr "ev"))) as J
      by reflexivity.
  assert (NoDup (registry w)) as N.
  { simpl. repeat constructor; simpl; intuition discriminate. }
  split; [exact J|]. split; [exact N|].
  exact (proj1 (broadcast_survivors_keep_order Sim.platform _ _ w J N)).
Defined.

(** X4. [connect] followed by [disconnect] of the same connection, when the
    handshake succeeds and the connection was not registered before, leaves
    the manager, list and counter, exactly as it was. *)
Theorem connect_then_disconnect (P : Platform) (c : WebSocket) (w : World P) :
  is_ok (fst (ws_accept P c (net w))) = true ->
  ~ In c (registry w) ->
  manager (snd (disconnect P c (snd (connect P c w)))) = manager w.
Proof.
  intros A N. rewrite connect_eq.
  destruct (ws_accept P c (net w)) as [[[]|e] n]; [|discriminate].
  cbn [snd]. rewrite disconnect_eq.
  match goal with |- context [contains c (registry ?v)] =>
    assert (registry v = (registry w ++ [c])%list) as R by reflexivity end.
  rewrite R.
  assert (contains c (registry w ++ [c]) = true) as C.
  { apply contains_In. apply in_or_app. right. now left. }
  rewrite C. cbn [snd manager push_log set_manager connection_count].
  rewrite remove_first_last by assumption.
  unfold registry. destruct (manager w) as [l k]. simpl. f_equal. lia.
Qed.

Lemma connect_then_disconnect_witness :
  let w := Sim.with_connections [1; 2] Sim.quiet in
  is_ok (fst (ws_accept Sim.platform 7 (net w))) = true
  /\ ~ In 7 (registry w)
  /\ manager (snd (disconnect Sim.platform 7 (snd (connect Sim.platform 7 w))))
     = manager w.
Proof.
  intros w.
  assert (is_ok (fst (ws_accept Sim.platform 7 (net w))) = true) as A by reflexivity.
  assert (~ In 7 (registry w)) as N by (simpl; intuition discriminate).
  split; [exact A|]. split; [exact N|].
  exact (connect_then_disconnect Sim.platform 7 w A N).
Defined.

(** X5. [send_personal_message] never raises. It attempts exactly one send
    of the text to its connection; when that send returns, the manager is
    untouched; when it raises, one entry of the connection leaves the
    registry, the counter follows, and the entries of every other
    connection stay as they were. *)
Theorem send_personal_message_isolated (P : Platform) (message : string)
    (c : WebSocket) (w : World P) :
  let b := is_ok (fst (ws_send_text P c message (net w))) in
  let w' := snd (send_personal_message P message c w) in
  fst (send_personal_message P message c w) = Ok tt
  /\ sent_by (send_personal_message P message c) w = [WText c message b]
  /\ manager w' = (if b then manager w
                   else manager (snd (disconnect P c w)))
  /\ others c (registry w') = others c (registry w)
  /\ balance w' = balance w.
Proof.
  simpl. unfold sent_by, send_personal_message, try_except, send_text, bind,
    logger_error.
  destruct (ws_send_text P c message (net w)) as [[[]|e] n]; cbn [fst snd is_ok].
  - simpl. rewrite skipn_exact. repeat split; reflexivity.
  - match goal with |- context [disconnect P c ?v] =>
      pose proof (disconnect_ok P c v) as Hok;
      pose proof (disconnect_registry P c v) as Hreg;
      pose proof (disconnect_balance P c v) as Hbal;
      pose proof (disconnect_frame P c v) as (_ & Hw & _);
      assert (manager (snd (disconnect P c v)) = manager (snd (disconnect P c w)))
        as Hm by (rewrite !disconnect_eq;
                  change (registry v) with (registry w);
                  now destruct (contains c (registry w)))
    end.
    split; [exact Hok|]. split.
    + rewrite Hw. simpl. apply skipn_exact.
    + split; [exact Hm|]. split; [|exact Hbal].
      rewrite Hreg. apply others_remove_first.
Qed.

(** X6. Two [disconnect] calls commute: whichever connection is unregistered
    first, the registry, the counter, the log and the rest of the world end
    up the same. *)
Theorem disconnects_commute (P : Platform) (a b : WebSocket) (w : World P) :
  snd (disconnect P b (snd (disconnect P a w)))
  = snd (disconnect P a (snd (disconnect P b w))).
Proof.
  destruct (Nat.eq_dec a b) as [->|D]; [reflexivity|].
  rewrite (disconnect_eq P a w), (disconnect_eq P b w).
  destruct (contains a (registry w)) eqn:Ca;
    destruct (contains b (registry w)) eqn:Cb; cbn [snd];
    rewrite !disconnect_eq; unfold registry in *; simpl;
    try rewrite (contains_remove_first_other b a) by congruence;
    try rewrite (contains_remove_first_other a b) by congruence;
    rewrite ?Ca, ?Cb; simpl; try reflexivity.
  rewrite remove_first_comm. reflexivity.
Qed.

(* ===================================================================== *)
(** ** What a coroutine leaves alone *)
(* ===================================================================== *)

Section StepFacts.

Variable P : Platform.
Variable R : World P -> World P -> Prop.
Hypothesis R_refl : forall w, R w w.
Hypothesis R_trans : forall a b c, R a b -> R b c -> R a c.

Lemma steps_ret {A : Type} (a : A) : steps R (ret (P := P) a).
Proof. intros w. apply R_refl. Qed.

Lemma steps_raise {A : Type} (e : Exn) : steps R (raise (P := P) (A := A) e).
Proof. intros w. apply R_refl. Qed.

Lemma steps_lift {A : Type} (r : Result A) : steps R (lift_result (P := P) r).
Proof. intros w. apply R_refl. Qed.

Lemma steps_bind {A B : Type} (m : M P A) (k : A -> M P B) :
  steps R m -> (forall a, steps R (k a)) -> steps R (bind m k).
Proof.
  intros Sm Sk w. unfold bind. pose proof (Sm w) as H.
  destruct (m w) as [[a|e] w1]; simpl in *; [|assumption].
  eapply R_trans; [exact H | apply Sk].
Qed.

Lemma steps_try_except {A : Type} (m : M P A) (h : Exn -> M P A) :
  steps R m -> (forall e, steps R (h e)) -> steps R (try_except m h).
Proof.
  intros Sm Sh w. unfold try_except. pose proof (Sm w) as H.
  destruct (m w) as [[a|e] w1]; simpl in *; [assumption|].
  eapply R_trans; [exact H | apply Sh].
Qed.

Lemma steps_with_db {A : Type} (method : string) (k : Database -> M P A) :
  (forall d, steps R (k d)) -> steps R (Main.with_db P method k).
Proof.
  intros S w. unfold Main.with_db. destruct (main_db w); [apply S | apply R_refl].
Qed.

(** A relation that looks at the manager, the wire and the [db] global alone
    holds across every call that leaves the three alone. *)
Hypothesis R_quiet :
  forall w w', manager w' = manager w -> wire w' = wire w ->
               main_db w' = main_db w -> R w w'.

Lemma steps_extern {A : Type} (f : Net P -> Result A * Net P) : steps R (extern f).
Proof. intros w. unfold extern. destruct (f (net w)). now apply R_quiet. Qed.

Lemma steps_logger_info (s : string) : steps R (logger_info (P := P) s).
Proof. intros w. now apply R_quiet. Qed.

Lemma steps_logger_error (s : string) : steps R (logger_error (P := P) s).
Proof. intros w. now apply R_quiet. Qed.

Lemma steps_acquire (self : Database) : steps R (Db.acquire P self).
Proof. intros w. unfold Db.acquire. destruct (pool self); now apply R_quiet. Qed.

Lemma steps_fetchrow (p : Pool) (q : string) (vs : list SqlValue) :
  steps R (Db.fetchrow P p q vs).
Proof.
  intros w. unfold Db.fetchrow, bind, extern. simpl.
  destruct (pool_fetchrow P p q vs (net w)). now apply R_quiet.
Qed.

Lemma steps_fetch (p : Pool) (q : string) (vs : list SqlValue) :
  steps R (Db.fetch P p q vs).
Proof.
  intros w. unfold Db.fetch, bind, extern. simpl.
  destruct (pool_fetch P p q vs (net w)). now apply R_quiet.
Qed.

Lemma steps_update_order (self : Database) (order_id : PyVal) (u : OrderUpdate) :
  steps R (Db.update_order P self order_id u).
Proof.
  unfold Db.update_order.
  destruct (Db.add_field _ _ _ _) as [[[|f fs] vs] n].
  - apply steps_ret.
  - apply steps_bind; [apply steps_acquire | intros; apply steps_fetchrow].
Qed.

Lemma steps_create_order (self : Database) (o : OrderCreate) :
  steps R (Db.create_order P self o).
Proof.
  unfold Db.create_order.
  apply steps_bind; [apply steps_acquire|]. intros p.
  apply steps_bind; [apply steps_fetchrow|].
  intros [r|]; [apply steps_ret | apply steps_raise].
Qed.

Create HintDb calm.
#[local] Hint Resolve steps_ret steps_raise steps_lift steps_extern
  steps_logger_info steps_logger_error steps_acquire steps_fetchrow steps_fetch
  steps_update_order steps_create_order : calm.

Ltac calm :=
  repeat first
    [ solve [auto with calm]
    | apply steps_with_db; intros ?
    | apply steps_try_except; [|intros ?]
    | apply steps_bind; [|intros ?] ].

Lemma steps_get_all_orders (self : Database) : steps R (Db.get_all_orders P self).
Proof. unfold Db.get_all_orders. calm. Qed.

Lemma steps_delete_order (self : Database) (order_id : PyVal) :
  steps R (Db.delete_order P self order_id).
Proof. unfold Db.delete_order. calm. Qed.

Lemma steps_get_order_by_id (self : Database) (order_id : PyVal) :
  steps R (Db.get_order_by_id P self order_id).
Proof. unfold Db.get_order_by_id. calm. Qed.

Lemma steps_create_order_request (data : PyVal) :
  steps R (Main.create_order_request P data).
Proof.
  unfold Main.create_order_request. calm.
Qed.

Lemma steps_update_order_request (data : PyVal) :
  steps R (Main.update_order_request P data).
Proof. unfold Main.update_order_request. calm. Qed.

Lemma steps_delete_order_request (data : PyVal) :
  steps R (Main.delete_order_request P data).
Proof.
  unfold Main.delete_order_request. calm; apply steps_delete_order.
Qed.

Lemma steps_put (order_id : Z) (u : OrderUpdate) :
  steps R (Main.update_order P order_id u).
Proof.
  unfold Main.update_order. apply steps_try_except.
  - apply steps_bind; [calm|]. intros [row|]; [|apply steps_raise].
    destruct (truthy (Some row)); auto with calm.
  - intros e. destruct (kind e); calm.
Qed.

Lemma steps_serve (req : Rest.Request) : steps R (Rest.serve P req).
Proof.
  destruct req as [|order|order_id|order_id u|order_id]; simpl.
  - unfold Rest.get_orders. calm; apply steps_get_all_orders.
  - unfold Rest.create_order. calm.
  - unfold Rest.get_order. apply steps_try_except.
    + apply steps_bind; [calm; apply steps_get_order_by_id|].
      intros [row|]; [|apply steps_raise].
      destruct (truthy (Some row)); auto with calm.
    + intros e. destruct (kind e); calm.
  - apply steps_put.
  - unfold Rest.delete_order. apply steps_try_except.
    + apply steps_bind; [calm; apply steps_delete_order|].
      intros [row|]; [|apply steps_raise].
      destruct (truthy (Some row)); auto with calm.
    + intros e. destruct (kind e); calm.
Qed.

End StepFacts.

(* ===================================================================== *)
(** ** Sessions *)
(* ===================================================================== *)

Lemma session_step_refl (P : Platform) (ws : WebSocket) (w : World P) :
  session_step ws w w.
Proof. unfold session_step. auto. Qed.

Lemma session_step_trans (P : Platform) (ws : WebSocket) (a b c : World P) :
  session_step ws a b -> session_step ws b c -> session_step ws a c.
Proof.
  intros (O1 & C1 & B1) (O2 & C2 & B2). unfold session_step.
  split; [congruence|]. split; [unfold WebSocket in *; lia | congruence].
Qed.

Lemma session_step_manager (P : Platform) (ws : WebSocket) (w w' : World P) :
  manager w' = manager w -> session_step ws w w'.
Proof.
  intros E. unfold session_step, balance, registry. rewrite E. auto.
Qed.

Lemma session_step_quiet (P : Platform) (ws : WebSocket) (w w' : World P) :
  manager w' = manager w -> wire w' = wire w -> main_db w' = main_db w ->
  session_step ws w w'.
Proof. intros E _ _. now apply session_step_manager. Qed.

Lemma session_step_remove (P : Platform) (ws : WebSocket) (w w' : World P) :
  registry w' = remove_first ws (registry w) -> balance w' = balance w ->
  session_step ws w w'.
Proof.
  intros R B. unfold session_step. rewrite R. split; [apply others_remove_first|].
  split; [|assumption]. rewrite remove_first_count. unfold WebSocket in *. lia.
Qed.

Section SessionFacts.

Variable P : Platform.
Variable ws : WebSocket.

Ltac side :=
  first [ apply session_step_refl | apply session_step_trans
        | apply session_step_quiet ].

Lemma own_disconnect : steps (session_step ws) (disconnect P ws).
Proof.
  intros w. apply session_step_remove;
    [apply disconnect_registry | apply disconnect_balance].
Qed.

Lemma own_send_json_personal (data : PyVal) :
  steps (session_step ws) (send_json_personal P data ws).
Proof.
  intros w. destruct (send_json_personal_spec P data ws w) as (_ & _ & R & B & _).
  destruct (is_ok _).
  - apply session_step_manager. unfold balance, registry in *.
    destruct (manager (snd (send_json_personal P data ws w))) as [l k].
    destruct (manager w) as [l0 k0]. simpl in *. subst l. f_equal. lia.
  - now apply session_step_remove.
Qed.

Lemma own_on_message (data : PyVal) :
  steps (session_step ws) (Main.on_message P ws data).
Proof.
  unfold Main.on_message.
  apply steps_bind; [side | apply steps_lift; side |]. intros mt.
  destruct (Main.is_str mt "create_order").
  { apply steps_try_except; [side | | intros e; apply own_send_json_personal].
    apply steps_create_order_request; side. }
  destruct (Main.is_str mt "update_order").
  { apply steps_try_except; [side | | intros e; apply own_send_json_personal].
    apply steps_update_order_request; side. }
  destruct (Main.is_str mt "delete_order").
  { apply steps_try_except; [side | | intros e; apply own_send_json_personal].
    apply steps_delete_order_request; side. }
  apply steps_ret; side.
Qed.

Lemma own_receive_loop (n : nat) :
  steps (session_step ws) (Main.receive_loop P n ws).
Proof.
  induction n as [|n IH]; simpl.
  - apply steps_ret; side.
  - apply steps_bind; [side | apply steps_extern; side |]. intros data.
    apply steps_bind; [side | apply own_on_message | intros _; exact IH].
Qed.

Lemma own_session_body (n : nat) : steps (session_step ws) (session_body P n ws).
Proof.
  unfold session_body.
  apply steps_bind; [side | |].
  - apply steps_with_db; [side|]. intros d. apply steps_get_all_orders; side.
  - intros orders. apply steps_bind; [side | apply own_send_json_personal |].
    intros _. apply own_receive_loop.
Qed.

(** The two [except] clauses of [websocket_endpoint]: both end in
    [manager.disconnect(websocket)], after which the coroutine returns. *)
Lemma session_handler (e : Exn) (w : World P) :
  let h := session_except P ws e in
  fst (h w) = Ok Main.Returned
  /\ registry (snd (h w)) = remove_first ws (registry w)
  /\ balance (snd (h w)) = balance w
  /\ wire (snd (h w)) = wire w
  /\ queries (snd (h w)) = queries w.
Proof.
  assert (forall v : World P,
             let r := (disconnect P ws ;; ret Main.Returned) v in
             fst r = Ok Main.Returned
             /\ registry (snd r) = remove_first ws (registry v)
             /\ balance (snd r) = balance v
             /\ wire (snd r) = wire v
             /\ queries (snd r) = queries v) as D.
  { intros v. unfold bind, ret.
    pose proof (disconnect_ok P ws v) as O.
    pose proof (disconnect_registry P ws v) as Rg.
    pose proof (disconnect_balance P ws v) as B.
    destruct (disconnect_frame P ws v) as (_ & W & _ & Q).
    destruct (disconnect P ws v) as [[[]|x] v']; [|discriminate].
    cbn [fst snd] in *. auto. }
  cbv zeta. unfold session_except. destruct (kind e); try apply D;
    exact (D (push_log (ERROR, "WebSocket error: " ++ text e) w)).
Qed.

Lemma endpoint_unfold (n : nat) (w : World P) :
  Main.websocket_endpoint P n ws w
  = match connect P ws w with
    | (Ok _, w1) => session_guard P n ws w1
    | (Raise e, w1) => (Raise e, w1)
    end.
Proof. reflexivity. Qed.

Lemma own_session_guard (n : nat) : steps (session_step ws) (session_guard P n ws).
Proof.
  apply steps_try_except; [side | apply own_session_body |].
  intros e w. destruct (session_handler e w) as (_ & R & B & _).
  now apply session_step_remove.
Qed.

(** A session whose handshake and first query went through, up to its
    first send. *)
Lemma attach_unfold (w : World P) (self : Database) (p : Pool) (orders : list PyVal)
    (net1 net2 : Net P) :
  main_db w = Some self ->
  pool self = Some p ->
  ws_accept P ws (net w) = (Ok tt, net1) ->
  pool_fetch P p Db.query_get_all_orders [] net1 = (Ok orders, net2) ->
  exists w2 : World P,
    net w2 = net2
    /\ registry w2 = (registry w ++ [ws])%list
    /\ balance w2 = balance w
    /\ wire w2 = wire w
    /\ main_db w2 = main_db w
    /\ forall k : nat,
         Main.websocket_endpoint P k ws w
         = try_except
             (send_json_personal P (Main.initial_data orders) ws ;;
              Main.receive_loop P k ws)
             (session_except P ws) w2.
Proof.
  intros D Pl A F.
  pose proof (connect_registry P ws w) as R.
  pose proof (connect_balance P ws w) as B.
  pose proof (connect_wire P ws w) as W.
  exists (set_net net2 (push_query (Db.query_get_all_orders, [])
                                   (snd (connect P ws w)))).
  rewrite connect_eq, A in R, B, W |- *. cbn [fst snd is_ok] in *.
  split; [reflexivity|]. split; [exact R|]. split; [exact B|].
  split; [exact W|]. split; [reflexivity|].
  intros k. rewrite endpoint_unfold, connect_eq, A.
  unfold session_guard, try_except, session_body.
  unfold bind at 1. unfold Main.with_db. cbn [main_db push_log set_manager set_net].
  rewrite D. unfold Db.get_all_orders, Db.acquire. rewrite Pl.
  unfold bind at 1. unfold ret at 1. unfold Db.fetch, bind at 1.
  unfold extern. cbn [net push_query push_log set_manager set_net]. rewrite F.
  reflexivity.
Qed.

(** The receive loop has no normal exit: followed for any number of
    messages without an exception, it is still waiting. *)
Lemma receive_loop_suspended (n : nat) : forall (w : World P) (r : Main.Progress),
  fst (Main.receive_loop P n ws w) = Ok r -> r = Main.Suspended.
Proof.
  induction n as [|n IH]; intros w r H; simpl in H.
  - now inversion H.
  - unfold bind in H.
    destruct (extern (ws_receive_json P ws) w) as [[data|e] w1]; [|discriminate].
    destruct (Main.on_message P ws data w1) as [[[]|e] w2]; [|discriminate].
    now apply (IH w2).
Qed.

(** Once the loop has raised, what the client would have sent after that is
    never read: following it for longer changes nothing. *)
Lemma receive_loop_raised (n : nat) : forall (w : World P) (e : Exn),
  fst (Main.receive_loop P n ws w) = Raise e ->
  forall m : nat, n <= m -> Main.receive_loop P m ws w = Main.receive_loop P n ws w.
Proof.
  induction n as [|n IH]; intros w e H m L; simpl in H; [discriminate|].
  destruct m as [|m]; [lia|]. simpl. unfold bind in *.
  destruct (extern (ws_receive_json P ws) w) as [[data|x] w1]; [|reflexivity].
  destruct (Main.on_message P ws data w1) as [[[]|x] w2]; [|reflexivity].
  apply (IH w2 e H). lia.
Qed.

Lemma session_body_suspended (n : nat) (w : World P) (r : Main.Progress) :
  fst (session_body P n ws w) = Ok r -> r = Main.Suspended.
Proof.
  unfold session_body, bind. intros H.
  destruct (Main.with_db P "get_all_orders" (Db.get_all_orders P) w)
    as [[orders|e] w1]; [|discriminate].
  destruct (send_json_personal P (Main.initial_data orders) ws w1)
    as [[[]|e] w2]; [|discriminate].
  now apply (receive_loop_suspended n w2).
Qed.

Lemma session_body_raised (n : nat) (w : World P) (e : Exn) :
  fst (session_body P n ws w) = Raise e ->
  forall m : nat, n <= m -> session_body P m ws w = session_body P n ws w.
Proof.
  unfold session_body, bind. intros H m L.
  destruct (Main.with_db P "get_all_orders" (Db.get_all_orders P) w)
    as [[orders|x] w1]; [|reflexivity].
  destruct (send_json_personal P (Main.initial_data orders) ws w1)
    as [[[]|x] w2]; [|reflexivity].
  now apply (receive_loop_raised n w2 e).
Qed.

End SessionFacts.

(* ===================================================================== *)
(** ** Requests over the push channel *)
(* ===================================================================== *)

Section RequestFacts.

Variable P : Platform.

Lemma update_order_eq (self : Database) (order_id : PyVal) (u : OrderUpdate)
    (w : World P) :
  Db.update_order P self order_id u w
  = match set_fields u with
    | [] => (Ok None, w)
    | fields =>
        (connection <- Db.acquire P self ;;
         Db.fetchrow P connection (update_statement fields)
                     (map snd fields ++ [SqlPy order_id])%list) w
    end.
Proof. destruct u as [[c|] [pr|] [st|]]; reflexivity. Qed.

(** A statement sent through [db]: what the caller gets is the store's
    answer. *)
Lemma with_db_fetchrow (method query : string) (values : list SqlValue) (w : World P) :
  fst (Main.with_db P method
         (fun self => connection <- Db.acquire P self ;;
                      Db.fetchrow P connection query values) w)
  = store_answer P w method query values.
Proof.
  unfold Main.with_db, store_answer, Db.acquire, Db.fetchrow, bind, extern, ret, raise.
  destruct (main_db w) as [self|]; [|reflexivity].
  destruct (pool self) as [p|]; [|reflexivity]. cbn [net push_query].
  now destruct (pool_fetchrow P p query values (net w)).
Qed.

Lemma create_order_request_outcome (kvs : list (string * PyVal)) (w : World P) :
  fst (Main.create_order_request P (PDict kvs) w)
  = match OrderCreate_init P (field (PDict kvs) "data" (PDict [])) with
    | Raise e => Raise e
    | Ok order =>
        match store_answer P w "create_order" Db.query_create_order
                [SqlStr (oc_customer_name order); SqlStr (oc_product_name order);
                 SqlStatus (oc_status order)] with
        | Raise e => Raise e
        | Ok None => Raise Db.TypeError_dict_None
        | Ok (Some _) => Ok tt
        end
    end.
Proof.
  unfold Main.create_order_request, bind, lift_result. cbn [Main.dict_get_or field].
  destruct (OrderCreate_init P _) as [order|e]; [|reflexivity].
  unfold Main.with_db, store_answer, Db.create_order, Db.acquire, Db.fetchrow,
    bind, extern, ret, raise.
  destruct (main_db w) as [self|]; [|reflexivity].
  destruct (pool self) as [p|]; [|reflexivity]. cbn [net push_query].
  now destruct (pool_fetchrow P p Db.query_create_order _ (net w)) as [[[r|]|e] n].
Qed.

Lemma update_order_request_outcome (kvs : list (string * PyVal)) (w : World P) :
  fst (Main.update_order_request P (PDict kvs) w)
  = match OrderUpdate_init P (field (PDict kvs) "updates" (PDict [])) with
    | Raise e => Raise e
    | Ok order_update =>
        match main_db w, set_fields order_update with
        | None, _ => Raise (Db.AttributeError_None "update_order")
        | Some _, [] => Ok tt
        | Some _, fields =>
            match store_answer P w "update_order" (update_statement fields)
                    (map snd fields ++ [SqlPy (field (PDict kvs) "id" PNone)])%list with
            | Raise e => Raise e
            | Ok _ => Ok tt
            end
        end
    end.
Proof.
  unfold Main.update_order_request, bind, lift_result. cbn [Main.dict_get_or field].
  destruct (OrderUpdate_init P _) as [u|e]; [|reflexivity].
  unfold Main.with_db, store_answer.
  destruct (main_db w) as [self|] eqn:D; [|reflexivity].
  rewrite update_order_eq.
  destruct (set_fields u) as [|fd fields]; [reflexivity|].
  unfold Db.acquire, Db.fetchrow, bind, extern, ret, raise.
  destruct (pool self) as [p|]; [|reflexivity]. cbn [net push_query].
  now destruct (pool_fetchrow P p _ _ (net w)) as [[r|e] n].
Qed.

Lemma delete_order_request_outcome (kvs : list (string * PyVal)) (w : World P) :
  fst (Main.delete_order_request P (PDict kvs) w)
  = match store_answer P w "delete_order" Db.query_delete_order
            [SqlPy (field (PDict kvs) "id" PNone)] with
    | Raise e => Raise e
    | Ok _ => Ok tt
    end.
Proof.
  unfold Main.delete_order_request, bind, lift_result. cbn [Main.dict_get_or field].
  unfold Main.with_db, store_answer, Db.delete_order, Db.acquire, Db.fetchrow,
    bind, extern, ret, raise.
  destruct (main_db w) as [self|]; [|reflexivity].
  destruct (pool self) as [p|]; [|reflexivity]. cbn [net push_query].
  now destruct (pool_fetchrow P p Db.query_delete_order _ (net w)) as [[r|e] n].
Qed.



(** The refused requests are those whose [try] body raises, with the same
    prefix and the same exception. *)
Lemma rejected_is_refusal (data message_type : PyVal) (w : World P)
    (prefix : string) (e : Exn) :
  Main.dict_get_or P data "type" PNone = Ok message_type ->
  (rejected P data w prefix e <-> refusal P w data = Some (prefix, e)).
Proof.
  intros T. destruct data as [| | | | | | |kvs]; try discriminate.
  cbn [Main.dict_get_or] in T. inversion T as [Tm]. clear T.
  assert (forall t : PyVal,
             Main.is_str t "create_order" = true ->
             Main.is_str t "update_order" = false
             /\ Main.is_str t "delete_order" = false) as Xc.
  { intros [| | | |t| | |] H; try discriminate.
    apply String.eqb_eq in H. subst t. split; reflexivity. }
  assert (forall t : PyVal,
             Main.is_str t "update_order" = true ->
             Main.is_str t "create_order" = false
             /\ Main.is_str t "delete_order" = false) as Xu.
  { intros [| | | |t| | |] H; try discriminate.
    apply String.eqb_eq in H. subst t. split; reflexivity. }
  assert (forall t : PyVal,
             Main.is_str t "delete_order" = true ->
             Main.is_str t "create_order" = false
             /\ Main.is_str t "update_order" = false) as Xd.
  { intros [| | | |t| | |] H; try discriminate.
    apply String.eqb_eq in H. subst t. split; reflexivity. }
  unfold rejected, refusal. cbn [Main.dict_get_or field]. rewrite Tm.
  rewrite create_order_request_outcome, update_order_request_outcome,
    delete_order_request_outcome.
  split.
  - intros (m & Em & C). inversion Em; subst m. clear Em.
    destruct C as [(C & -> & R)|[(C & -> & R)|(C & -> & R)]].
    + rewrite C. destruct (OrderCreate_init P _) as [order|x]; [|now inversion R].
      destruct (store_answer P w "create_order" _ _) as [[r|]|x];
        [discriminate | now inversion R | now inversion R].
    + destruct (Xu _ C) as (Nc & _). rewrite Nc, C.
      destruct (OrderUpdate_init P _) as [u|x]; [|now inversion R].
      destruct (main_db w) as [self|]; [|now inversion R].
      destruct (set_fields u) as [|fd fields]; [discriminate|].
      unfold refused_by. cbv zeta in R |- *.
      destruct (store_answer P w "update_order" _ _) as [r|x];
        [discriminate | now inversion R].
    + destruct (Xd _ C) as (Nc & Nu). rewrite Nc, Nu, C. unfold refused_by.
      destruct (store_answer P w "delete_order" _ _) as [r|x];
        [discriminate | now inversion R].
  - intros H. exists message_type. split; [reflexivity|].
    destruct (Main.is_str message_type "create_order") eqn:C.
    { left. split; [reflexivity|].
      destruct (OrderCreate_init P _) as [order|x]; [|now inversion H].
      destruct (store_answer P w "create_order" _ _) as [[r|]|x];
        [discriminate | now inversion H | now inversion H]. }
    destruct (Main.is_str message_type "update_order") eqn:U.
    { right. left. split; [reflexivity|].
      destruct (OrderUpdate_init P _) as [u|x]; [|now inversion H].
      destruct (main_db w) as [self|]; [|now inversion H].
      destruct (set_fields u) as [|fd fields]; [discriminate|].
      unfold refused_by in H. cbv zeta in H |- *.
      destruct (store_answer P w "update_order" _ _) as [r|x];
        [discriminate | now inversion H]. }
    destruct (Main.is_str message_type "delete_order") eqn:Dl; [|discriminate].
    right. right. split; [reflexivity|]. unfold refused_by in H.
    destruct (store_answer P w "delete_order" _ _) as [r|x];
      [discriminate | now inversion H].
Qed.



End RequestFacts.




(** X7. The only exception that leaves [websocket_endpoint] is the one of a
    failed handshake, and then nothing has happened but the handshake
    attempt: no registration, no statement to the store, no send, no log
    record. Once [accept] has returned, no exception leaves the endpoint,
    and it has no normal way out of [while True]: as long as nothing in
    its [try] block has raised it is still suspended in [receive_json], and
    as soon as something there has raised (the client going away, the
    store failing, a message that is no JSON object) it has returned
    through an [except] clause, after which nothing more of the session
    runs however long it is followed. *)
Theorem endpoint_raises_only_on_handshake (P : Platform) (n : nat) (ws : WebSocket)
    (w : World P) :
  match ws_accept P ws (net w) with
  | (Raise e, net') => Main.websocket_endpoint P n ws w = (Raise e, set_net net' w)
  | (Ok _, _) =>
      match fst (session_body P n ws (snd (connect P ws w))) with
      | Ok _ => fst (Main.websocket_endpoint P n ws w) = Ok Main.Suspended
      | Raise _ =>
          fst (Main.websocket_endpoint P n ws w) = Ok Main.Returned
          /\ forall m : nat,
               n <= m ->
               Main.websocket_endpoint P m ws w = Main.websocket_endpoint P n ws w
      end
  end.
Proof.
  destruct (ws_accept P ws (net w)) as [[[]|e] net'] eqn:A.
  2:{ rewrite endpoint_unfold, connect_eq, A. reflexivity. }
  assert (forall k : nat,
             Main.websocket_endpoint P k ws w
             = session_guard P k ws (snd (connect P ws w))) as U.
  { intros k. rewrite endpoint_unfold, connect_eq, A. reflexivity. }
  rewrite U. set (w1 := snd (connect P ws w)).
  destruct (session_body P n ws w1) as [[r|e] w2] eqn:B; cbn [fst].
  - unfold session_guard, try_except. rewrite B. cbn [fst].
    f_equal. apply (session_body_suspended P ws n w1). now rewrite B.
  - split.
    + unfold session_guard, try_except. rewrite B. apply session_handler.
    + intros m L. rewrite !U. fold w1. unfold session_guard, try_except.
      rewrite (session_body_raised P ws n w1 e); [reflexivity | now rewrite B | exact L].
Qed.

(** X8. A session changes the registry only in the entries of its own
    connection: the entries of all other connections are the same, in the
    same order, after [websocket_endpoint] as before it, the session adds at
    most one entry of its own connection, and the counter stays in step
    with the list. *)
Theorem session_leaves_others_alone (P : Platform) (n : nat) (ws : WebSocket)
    (w : World P) :
  let w' := snd (Main.websocket_endpoint P n ws w) in
  others ws (registry w') = others ws (registry w)
  /\ count_occ Nat.eq_dec (registry w') ws <= S (count_occ Nat.eq_dec (registry w) ws)
  /\ balance w' = balance w.
Proof.
  simpl. rewrite endpoint_unfold.
  pose proof (connect_registry P ws w) as R.
  pose proof (connect_balance P ws w) as B.
  destruct (connect P ws w) as [[[]|e] w1]; cbn [fst snd is_ok] in *.
  - destruct (own_session_guard P ws n w1) as (O & C & B').
    rewrite O, R, others_last. split; [reflexivity|]. split; [|congruence].
    rewrite R, count_occ_app in C. simpl in C.
    destruct (Nat.eq_dec ws ws); [|congruence]. unfold WebSocket in *. lia.
  - rewrite R. split; [reflexivity|]. split; [lia | exact B].
Qed.

(** X9. A message whose [type] is missing or is none of [create_order],
    [update_order], [delete_order] is ignored: the loop body returns with
    the world exactly as it was, so nothing goes to the store and no reply,
    not even an error, goes to the client. *)
Theorem unknown_message_is_ignored (P : Platform) (ws : WebSocket) (data : PyVal)
    (message_type : PyVal) (w : World P) :
  Main.dict_get_or P data "type" PNone = Ok message_type ->
  Main.is_str message_type "create_order" = false ->
  Main.is_str message_type "update_order" = false ->
  Main.is_str message_type "delete_order" = false ->
  Main.on_message P ws data w = (Ok tt, w).
Proof.
  intros T C U D. unfold Main.on_message, bind, lift_result.
  rewrite T, C, U, D. reflexivity.
Qed.

Lemma unknown_message_is_ignored_witness :
  let w := SimShutdown.serving Sim.quiet in
  (Main.dict_get_or Sim.platform (PDict [("type", PStr "ping")]) "type" PNone
   = Ok (PStr "ping")
   /\ Main.on_message Sim.platform 5 (PDict [("type", PStr "ping")]) w = (Ok tt, w))
  /\ (Main.dict_get_or Sim.platform (PDict [("id", PInt 7)]) "type" PNone = Ok PNone
      /\ Main.on_message Sim.platform 5 (PDict [("id", PInt 7)]) w = (Ok tt, w)).
Proof.
  intros w. split; (split; [reflexivity|]).
  - exact (unknown_message_is_ignored Sim.platform 5
             (PDict [("type", PStr "ping")]) (PStr "ping") w
             eq_refl eq_refl eq_refl eq_refl).
  - exact (unknown_message_is_ignored Sim.platform 5
             (PDict [("id", PInt 7)]) PNone w
             eq_refl eq_refl eq_refl eq_refl).
Defined.

(** X10. When the [try] block of a session ends by an exception (the client
    went away, the store failed, a message was not a JSON object), the
    endpoint still returns normally and the connection is unregistered: for
    a connection that was not registered before the session, the registry
    and the counter are back to what they were before it. *)
Theorem session_end_unregisters (P : Platform) (n : nat) (ws : WebSocket)
    (w : World P) (e : Exn) :
  is_ok (fst (ws_accept P ws (net w))) = true ->
  ~ In ws (registry w) ->
  fst (session_body P n ws (snd (connect P ws w))) = Raise e ->
  let w' := snd (Main.websocket_endpoint P n ws w) in
  fst (Main.websocket_endpoint P n ws w) = Ok Main.Returned
  /\ registry w' = registry w
  /\ connection_count (manager w') = connection_count (manager w).
Proof.
  intros A N Bd. simpl. rewrite endpoint_unfold.
  pose proof (connect_registry P ws w) as R.
  pose proof (connect_balance P ws w) as B.
  assert (is_ok (fst (connect P ws w)) = true) as Ac.
  { rewrite connect_eq. destruct (ws_accept P ws (net w)) as [[[]|x] n'];
      [reflexivity | discriminate]. }
  rewrite Ac in R.
  destruct (connect P ws w) as [[[]|x] w1]; [|discriminate]. cbn [fst snd] in *.
  unfold session_guard, try_except.
  pose proof (own_session_body P ws n w1) as (O & C & B1).
  destruct (session_body P n ws w1) as [r w2]. cbn [fst snd] in *. subst r.
  destruct (session_handler P ws e w2) as (Hok & Hr & Hb & _).
  cbv zeta in Hok, Hr, Hb.
  split; [exact Hok|].
  assert (~ In ws (remove_first ws (registry w2))) as Ab.
  { intros I. apply (count_occ_In Nat.eq_dec) in I.
    rewrite remove_first_count, Nat.eqb_refl in I.
    rewrite R, count_occ_app in C. simpl in C.
    apply (count_occ_not_In Nat.eq_dec) in N.
    destruct (Nat.eq_dec ws ws); [|congruence]. unfold WebSocket in *. lia. }
  assert (remove_first ws (registry w2) = registry w) as Rf.
  { rewrite <- (others_absent ws _ Ab), others_remove_first, O, R, others_last.
    now apply others_absent. }
  rewrite Hr, Rf. split; [reflexivity|].
  rewrite B1, B in Hb. unfold balance in Hb. rewrite Hr, Rf in Hb. lia.
Qed.

Lemma session_end_unregisters_witness :
  let w := Sim.with_connections [1; 2] Sim.quiet in
  let e := Db.AttributeError_None "get_all_orders" in
  is_ok (fst (ws_accept Sim.platform 5 (net w))) = true
  /\ ~ In 5 (registry w)
  /\ fst (session_body Sim.platform 3 5 (snd (connect Sim.platform 5 w))) = Raise e
  /\ registry (snd (Main.websocket_endpoint Sim.platform 3 5 w)) = registry w.
Proof.
  intros w e.
  assert (is_ok (fst (ws_accept Sim.platform 5 (net w))) = true) as A by reflexivity.
  assert (~ In 5 (registry w)) as N by (simpl; intuition discriminate).
  assert (fst (session_body Sim.platform 3 5 (snd (connect Sim.platform 5 w)))
          = Raise e) as B by reflexivity.
  split; [exact A|]. split; [exact N|]. split; [exact B|].
  exact (proj1 (proj2 (session_end_unregisters Sim.platform 3 5 w e A N B))).
Defined.

(** X11. On attach, with the database object and its pool in place, the
    first thing the session does on the wire is one [send_json] of the
    whole table, the rows as the store returned them and in its order,
    under [initial_data], to the attaching connection; whatever else the
    session sends comes after. When that send returns, the client has the
    table and stays registered. When it raises, as Starlette's [send_json]
    does on rows that [json.dumps] cannot serialise (the [datetime] of
    [updated_at] is one), nothing has reached the client and
    [send_json_personal] has unregistered it, yet the session goes on
    waiting for its messages: the connection is open, and a broadcast that
    begins then does not go to it. *)
Theorem attach_sends_the_table_first (P : Platform) (n : nat) (ws : WebSocket)
    (w : World P) (self : Database) (p : Pool) (orders : list PyVal)
    (net1 net2 : Net P) :
  main_db w = Some self ->
  pool self = Some p ->
  ws_accept P ws (net w) = (Ok tt, net1) ->
  pool_fetch P p Db.query_get_all_orders [] net1 = (Ok orders, net2) ->
  let table := PDict [("type", PStr "initial_data"); ("data", PList orders)] in
  let delivered := is_ok (fst (ws_send_json P ws table net2)) in
  let attached := snd (Main.websocket_endpoint P 0 ws w) in
  (exists rest,
      sent_by (Main.websocket_endpoint P n ws) w = WJson ws table delivered :: rest)
  /\ fst (Main.websocket_endpoint P 0 ws w) = Ok Main.Suspended
  /\ sent_by (Main.websocket_endpoint P 0 ws) w = [WJson ws table delivered]
  /\ registry attached
     = (if delivered then (registry w ++ [ws])%list
        else remove_first ws (registry w ++ [ws]))
  /\ (delivered = false ->
      ~ In ws (registry w) ->
      registry attached = registry w
      /\ forall (data : PyVal) (message : string),
           json_dumps P data = Ok message ->
           ~ In ws (map wire_ws (sent_by (broadcast_json P data) attached))).
Proof.
  intros D Pl A F table delivered attached.
  destruct (attach_unfold P ws w self p orders net1 net2 D Pl A F)
    as (w2 & N2 & R2 & _ & W2 & _ & U).
  change (Main.initial_data orders) with table in U.
  destruct (send_json_personal_spec P table ws w2) as (Hok & Hw & Hr & _).
  cbv zeta in Hok, Hw, Hr. rewrite N2 in Hw, Hr. fold delivered in Hw, Hr.
  assert (Main.websocket_endpoint P 0 ws w
          = (Ok Main.Suspended, snd (send_json_personal P table ws w2))) as U0.
  { rewrite U. unfold try_except, bind. simpl Main.receive_loop.
    destruct (send_json_personal P table ws w2) as [r w3].
    cbn [fst] in Hok. subst r. reflexivity. }
  assert (registry attached
          = (if delivered then (registry w ++ [ws])%list
             else remove_first ws (registry w ++ [ws]))) as Ra.
  { unfold attached. rewrite U0. cbn [snd]. now rewrite Hr, R2. }
  split; [|split; [|split; [|split]]].
  - assert (exists rest,
               wire (snd (Main.websocket_endpoint P n ws w))
               = (wire w ++ WJson ws table delivered :: rest)%list) as (rest & W).
    { rewrite U. unfold try_except, bind.
      destruct (send_json_personal P table ws w2) as [r w3].
      cbn [fst snd] in Hok, Hw. subst r.
      destruct (emits_receive_loop P n ws w3) as (sends & Wl & _).
      destruct (Main.receive_loop P n ws w3) as [[r|e] w4]; cbn [fst snd] in *.
      - exists sends. rewrite Wl, Hw, W2, <- app_assoc. reflexivity.
      - exists sends. destruct (session_handler P ws e w4) as (_ & _ & _ & Wh & _).
        cbv zeta in Wh. rewrite Wh, Wl, Hw, W2, <- app_assoc. reflexivity. }
    exists rest. now apply sent_by_app.
  - now rewrite U0.
  - apply sent_by_app. rewrite U0. cbn [snd]. now rewrite Hw, W2.
  - exact Ra.
  - intros Nd Nin. rewrite Nd in Ra. rewrite remove_first_last in Ra by assumption.
    split; [exact Ra|]. intros data message J.
    destruct (broadcast_json_spec P data message attached J)
      as (sends & w' & E & W & Mp & _).
    rewrite (sent_by_app P _ attached sends) by now rewrite E.
    now rewrite Mp, Ra.
Qed.

Lemma attach_sends_the_table_first_witness :
  let row := PDict [("id", PInt 7); ("customer_name", PStr "Ann");
                    ("product_name", PStr "Tea"); ("status", PStr "pending");
                    ("updated_at", PDatetime "2024-05-01 10:00:00")] in
  let table := PDict [("type", PStr "initial_data"); ("data", PList [row])] in
  let w := SimShutdown.serving (SimShutdown.with_rows [row] []) in
  let self := {| database_url := "postgresql://localhost/orders";
                 pool := Some 1; listener_connection := Some 2 |} in
  (main_db w = Some self
   /\ ws_accept Sim.platform 5 (net w) = (Ok tt, net w)
   /\ pool_fetch Sim.platform 1 Db.query_get_all_orders [] (net w) = (Ok [row], net w)
   /\ is_ok (fst (ws_send_json Sim.platform 5 table (net w))) = false
   /\ ~ In 5 (registry w))
  /\ sent_by (Main.websocket_endpoint Sim.platform 0 5) w = [WJson 5 table false]
  /\ fst (Main.websocket_endpoint Sim.platform 0 5 w) = Ok Main.Suspended
  /\ registry (snd (Main.websocket_endpoint Sim.platform 0 5 w)) = registry w.
Proof.
  intros row table w self.
  assert (main_db w = Some self) as D by reflexivity.
  assert (ws_accept Sim.platform 5 (net w) = (Ok tt, net w)) as A by reflexivity.
  assert (pool_fetch Sim.platform 1 Db.query_get_all_orders [] (net w)
          = (Ok [row], net w)) as F by reflexivity.
  assert (is_ok (fst (ws_send_json Sim.platform 5 table (net w))) = false)
    as S by reflexivity.
  assert (~ In 5 (registry w)) as N by (intros []).
  split; [repeat split; assumption|].
  destruct (attach_sends_the_table_first Sim.platform 0 5 w self 1 [row] _ _
              D eq_refl A F) as (_ & O & W & _ & U).
  split; [exact W|]. split; [exact O|]. exact (proj1 (U S N)).
Defined.

(* ===================================================================== *)
(** ** The listener and the store *)
(* ===================================================================== *)

(** X12. Whatever the payload, [handle_notification] never sends a statement
    to the store and never touches the database object; in the registry it
    can only remove entries, and the counter stays in step with the
    list. *)
Theorem listener_only_prunes (P : Platform) (payload : string) (w : World P) :
  let w' := snd (Db.handle_notification P payload w) in
  queries w' = queries w
  /\ main_db w' = main_db w
  /\ incl (registry w') (registry w)
  /\ balance w' = balance w.
Proof.
  simpl. unfold Db.handle_notification, try_except, bind, lift_result, logger_info,
    logger_error.
  destruct (json_loads P payload) as [cd|e];
    [|simpl; repeat split; auto using incl_refl].
  destruct (Db.getitem P cd "operation") as [op|e];
    [|simpl; repeat split; auto using incl_refl].
  match goal with |- context [broadcast_json P ?d ?v] =>
    destruct (broadcast_json_any P d v) as (sends & _ & _ & _ & I & _ & B & D & Q);
    destruct (broadcast_json P d v) as [[[]|e] w1] end;
    cbn [fst snd] in *; repeat split; assumption.
Qed.

(* ===================================================================== *)
(** ** The REST surface *)
(* ===================================================================== *)

Lemma untouched_refl (P : Platform) (w : World P) : untouched w w.
Proof. unfold untouched. auto. Qed.

Lemma untouched_trans (P : Platform) (a b c : World P) :
  untouched a b -> untouched b c -> untouched a c.
Proof. unfold untouched. intros (? & ? & ?) (? & ? & ?). repeat split; congruence. Qed.

Lemma untouched_quiet (P : Platform) (w w' : World P) :
  manager w' = manager w -> wire w' = wire w -> main_db w' = main_db w ->
  untouched w w'.
Proof. unfold untouched. auto. Qed.

(** X13. No REST endpoint touches the push side: after any request, answered
    or failed, the registry, its counter and the wire are exactly as they
    were. A change made over REST reaches the clients only if the store
    notifies the listener. *)
Theorem rest_never_pushes (P : Platform) (req : Rest.Request) (w : World P) :
  let w' := snd (Rest.serve P req w) in
  manager w' = manager w /\ wire w' = wire w /\ main_db w' = main_db w.
Proof.
  exact (steps_serve P untouched (untouched_refl P) (untouched_trans P)
           (untouched_quiet P) req w).
Qed.

(** X14. Whatever exception leaves a REST endpoint is an [HTTPException]:
    failures of the store, of the driver or of the code in between are
    answered as responses and never escape as they are. *)
Theorem rest_errors_are_http (P : Platform) (req : Rest.Request) (w : World P)
    (e : Exn) :
  fst (Rest.serve P req w) = Raise e -> is_http e.
Proof.
  assert (forall (m : M P PyVal) (h : Exn -> M P PyVal),
             (forall e0 w1 e1, fst (h e0 w1) = Raise e1 -> is_http e1) ->
             fst (try_except m h w) = Raise e -> is_http e) as G.
  { intros m h Hh H. unfold try_except in H.
    destruct (m w) as [[a|e0] w1]; [discriminate|]. eapply Hh; eauto. }
  assert (forall prefix detail e0 (w1 : World P) e1,
             fst ((logger_error (prefix ++ text e0) ;;
                   raise (A := PyVal) (Main.HTTPException 500 detail)) w1) = Raise e1 ->
             is_http e1) as H500.
  { intros prefix detail e0 w1 e1 H. inversion H. exact I. }
  assert (forall prefix detail e0 (w1 : World P) e1,
             fst (match kind e0 with
                  | KHTTPException _ _ => raise (A := PyVal) e0
                  | _ => logger_error (prefix ++ text e0) ;;
                         raise (Main.HTTPException 500 detail)
                  end w1) = Raise e1 ->
             is_http e1) as Hre.
  { intros prefix detail e0 w1 e1 H. unfold is_http.
    destruct (kind e0) eqn:K; inversion H; subst; try exact I.
    now rewrite K. }
  destruct req as [|order|order_id|order_id u|order_id]; simpl;
    unfold Rest.get_orders, Rest.create_order, Rest.get_order, Main.update_order,
      Rest.delete_order;
    apply G; auto; intros; first [eapply H500; eassumption | eapply Hre; eassumption].
Qed.

Lemma rest_errors_are_http_witness :
  let w := SimShutdown.serving Sim.quiet in
  fst (Rest.serve Sim.platform (Rest.GetOrder 7) w)
  = Raise (Main.HTTPException 404 "Order not found")
  /\ is_http (Main.HTTPException 404 "Order not found").
Proof.
  intros w.
  assert (fst (Rest.serve Sim.platform (Rest.GetOrder 7) w)
          = Raise (Main.HTTPException 404 "Order not found")) as H by reflexivity.
  split; [exact H|].
  exact (rest_errors_are_http Sim.platform (Rest.GetOrder 7) w _ H).
Defined.

(** X15. [GET /api/orders/{order_id}], with the database object and its pool
    in place, sends the store exactly one statement, the lookup by id with
    the id as its only parameter, and answers by what comes back: the row
    when there is one, 404 [Order not found] when there is none, and 500
    [Failed to fetch order], with the error logged, when the store raises. *)
Theorem get_order_outcomes (P : Platform) (order_id : Z) (w : World P)
    (self : Database) (p : Pool) :
  main_db w = Some self ->
  pool self = Some p ->
  let answer := pool_fetchrow P p Db.query_get_order_by_id [SqlPy (PInt order_id)]
                              (net w) in
  queries (snd (Rest.get_order P order_id w))
  = (queries w ++ [(Db.query_get_order_by_id, [SqlPy (PInt order_id)])])%list
  /\ fst (Rest.get_order P order_id w)
     = match fst answer with
       | Ok (Some row) =>
           if truthy (Some row) then Ok row
           else Raise (Main.HTTPException 404 "Order not found")
       | Ok None => Raise (Main.HTTPException 404 "Order not found")
       | Raise e =>
           match kind e with
           | KHTTPException _ _ => Raise e
           | _ => Raise (Main.HTTPException 500 "Failed to fetch order")
           end
       end
  /\ (forall e, fst answer = Raise e -> ~ is_http e ->
        logs (snd (Rest.get_order P order_id w))
        = (logs w ++ [(ERROR, ("Error fetching order: " ++ text e)%string)])%list).
Proof.
  intros D Pl. cbv zeta.
  unfold Rest.get_order, try_except, bind, Main.with_db, Db.get_order_by_id,
    Db.acquire, Db.fetchrow, bind, extern, ret, raise, logger_error.
  rewrite D, Pl. cbn [net push_query fst snd].
  destruct (pool_fetchrow P p Db.query_get_order_by_id [SqlPy (PInt order_id)] (net w))
    as [[[row|]|e] n1]; cbn [fst snd].
  - destruct (truthy (Some row)); cbn; repeat split; auto; intros; discriminate.
  - cbn. repeat split; auto; intros; discriminate.
  - unfold is_http. destruct (kind e) eqn:K; cbn; repeat split; auto;
      intros e' E N; inversion E; subst; try reflexivity;
      rewrite K in N; exfalso; apply N; exact I.
Qed.

Lemma get_order_outcomes_witness :
  let row := PDict [("id", PInt 7); ("status", PStr "pending")] in
  let w := SimShutdown.serving (SimShutdown.with_rows [row] []) in
  let self := {| database_url := "postgresql://localhost/orders";
                 pool := Some 1; listener_connection := Some 2 |} in
  main_db w = Some self
  /\ pool self = Some 1
  /\ fst (Rest.get_order Sim.platform 7 w) = Ok row
  /\ fst (Rest.get_order Sim.platform 7 (SimShutdown.serving Sim.quiet))
     = Raise (Main.HTTPException 404 "Order not found").
Proof.
  intros row w self.
  assert (main_db w = Some self) as D by reflexivity.
  assert (pool self = Some 1) as Pl by reflexivity.
  assert (main_db (SimShutdown.serving Sim.quiet) = Some self) as D' by reflexivity.
  split; [exact D|]. split; [exact Pl|]. split.
  - exact (proj1 (proj2 (get_order_outcomes Sim.platform 7 w self 1 D Pl))).
  - exact (proj1 (proj2 (get_order_outcomes Sim.platform 7 _ self 1 D' Pl))).
Defined.

(** X16. Before [lifespan] has assigned the database object, every REST
    endpoint answers 500 with its own failure detail, an empty update
    included; nothing is sent to the store and the outside world is not
    touched. *)
Theorem rest_before_startup (P : Platform) (req : Rest.Request) (w : World P) :
  main_db w = None ->
  fst (Rest.serve P req w) = Raise (Main.HTTPException 500 (failure_detail req))
  /\ queries (snd (Rest.serve P req w)) = queries w
  /\ net (snd (Rest.serve P req w)) = net w.
Proof.
  intros D.
  destruct req as [|order|order_id|order_id u|order_id]; simpl;
    unfold Rest.get_orders, Rest.create_order, Rest.get_order, Main.update_order,
      Rest.delete_order, try_except, bind, Main.with_db;
    rewrite D; simpl; repeat split; reflexivity.
Qed.

Lemma rest_before_startup_witness :
  main_db (Sim.fresh Sim.quiet) = None
  /\ fst (Rest.serve Sim.platform (Rest.PutOrder 7 empty_update) (Sim.fresh Sim.quiet))
     = Raise (Main.HTTPException 500 "Failed to update order").
Proof.
  assert (main_db (Sim.fresh Sim.quiet) = None) as D by reflexivity.
  split; [exact D|].
  exact (proj1 (rest_before_startup Sim.platform (Rest.PutOrder 7 empty_update) _ D)).
Defined.

(** X17. For an update with at least one field set and a database object
    with its pool, [Database.update_order] sends the store exactly one
    statement: its assignments are the set fields in the order
    [customer_name], [product_name], [status], numbered [$1], [$2], ... with
    no gap, its values are the values of those fields in the same order
    followed by the order id, and its [WHERE] clause names the marker of
    the id, one past the last assignment. It returns what the store
    answers. *)
Theorem update_statement_lines_up (P : Platform) (self : Database) (p : Pool)
    (order_id : PyVal) (u : OrderUpdate) (w : World P) :
  pool self = Some p ->
  set_fields u <> [] ->
  let fields := set_fields u in
  let values := (map snd fields ++ [SqlPy order_id])%list in
  let answer := pool_fetchrow P p (update_statement fields) values (net w) in
  Db.update_order P self order_id u w
  = (fst answer,
     set_net (snd answer) (push_query (update_statement fields, values) w))
  /\ List.length values = S (List.length (assignments 1 (map fst fields))).
Proof.
  intros Pl NE. cbv zeta.
  destruct u as [[c|] [pr|] [st|]]; try (exfalso; apply NE; reflexivity);
    (split; [|reflexivity]);
    unfold Db.update_order, Db.acquire, Db.fetchrow, bind, extern, ret;
    rewrite Pl; cbn -[pool_fetchrow];
    match goal with |- context [pool_fetchrow P p ?q ?v ?n] =>
      destruct (pool_fetchrow P p q v n) end; reflexivity.
Qed.

Lemma update_statement_lines_up_witness :
  let u := {| customer_name := Some "Ann"; product_name := None;
              status := Some SHIPPED |} in
  let w := SimShutdown.serving Sim.quiet in
  let self := {| database_url := "postgresql://localhost/orders";
                 pool := Some 1; listener_connection := Some 2 |} in
  pool self = Some 1
  /\ set_fields u <> []
  /\ queries (snd (Db.update_order Sim.platform self (PInt 7) u w))
     = [(update_statement (set_fields u),
         [SqlStr "Ann"; SqlStatus SHIPPED; SqlPy (PInt 7)])]
  /\ assignments 1 (map fst (set_fields u)) = ["customer_name = $1"; "status = $2"].
Proof.
  intros u w self.
  assert (pool self = Some 1) as Pl by reflexivity.
  assert (set_fields u <> []) as NE by discriminate.
  split; [exact Pl|]. split; [exact NE|]. split; [|reflexivity].
  rewrite (proj1 (update_statement_lines_up Sim.platform self 1 (PInt 7) u w Pl NE)).
  reflexivity.
Defined.

(** X18. A valid [create_order] request over the push channel, with the
    database object and its pool in place and a store that returns the new
    row, sends
    the store exactly one [INSERT] carrying the validated customer name,
    product name and status, in that order, and sends the client nothing:
    there is no acknowledgement, the client hears of its order only when
    the store's notification is broadcast. *)
Theorem accepted_create_is_silent (P : Platform) (ws : WebSocket) (data order_data : PyVal)
    (order : OrderCreate) (w : World P) (self : Database) (p : Pool)
    (row : PyVal) :
  Main.dict_get_or P data "type" PNone = Ok (PStr "create_order") ->
  Main.dict_get_or P data "data" (PDict []) = Ok order_data ->
  OrderCreate_init P order_data = Ok order ->
  main_db w = Some self ->
  pool self = Some p ->
  fst (pool_fetchrow P p Db.query_create_order
         [SqlStr (oc_customer_name order); SqlStr (oc_product_name order);
          SqlStatus (oc_status order)] (net w)) = Ok (Some row) ->
  fst (Main.on_message P ws data w) = Ok tt
  /\ sent_by (Main.on_message P ws data) w = []
  /\ queries (snd (Main.on_message P ws data w))
     = (queries w ++ [(Db.query_create_order,
                       [SqlStr (oc_customer_name order);
                        SqlStr (oc_product_name order);
                        SqlStatus (oc_status order)])])%list.
Proof.
  intros T Dt V D Pl F.
  assert (exists n1,
             Main.on_message P ws data w
             = (Ok tt, set_net n1
                         (push_query (Db.query_create_order,
                                      [SqlStr (oc_customer_name order);
                                       SqlStr (oc_product_name order);
                                       SqlStatus (oc_status order)]) w)))
    as (n1 & E).
  { unfold Main.on_message, bind at 1. unfold lift_result at 1. rewrite T.
    cbn [Main.is_str String.eqb Ascii.eqb Bool.eqb andb].
    unfold try_except, Main.create_order_request, bind, lift_result,
      Main.with_db, Db.create_order, Db.acquire, Db.fetchrow, bind, extern, ret.
    rewrite Dt, V, D, Pl. cbn [net push_query].
    destruct (pool_fetchrow P p Db.query_create_order _ (net w)) as [r n1].
    cbn [fst] in F. subst r. now exists n1. }
  rewrite E. cbn [fst snd]. split; [reflexivity|]. split; [|reflexivity].
  apply sent_by_app. rewrite E, app_nil_r. reflexivity.
Qed.

Lemma accepted_create_is_silent_witness :
  let order_data := PDict [("customer_name", PStr "Ann"); ("product_name", PStr "Tea")] in
  let data := PDict [("type", PStr "create_order"); ("data", order_data)] in
  let order := {| oc_customer_name := "Ann"; oc_product_name := "Tea";
                  oc_status := PENDING |} in
  let row := PDict [("id", PInt 8); ("customer_name", PStr "Ann")] in
  let w := SimShutdown.serving (SimShutdown.with_rows [row] []) in
  let self := {| database_url := "postgresql://localhost/orders";
                 pool := Some 1; listener_connection := Some 2 |} in
  (Main.dict_get_or Sim.platform data "type" PNone = Ok (PStr "create_order")
   /\ Main.dict_get_or Sim.platform data "data" (PDict []) = Ok order_data
   /\ OrderCreate_init Sim.platform order_data = Ok order
   /\ main_db w = Some self /\ pool self = Some 1
   /\ fst (pool_fetchrow Sim.platform 1 Db.query_create_order
             [SqlStr "Ann"; SqlStr "Tea"; SqlStatus PENDING] (net w)) = Ok (Some row))
  /\ sent_by (Main.on_message Sim.platform 5 data) w = [].
Proof.
  intros order_data data order row w self.
  split; [repeat split|].
  exact (proj1 (proj2 (accepted_create_is_silent Sim.platform 5 data order_data order
                         w self 1 row eq_refl eq_refl eq_refl eq_refl eq_refl eq_refl))).
Defined.

(* ===================================================================== *)
(** ** The life of the process *)
(* ===================================================================== *)

(** X19. Without [DATABASE_URL], unset or empty, the start-up half of
    [lifespan] raises [ValueError] at once: the application does not come to
    serve, no database object is made, and the store is never contacted. *)
Theorem missing_url_is_fatal (P : Platform) (w : World P) :
  os_getenv P "DATABASE_URL" (net w) = None
  \/ os_getenv P "DATABASE_URL" (net w) = Some "" ->
  Main.start P w
  = (Main.StartupFailed
       (Main.ValueError "DATABASE_URL environment variable is required"), w).
Proof.
  unfold Main.start, Main.lifespan_startup, bind.
  intros [H|H]; rewrite H; reflexivity.
Qed.

Lemma missing_url_is_fatal_witness :
  os_getenv Sim.platform "DATABASE_URL" (net (Sim.fresh SimShutdown.no_url)) = None
  /\ fst (Main.start Sim.platform (Sim.fresh SimShutdown.no_url))
     = Main.StartupFailed
         (Main.ValueError "DATABASE_URL environment variable is required").
Proof.
  assert (os_getenv Sim.platform "DATABASE_URL" (net (Sim.fresh SimShutdown.no_url))
          = None) as H by reflexivity.
  split; [exact H|].
  rewrite (missing_url_is_fatal Sim.platform (Sim.fresh SimShutdown.no_url) (or_introl H)).
  reflexivity.
Defined.

(** X20. When the pool, the listener's own connection and the registration
    on [order_changes] all succeed, start-up reaches its [yield] with a
    database object that holds that pool and that connection, and the
    shutdown half of [lifespan] closes exactly these two, the listener's
    connection first and the pool second. It stops at the first close that
    raises: when closing the listener's connection raises, the pool is
    never closed and neither shutdown record is logged. *)
Theorem shutdown_closes_what_startup_opened (P : Platform)
    (connection_close : Connection -> Net P -> Result unit * Net P)
    (pool_close : Pool -> Net P -> Result unit * Net P)
    (w : World P) (url : string) (p : Pool) (c : Connection) (n1 n2 n3 : Net P) :
  os_getenv P "DATABASE_URL" (net w) = Some url ->
  url <> "" ->
  asyncpg_create_pool P url 2 10 60 (net w) = (Ok p, n1) ->
  asyncpg_connect P url n1 = (Ok c, n2) ->
  add_listener P c "order_changes" n2 = (Ok tt, n3) ->
  let w1 := snd (Main.start P w) in
  fst (Main.start P w) = Main.Serving
  /\ main_db w1 = Some {| database_url := url; pool := Some p;
                          listener_connection := Some c |}
  /\ net w1 = n3
  /\ Shutdown.lifespan_shutdown P connection_close pool_close w1
     = match connection_close c n3 with
       | (Raise e, n4) => (Raise e, set_net n4 w1)
       | (Ok _, n4) =>
           match pool_close p n4 with
           | (Raise e, n5) => (Raise e, set_net n5 (set_net n4 w1))
           | (Ok _, n5) =>
               (Ok tt,
                push_log (INFO, "Application shutdown")
                  (push_log (INFO, "Database connections closed")
                     (set_net n5 (set_net n4 w1))))
           end
       end.
Proof.
  intros G N Cp Cc Al. cbv zeta.
  assert (fst (Main.start P w) = Main.Serving
          /\ main_db (snd (Main.start P w))
             = Some {| database_url := url; pool := Some p;
                       listener_connection := Some c |}
          /\ net (snd (Main.start P w)) = n3) as (S & D & Nt).
  { remember (Main.start P w) as r eqn:E.
    unfold Main.start, Main.lifespan_startup in E. unfold bind at 1 in E.
    rewrite G in E. destruct url as [|a url]; [congruence|].
    unfold Db.initialize, Db.setup_notification_listener, Db.self_db, Db.set_pool,
      Db.set_listener_connection, Db.self_db, try_except, bind, extern,
      logger_info, logger_error, raise in E.
    cbn [main_db set_main_db net database_url Database_init] in E.
    rewrite Cp in E. cbn in E. rewrite Cc in E. cbn in E. rewrite Al in E.
    cbn in E. subst r. cbn. auto. }
  split; [exact S|]. split; [exact D|]. split; [exact Nt|].
  set (w1 := snd (Main.start P w)) in *. clearbody w1.
  unfold Shutdown.lifespan_shutdown, Shutdown.close, bind, Main.with_db, extern,
    logger_info.
  rewrite D. cbn [listener_connection pool]. rewrite Nt.
  destruct (connection_close c n3) as [[[]|e] n4]; [|reflexivity].
  cbn [net set_net].
  destruct (pool_close p n4) as [[[]|e] n5]; reflexivity.
Qed.

Lemma shutdown_closes_what_startup_opened_witness :
  let w := Sim.fresh Sim.quiet in
  let url := "postgresql://localhost/orders" in
  (os_getenv Sim.platform "DATABASE_URL" (net w) = Some url
   /\ url <> ""
   /\ asyncpg_create_pool Sim.platform url 2 10 60 (net w) = (Ok 1, net w)
   /\ asyncpg_connect Sim.platform url (net w) = (Ok 2, net w)
   /\ add_listener Sim.platform 2 "order_changes" (net w) = (Ok tt, net w))
  /\ fst (Main.start Sim.platform w) = Main.Serving
  /\ fst (Shutdown.lifespan_shutdown Sim.platform SimShutdown.sim_connection_close
            SimShutdown.sim_pool_close (snd (Main.start Sim.platform w)))
     = Ok tt.
Proof.
  intros w url.
  assert ("postgresql://localhost/orders" <> "") as N by discriminate.
  destruct (shutdown_closes_what_startup_opened Sim.platform
              SimShutdown.sim_connection_close SimShutdown.sim_pool_close
              w url 1 2 (net w) (net w) (net w) eq_refl N eq_refl eq_refl eq_refl)
    as (S & _ & _ & Sh).
  split; [repeat split; exact N|]. split; [exact S|].
  rewrite Sh. reflexivity.
Defined.

(** X21. Once [lifespan] has found [DATABASE_URL], the health endpoint
    reports the database as [connected], whether or not
    [Database.initialize] succeeded: the flag says that the database object
    exists, not that the store can be reached. *)
Theorem health_reports_the_object (P : Platform) (w : World P) (url : string) :
  os_getenv P "DATABASE_URL" (net w) = Some url ->
  url <> "" ->
  Db.getitem P (Main.health_check P (snd (Main.start P w))) "database"
  = Ok (PStr "connected").
Proof.
  intros G N.
  assert (exists d, main_db (snd (Main.start P w)) = Some d) as (d & D).
  { remember (Main.start P w) as r eqn:E.
    unfold Main.start, Main.lifespan_startup in E. unfold bind at 1 in E.
    rewrite G in E. destruct url as [|a url]; [congruence|].
    unfold Db.initialize, Db.setup_notification_listener, Db.self_db, Db.set_pool,
      Db.set_listener_connection, Db.self_db, try_except, bind, extern,
      logger_info, logger_error, raise in E.
    cbn [main_db set_main_db net database_url Database_init] in E.
    destruct (asyncpg_create_pool P (String a url) 2 10 60 (net w)) as [[p|e] n1];
      cbn in E; [|subst r; cbn; eauto].
    destruct (asyncpg_connect P (String a url) n1) as [[c|e] n2]; cbn in E;
      [|subst r; cbn; eauto].
    destruct (add_listener P c "order_changes" n2) as [[[]|e] n3]; cbn in E;
      subst r; cbn; eauto. }
  unfold Main.health_check, Db.getitem. rewrite D. reflexivity.
Qed.

Lemma health_reports_the_object_witness :
  let down := {| Sim.closed := []; Sim.refuse_accept := []; Sim.store_up := false;
                 Sim.channel_up := true; Sim.rows := []; Sim.inbox := [];
                 Sim.env_url := Some "postgresql://localhost/orders" |} in
  let w := Sim.fresh down in
  os_getenv Sim.platform "DATABASE_URL" (net w) = Some "postgresql://localhost/orders"
  /\ fst (Main.start Sim.platform w)
     = Main.StartupFailed (Sim.error "OSError" "connection refused")
  /\ Db.getitem Sim.platform (Main.health_check Sim.platform (snd (Main.start Sim.platform w)))
       "database"
     = Ok (PStr "connected").
Proof.
  intros down w.
  assert ("postgresql://localhost/orders" <> "") as N by discriminate.
  split; [reflexivity|]. split; [reflexivity|].
  exact (health_reports_the_object Sim.platform w _ eq_refl N).
Defined.

(* ===================================================================== *)
(** ** Leaving while a broadcast is in flight *)
(* ===================================================================== *)

Lemma remove_first_app_in (c : WebSocket) (l1 l2 : list WebSocket) :
  In c l1 -> remove_first c (l1 ++ l2) = (remove_first c l1 ++ l2)%list.
Proof.
  induction l1 as [|y l1 IH]; intros I; [contradiction|].
  simpl. rewrite !remove_first_cons.
  destruct (Nat.eqb_spec c y) as [->|D]; [reflexivity|].
  destruct I as [E|I]; [congruence|]. simpl. now rewrite IH.
Qed.

(** X22. When a broadcast is suspended with [x] the next entry to visit, and
    a connection that the loop has already passed is unregistered by another
    coroutine, the list shifts under the loop's index: resumed, the
    broadcast sends to the entries that came after [x], returns, and has
    passed over [x]. *)
Theorem unregister_behind_cursor_skips_next (P : Platform) (f : Frame) (w : World P)
    (c x : WebSocket) (visited rest : list WebSocket) (k : nat) :
  registry w = (visited ++ x :: rest)%list ->
  fr_index f = List.length visited ->
  In c visited ->
  List.length rest < k ->
  let s := Loop.sched_run P (Loop.Unregister c :: repeat Loop.Resume k)
                          (Loop.mkSched w (Some f)) in
  Loop.sc_task s = None
  /\ map wire_ws (skipn (List.length (wire w)) (wire (Loop.sc_world s))) = rest.
Proof.
  intros R I Ic L. cbv zeta. cbn [Loop.sched_run Loop.sched_step Loop.sc_world
                                  Loop.sc_task].
  pose proof (disconnect_registry P c w) as R1.
  destruct (disconnect_frame P c w) as (_ & W1 & _).
  set (w1 := snd (disconnect P c w)) in *. clearbody w1.
  assert (registry w1 = ((remove_first c visited ++ [x]) ++ rest)%list) as R1'.
  { rewrite R1, R, remove_first_app_in by assumption.
    now rewrite <- app_assoc. }
  assert (fr_index f = List.length (remove_first c visited ++ [x])) as I'.
  { rewrite length_app. simpl. pose proof (remove_first_length c visited Ic). lia. }
  destruct (broadcast_run_spec P rest _ f w1 k R1' I' L)
    as (sends & w' & E & W & Mp & _).
  rewrite sched_resume_run by now rewrite E.
  rewrite E. cbn [snd Loop.sc_task Loop.sc_world].
  split; [reflexivity|]. now rewrite W, W1, skipn_exact.
Qed.

Lemma unregister_behind_cursor_skips_next_witness :
  let w := Sim.with_connections [1; 2; 3] Sim.quiet in
  let f := {| fr_message := "ev"; fr_error_prefix := "Error broadcasting to connection: ";
              fr_index := 1; fr_disconnected := [] |} in
  let s := Loop.sched_run Sim.platform (Loop.Unregister 1 :: repeat Loop.Resume 2)
                          (Loop.mkSched w (Some f)) in
  (registry w = ([1] ++ 2 :: [3])%list /\ fr_index f = List.length [1]
   /\ In 1 [1] /\ List.length [3] < 2)
  /\ map wire_ws (skipn (List.length (wire w)) (wire (Loop.sc_world s))) = [3].
Proof.
  intros w f s.
  assert (registry w = ([1] ++ 2 :: [3])%list) as R by reflexivity.
  assert (fr_index f = List.length [1]) as I by reflexivity.
  assert (In 1 [1]) as Ic by (left; reflexivity).
  assert (List.length [3] < 2) as L by (simpl; lia).
  split; [split; [exact R | split; [exact I | split; [exact Ic | exact L]]]|].
  exact (proj2 (unregister_behind_cursor_skips_next Sim.platform f w 1 2 [1] [3] 2
                  R I Ic L)).
Defined.

(* ===================================================================== *)
(** ** Replies and answers *)
(* ===================================================================== *)

(** X23. On a message that is a JSON object and no [create_order], the loop
    body never raises, and unless the request is rejected it sends the
    client nothing: updates and deletes that succeed, updates and deletes of
    an order that does not exist, and messages of unknown type all go
    unanswered. *)
Theorem only_rejections_are_answered (P : Platform) (ws : WebSocket) (data : PyVal)
    (message_type : PyVal) (w : World P) :
  Main.dict_get_or P data "type" PNone = Ok message_type ->
  Main.is_str message_type "create_order" = false ->
  fst (Main.on_message P ws data w) = Ok tt
  /\ ((forall prefix e, ~ rejected P data w prefix e) ->
      sent_by (Main.on_message P ws data) w = []).
Proof.
  intros T C.
  assert (forall (body : M P unit) (pre : string),
             silent body ->
             let answer :=
               try_except body
                 (fun e => send_json_personal P (Main.error_message pre e) ws) w in
             fst answer = Ok tt
             /\ ((forall e, fst (body w) <> Raise e) ->
                 wire (snd answer) = (wire w ++ [])%list)) as H.
  { intros body pre S. unfold try_except. pose proof (S w) as Sw.
    destruct (body w) as [[[]|e] w1]; cbn [fst snd] in *.
    - split; [reflexivity|]. intros _. now rewrite app_nil_r.
    - split; [apply send_json_personal_spec|]. intros N. now destruct (N e). }
  assert (Main.on_message P ws data w
          = (if Main.is_str message_type "create_order" then
               try_except (Main.create_order_request P data)
                 (fun e => send_json_personal P
                             (Main.error_message "Failed to create order: " e) ws)
             else if Main.is_str message_type "update_order" then
               try_except (Main.update_order_request P data)
                 (fun e => send_json_personal P
                             (Main.error_message "Failed to update order: " e) ws)
             else if Main.is_str message_type "delete_order" then
               try_except (Main.delete_order_request P data)
                 (fun e => send_json_personal P
                             (Main.error_message "Failed to delete order: " e) ws)
             else ret tt) w) as E.
  { unfold Main.on_message, bind, lift_result. now rewrite T. }
  rewrite C in E. rewrite E.
  destruct (Main.is_str message_type "update_order") eqn:U.
  { destruct (H _ "Failed to update order: " (silent_update_order_request P data))
      as (O & S).
    split; [exact O|]. intros NR. apply sent_by_app. rewrite E. apply S.
    intros e R. apply (NR "Failed to update order: " e).
    exists message_type. split; [exact T|]. right. left. auto. }
  destruct (Main.is_str message_type "delete_order") eqn:D.
  { destruct (H _ "Failed to delete order: " (silent_delete_order_request P data))
      as (O & S).
    split; [exact O|]. intros NR. apply sent_by_app. rewrite E. apply S.
    intros e R. apply (NR "Failed to delete order: " e).
    exists message_type. split; [exact T|]. right. right. auto. }
  split; [reflexivity|]. intros _. apply sent_by_app. rewrite E.
  now rewrite app_nil_r.
Qed.

Lemma only_rejections_are_answered_witness :
  let data := PDict [("type", PStr "delete_order"); ("id", PInt 404)] in
  let w := SimShutdown.serving Sim.quiet in
  Main.dict_get_or Sim.platform data "type" PNone = Ok (PStr "delete_order")
  /\ (forall prefix e, ~ rejected Sim.platform data w prefix e)
  /\ fst (Db.delete_order Sim.platform
            {| database_url := "postgresql://localhost/orders";
               pool := Some 1; listener_connection := Some 2 |} (PInt 404) w) = Ok None
  /\ sent_by (Main.on_message Sim.platform 5 data) w = [].
Proof.
  intros data w.
  assert (Main.dict_get_or Sim.platform data "type" PNone = Ok (PStr "delete_order"))
    as T by reflexivity.
  assert (forall prefix e, ~ rejected Sim.platform data w prefix e) as NR.
  { intros prefix e (mt & Tm & C). inversion Tm; subst mt.
    destruct C as [(C & _)|[(C & _)|(_ & _ & C)]]; discriminate. }
  split; [exact T|]. split; [exact NR|]. split; [reflexivity|].
  exact (proj2 (only_rejections_are_answered Sim.platform 5 data _ w T eq_refl) NR).
Defined.

(** X24. [DELETE /api/orders/{order_id}], with the database object and its
    pool in place, sends the store exactly one statement, the delete by id,
    and answers by what comes back: the deleted row under [order] beside the
    message [Order deleted successfully] when a row was deleted, 404
    [Order not found] when none was, and 500 [Failed to delete order] when
    the store raises. *)
Theorem delete_order_outcomes (P : Platform) (order_id : Z) (w : World P)
    (self : Database) (p : Pool) :
  main_db w = Some self ->
  pool self = Some p ->
  let answer := pool_fetchrow P p Db.query_delete_order [SqlPy (PInt order_id)]
                              (net w) in
  queries (snd (Rest.delete_order P order_id w))
  = (queries w ++ [(Db.query_delete_order, [SqlPy (PInt order_id)])])%list
  /\ fst (Rest.delete_order P order_id w)
     = match fst answer with
       | Ok (Some row) =>
           if truthy (Some row)
           then Ok (PDict [("message", PStr "Order deleted successfully");
                           ("order", row)])
           else Raise (Main.HTTPException 404 "Order not found")
       | Ok None => Raise (Main.HTTPException 404 "Order not found")
       | Raise e =>
           match kind e with
           | KHTTPException _ _ => Raise e
           | _ => Raise (Main.HTTPException 500 "Failed to delete order")
           end
       end.
Proof.
  intros D Pl. cbv zeta.
  unfold Rest.delete_order, try_except, bind, Main.with_db, Db.delete_order,
    Db.acquire, Db.fetchrow, bind, extern, ret, raise, logger_error.
  rewrite D, Pl. cbn [net push_query fst snd].
  destruct (pool_fetchrow P p Db.query_delete_order [SqlPy (PInt order_id)] (net w))
    as [[[row|]|e] n1]; cbn [fst snd].
  - destruct (truthy (Some row)); cbn; auto.
  - cbn. auto.
  - destruct (kind e) eqn:K; cbn; auto.
Qed.

Lemma delete_order_outcomes_witness :
  let row := PDict [("id", PInt 7); ("status", PStr "pending")] in
  let w := SimShutdown.serving (SimShutdown.with_rows [row] []) in
  let self := {| database_url := "postgresql://localhost/orders";
                 pool := Some 1; listener_connection := Some 2 |} in
  main_db w = Some self
  /\ pool self = Some 1
  /\ fst (Rest.delete_order Sim.platform 7 w)
     = Ok (PDict [("message", PStr "Order deleted successfully"); ("order", row)]).
Proof.
  intros row w self.
  assert (main_db w = Some self) as D by reflexivity.
  assert (pool self = Some 1) as Pl by reflexivity.
  split; [exact D|]. split; [exact Pl|].
  exact (proj2 (delete_order_outcomes Sim.platform 7 w self 1 D Pl)).
Defined.

(** X25. [POST /api/orders], with the database object and its pool in
    place, sends the store exactly one [INSERT] with the customer name, the
    product name and the status of the order, and answers with the row the
    store returns; there is no 404 on this endpoint: a store that raises,
    and a store that returns no row, are both answered 500
    [Failed to create order]. *)
Theorem create_order_outcomes (P : Platform) (order : OrderCreate) (w : World P)
    (self : Database) (p : Pool) :
  main_db w = Some self ->
  pool self = Some p ->
  let values := [SqlStr (oc_customer_name order); SqlStr (oc_product_name order);
                 SqlStatus (oc_status order)] in
  let answer := pool_fetchrow P p Db.query_create_order values (net w) in
  queries (snd (Rest.create_order P order w))
  = (queries w ++ [(Db.query_create_order, values)])%list
  /\ fst (Rest.create_order P order w)
     = match fst answer with
       | Ok (Some row) => Ok row
       | _ => Raise (Main.HTTPException 500 "Failed to create order")
       end.
Proof.
  intros D Pl. cbv zeta.
  unfold Rest.create_order, try_except, bind, Main.with_db,
    Db.create_order, Db.acquire, Db.fetchrow, bind, extern, ret, raise, logger_error.
  rewrite D, Pl. cbn [net push_query fst snd].
  destruct (pool_fetchrow P p Db.query_create_order _ (net w))
    as [[[row|]|e] n1]; cbn; auto.
Qed.

Lemma create_order_outcomes_witness :
  let row := PDict [("id", PInt 8); ("status", PStr "pending")] in
  let order := {| oc_customer_name := "Ann"; oc_product_name := "Tea";
                  oc_status := PENDING |} in
  let w := SimShutdown.serving (SimShutdown.with_rows [row] []) in
  let self := {| database_url := "postgresql://localhost/orders";
                 pool := Some 1; listener_connection := Some 2 |} in
  main_db w = Some self
  /\ pool self = Some 1
  /\ fst (Rest.create_order Sim.platform order w) = Ok row
  /\ fst (Rest.create_order Sim.platform order (SimShutdown.serving Sim.quiet))
     = Raise (Main.HTTPException 500 "Failed to create order").
Proof.
  intros row order w self.
  assert (main_db w = Some self) as D by reflexivity.
  assert (pool self = Some 1) as Pl by reflexivity.
  assert (main_db (SimShutdown.serving Sim.quiet) = Some self) as D' by reflexivity.
  split; [exact D|]. split; [exact Pl|]. split.
  - exact (proj2 (create_order_outcomes Sim.platform order w self 1 D Pl)).
  - exact (proj2 (create_order_outcomes Sim.platform order _ self 1 D' Pl)).
Defined.
